(** * Merry-Christmas: the morph/animation core

    A shallow embedding of the TypeScript sources

      - [src/utils/math.ts]                          (module [MathUtils])
      - [src/unnamed/part_001], the file [types.ts]  (module [Types])
      - [src/unnamed/part_000], the file [App.tsx]   (module [App])
      - [src/components/Foliage.tsx]                 (module [Foliage])
      - [src/unnamed/part_002], the file
        [components/Ornaments.tsx]                   (module [Ornaments])
      - [src/components/Particles.tsx]               (module [Particles])
      - [src/unnamed/part_003], the file
        [components/Experience.tsx]                  (module [Experience])

    together with the part of the JavaScript runtime and of three.js that
    these files call (modules [JS] and [THREE]). *)

From Stdlib Require Import QArith Qabs Qround Qpower Lqa Lia List String ZArith
  Bool.
Import ListNotations.

(* ====================================================================== *)
(** * The JavaScript runtime *)
(* ====================================================================== *)

Module JS.

(** A JavaScript [number].  The special values of IEEE 754 ([NaN], the two
    infinities) are kept with their arithmetic; finite values are rationals
    and finite arithmetic is exact: the rounding of doubles, overflow and
    the sign of zero are abstracted away.  (The conversion to single
    precision that a [Float32Array] makes is not: see [Control.Float32].
    Where overflow would matter, the properties bound their arguments:
    see [moderate].) *)
Inductive number : Type :=
| NaN
| Infinity (negative : bool)
| Fin (q : Q).

(** A numeric literal of the source. *)
Definition lit (q : Q) : number := Fin q.
Arguments lit q%_Q.

Definition is_zero (q : Q) : bool := Qeq_bool q 0.
Definition is_neg (q : Q) : bool := negb (Qle_bool 0 q).

Definition add (x y : number) : number :=
  match x, y with
  | NaN, _ | _, NaN => NaN
  | Infinity s, Infinity s' => if Bool.eqb s s' then Infinity s else NaN
  | Infinity s, Fin _ | Fin _, Infinity s => Infinity s
  | Fin a, Fin b => Fin (a + b)
  end.

Definition sub (x y : number) : number :=
  match x, y with
  | NaN, _ | _, NaN => NaN
  | Infinity s, Infinity s' => if Bool.eqb s s' then NaN else Infinity s
  | Infinity s, Fin _ => Infinity s
  | Fin _, Infinity s => Infinity (negb s)
  | Fin a, Fin b => Fin (a - b)
  end.

Definition mul (x y : number) : number :=
  match x, y with
  | NaN, _ | _, NaN => NaN
  | Infinity s, Infinity s' => Infinity (xorb s s')
  | Infinity s, Fin b | Fin b, Infinity s =>
      if is_zero b then NaN else Infinity (xorb s (is_neg b))
  | Fin a, Fin b => Fin (a * b)
  end.

Definition div (x y : number) : number :=
  match x, y with
  | NaN, _ | _, NaN => NaN
  | Infinity _, Infinity _ => NaN
  | Infinity s, Fin b => Infinity (xorb s (is_neg b))
  | Fin _, Infinity _ => Fin 0
  | Fin a, Fin b =>
      if is_zero b
      then if is_zero a then NaN else Infinity (is_neg a)
      else Fin (a / b)
  end.

(** [x < y]; every comparison with [NaN] is false. *)
Definition ltb (x y : number) : bool :=
  match x, y with
  | NaN, _ | _, NaN => false
  | Infinity s, Infinity s' => s && negb s'
  | Infinity s, Fin _ => s
  | Fin _, Infinity s => negb s
  | Fin a, Fin b => negb (Qle_bool b a)
  end.

Declare Scope js_scope.
Delimit Scope js_scope with js.
Bind Scope js_scope with number.
Infix "+" := add : js_scope.
Infix "-" := sub : js_scope.
Infix "*" := mul : js_scope.
Infix "/" := div : js_scope.
Infix "<?" := ltb : js_scope.

(** A loop counter or an array length used as a number. *)
Definition of_nat (n : nat) : number := Fin (inject_Z (Z.of_nat n)).

Definition isNaN (x : number) : bool :=
  match x with NaN => true | _ => false end.

Definition isFinite (x : number) : bool :=
  match x with Fin _ => true | _ => false end.

(** [Math.PI] is the double nearest to pi: 884279719003555 / 2^48. *)
Definition Math_PI : number := Fin (884279719003555 # 281474976710656).

(** [Math.floor]. *)
Definition Math_floor (x : number) : number :=
  match x with
  | Fin q => Fin (inject_Z (Qfloor q))
  | _ => x
  end.

(** [Math.pow(x, n)] at a literal exponent [n] that is a natural number;
    [Math.pow(x, 0)] is 1 for every [x], [NaN] included. *)
Fixpoint Math_pow (x : number) (n : nat) : number :=
  match n with
  | O => lit 1
  | S n' => (x * Math_pow x n')%js
  end.

(** What the embedding takes from the engine without looking inside: the
    transcendental functions of [Math], and the values [Math.random] hands
    out, in the order of the calls ([entropy n] is the value of call number
    [n]; it is a finite number). *)
Class Engine : Type := {
  Math_sin : number -> number;
  Math_cos : number -> number;
  Math_acos : number -> number;
  Math_cbrt : number -> number;
  Math_sqrt : number -> number;
  entropy : nat -> Q
}.

(** ** Code that calls [Math.random]

    The state is the number of calls made so far. *)
Definition Rand (A : Type) : Type := nat -> A * nat.

Definition ret {A} (a : A) : Rand A := fun n => (a, n).

Definition bind {A B} (m : Rand A) (k : A -> Rand B) : Rand B :=
  fun n => let (a, n') := m n in k a n'.

Definition Math_random `{Engine} : Rand number :=
  fun n => (Fin (entropy n), S n).

Declare Scope rand_scope.
Delimit Scope rand_scope with rand.
Bind Scope rand_scope with Rand.
Notation "x <- m ;; k" := (bind m (fun x => k))
  (at level 61, m at next level, right associativity) : rand_scope.

(** ** Arrays *)

(** [a.length]. *)
Definition length_of {A} (a : list A) : number := of_nat (List.length a).

(** [a[i]] for a number [i]: the element when [i] is an integer index of
    the array, [undefined] ([None]) otherwise. *)
Definition get {A} (a : list A) (i : number) : option A :=
  match i with
  | Fin q =>
      if Qeq_bool (inject_Z (Qfloor q)) q && Qle_bool 0 q
      then nth_error a (Z.to_nat (Qfloor q))
      else None
  | _ => None
  end.

(** [a[i] = v] where [a] has a fixed length (a typed array, a tuple): a
    write outside the array does nothing. *)
Fixpoint set {A} (a : list A) (i : nat) (v : A) : list A :=
  match a, i with
  | [], _ => []
  | _ :: a', O => v :: a'
  | x :: a', S i' => x :: set a' i' v
  end.

(** A triple [[number, number, number]]. *)
Definition vec3 : Type := number * number * number.

Definition vx (p : vec3) : number := fst (fst p).
Definition vy (p : vec3) : number := snd (fst p).
Definition vz (p : vec3) : number := snd p.

End JS.

Import JS.
Local Open Scope js_scope.
Local Open Scope rand_scope.

(* ====================================================================== *)
(** * src/utils/math.ts *)
(* ====================================================================== *)

Module MathUtils.

Definition TREE_HEIGHT : number := lit 12.
Definition TREE_RADIUS_BASE : number := lit 5.5.
Definition SCATTER_RADIUS : number := lit 18.

(** The default value of the parameter [yOffset]. *)
Definition yOffset_default : number := lit (-5).

Section Generators.
Context `{Engine}.

Definition getRandomSpherePoint (radius : number) : Rand vec3 :=
  u <- Math_random ;;
  v <- Math_random ;;
  let theta := lit 2 * Math_PI * u in
  let phi := Math_acos (lit 2 * v - lit 1) in
  w <- Math_random ;;
  let r := Math_cbrt w * radius in
  let x := r * Math_sin phi * Math_cos theta in
  let y := r * Math_sin phi * Math_sin theta in
  let z := r * Math_cos phi in
  ret (x, y, z).

Definition getTreePoint (height radiusBase yOffset : number) : Rand vec3 :=
  h <- Math_random ;;
  let y := h * height in
  let currentRadius := (lit 1 - h) * radiusBase in
  a <- Math_random ;;
  let angle := a * Math_PI * lit 2 in
  s <- Math_random ;;
  let r := Math_sqrt s * currentRadius in
  let x := r * Math_cos angle in
  let z := r * Math_sin angle in
  ret (x, y + yOffset, z).

Definition getTreeSpiralPoint
    (t totalPoints height radiusBase yOffset : number) : vec3 :=
  let hRatio := t / totalPoints in
  let y := hRatio * height + yOffset in
  let r := (lit 1 - hRatio) * radiusBase in
  let angle := t * lit 2.39996 in
  let x := r * Math_cos angle in
  let z := r * Math_sin angle in
  (x, y, z).

End Generators.

End MathUtils.

(* ====================================================================== *)
(** * types.ts (src/unnamed/part_001) *)
(* ====================================================================== *)

Module Types.

Inductive TreeMorphState : Type := SCATTERED | TREE_SHAPE.

(** ['SPHERE' | 'BOX' | 'STAR']. *)
Inductive OrnamentType : Type := SPHERE | BOX | STAR.

(** [OrnamentData], with the [scaleVector] the builder attaches to it.  A
    [color] is a hex string; [None] stands for [undefined], the value of a
    read outside an array. *)
Record OrnamentData : Type := {
  id : number;
  type : OrnamentType;
  scatter : vec3;
  tree : vec3;
  scale : number;
  rotation : vec3;
  color : option string;
  speed : number;
  offset : number;
  scaleVector : vec3
}.

End Types.

(* ====================================================================== *)
(** * App.tsx (src/unnamed/part_000) *)
(* ====================================================================== *)

Module App.

(** [useState<TreeMorphState>(TreeMorphState.TREE_SHAPE)]. *)
Definition treeState_initial : Types.TreeMorphState := Types.TREE_SHAPE.

End App.

(* ====================================================================== *)
(** * three.js, as far as the components use it *)
(* ====================================================================== *)

Module THREE.

(** [THREE.MathUtils.lerp(x, y, t)] is [(1 - t) * x + t * y]. *)
Definition MathUtils_lerp (x y t : number) : number :=
  (lit 1 - t) * x + t * y.

(** The local matrix of an object is composed from its position, its
    Euler rotation and its scale; it is kept as these three. *)
Record Matrix4 : Type := compose {
  m_position : vec3;
  m_rotation : vec3;
  m_scale : vec3
}.

Definition identity : Matrix4 :=
  compose (lit 0, lit 0, lit 0) (lit 0, lit 0, lit 0) (lit 1, lit 1, lit 1).

Record Object3D : Type := {
  position : vec3;
  rotation : vec3;
  scale : vec3;
  matrix : Matrix4
}.

Definition new_Object3D : Object3D :=
  {| position := (lit 0, lit 0, lit 0);
     rotation := (lit 0, lit 0, lit 0);
     scale := (lit 1, lit 1, lit 1);
     matrix := identity |}.

Definition updateMatrix (o : Object3D) : Object3D :=
  {| position := position o;
     rotation := rotation o;
     scale := scale o;
     matrix := compose (position o) (rotation o) (scale o) |}.

(** An instanced mesh: one matrix per instance and the flag that asks for
    their upload. *)
Record InstancedMesh : Type := {
  instanceMatrix : list Matrix4;
  needsUpdate : bool
}.

Definition new_InstancedMesh (count : nat) : InstancedMesh :=
  {| instanceMatrix := repeat identity count; needsUpdate := false |}.

Definition setMatrixAt (m : InstancedMesh) (i : nat) (mat : Matrix4)
  : InstancedMesh :=
  {| instanceMatrix := JS.set (instanceMatrix m) i mat;
     needsUpdate := needsUpdate m |}.

End THREE.

(* ====================================================================== *)
(** * Loops, typed arrays and the shading language *)
(* ====================================================================== *)

Module Control.

(** [for (let i = i0; i < i0 + n; i++) body], where the body changes a
    state and may call [Math.random]. *)
Fixpoint for_from {S : Type} (n i : nat) (body : nat -> S -> Rand S) (s : S)
  : Rand S :=
  match n with
  | O => ret s
  | S n' => s' <- body i s ;; for_from n' (Datatypes.S i) body s'
  end.

(** [for (let i = 0; i < n; i++) body]. *)
Definition for_lt {S : Type} (n : nat) (body : nat -> S -> Rand S) (s : S)
  : Rand S :=
  for_from n 0 body s.

(** [new Float32Array(n)]: [n] zeros. *)
Definition new_Float32Array (n : nat) : list number := repeat (lit 0) n.

(** A [Float32Array] holds numbers of single precision: a write converts
    the number it is given, as [Math.fround] does.  The conversion is a
    parameter, like the functions of [Math]. *)
Class Float32 : Type := {
  Math_fround : number -> number
}.

Section TypedArrays.
Context {F : Float32}.

(** [a[i] = v] where [a] is a [Float32Array]. *)
Definition store (a : list number) (i : nat) (v : number) : list number :=
  JS.set a i (Math_fround v).

(** The three writes [a[i * 3] = x; a[i * 3 + 1] = y; a[i * 3 + 2] = z]. *)
Definition set3 (a : list number) (i : nat) (p : vec3) : list number :=
  store (store (store a (i * 3) (vx p)) (i * 3 + 1) (vy p))
        (i * 3 + 2) (vz p).

End TypedArrays.

End Control.

Module GLSL.

(** The built-in functions of the GPU that are taken as they come. *)
Class GPU : Type := {
  sin : number -> number;
  cos : number -> number;
  pow : number -> number -> number;
  length2 : number -> number -> number
}.

(** [mod(x, y)] is [x - y * floor(x / y)]. *)
Definition mod_ (x y : number) : number := x - y * Math_floor (x / y).

(** [step(edge, x)] is 0.0 when [x < edge], 1.0 otherwise. *)
Definition step (edge x : number) : number :=
  if x <? edge then lit 0.0 else lit 1.0.

(** A vector times a scalar, and the sum of two vectors. *)
Definition scale3 (v : vec3) (k : number) : vec3 :=
  (vx v * k, vy v * k, vz v * k).

Definition add3 (v w : vec3) : vec3 :=
  (vx v + vx w, vy v + vy w, vz v + vz w).

End GLSL.

(* ====================================================================== *)
(** * src/components/Foliage.tsx *)
(* ====================================================================== *)

Module Foliage.

Import Types.

(** ** The vertex shader *)

(** GLSL [mix(x, y, a)] is [x * (1 - a) + y * a]. *)
Definition mix (x y a : number) : number :=
  x * (lit 1 - a) + y * a.

(** [float easeInOutCubic(float x)]; [pow(_, 3.0)] is the cube. *)
Definition easeInOutCubic (x : number) : number :=
  if x <? lit 0.5
  then lit 4 * x * x * x
  else lit 1 - Math_pow (lit (-2) * x + lit 2) 3 / lit 2.

(** [vec3 pos = mix(aScatterPos, aTreePos, t)] with
    [t = easeInOutCubic(uProgress)]. *)
Definition morphed (aScatterPos aTreePos : vec3) (uProgress : number) : vec3 :=
  let t := easeInOutCubic uProgress in
  (mix (vx aScatterPos) (vx aTreePos) t,
   mix (vy aScatterPos) (vy aTreePos) t,
   mix (vz aScatterPos) (vz aTreePos) t).

(** ** The component *)

(** The uniforms of the shader material the frame callback writes. *)
Record Uniforms : Type := {
  uTime : number;
  uProgress : number
}.

(** [FoliageMaterial.uniforms]. *)
Definition FoliageMaterial : Uniforms :=
  {| uTime := lit 0; uProgress := lit 0 |}.

(** The mutable cells of a mounted [Foliage]: the two refs. *)
Record State : Type := {
  materialRef : option Uniforms;
  progressRef : number
}.

(** [useRef(0)] for the progress, and the material of the
    [<shaderMaterial ref={materialRef} args={[FoliageMaterial]}>]. *)
Definition mount : State :=
  {| materialRef := Some FoliageMaterial; progressRef := lit 0 |}.

(** The callback given to [useFrame], for the prop [state] and the frame's
    [delta]. *)
Definition useFrame (state : TreeMorphState) (delta : number) (st : State)
  : State :=
  match materialRef st with
  | None => st
  | Some u =>
      let uTime' := uTime u + delta in
      let target :=
        match state with TREE_SHAPE => lit 1.0 | SCATTERED => lit 0.0 end in
      let speed := lit 1.5 in
      let progress' :=
        progressRef st + (target - progressRef st) * speed * delta in
      {| materialRef := Some {| uTime := uTime'; uProgress := progress' |};
         progressRef := progress' |}
  end.

(** ** The rest of the vertex shader *)

Section Shader.
Context `{GLSL.GPU}.

(** GLSL [mix] on vectors, with a scalar weight. *)
Definition mix3 (x y : vec3) (a : number) : vec3 :=
  (mix (vx x) (vx y) a, mix (vy x) (vy y) a, mix (vz x) (vz y) a).

(** What [main] of the vertex shader computes before the projection: the
    position [pos] and the varyings [vAlpha] and [vGoldMix]. *)
Record Vertex : Type := {
  pos : vec3;
  vAlpha : number;
  vGoldMix : number
}.

Definition vertex_main (uTime uProgress : number)
    (aScatterPos aTreePos normal : vec3) (aRandom : number) : Vertex :=
  let t := easeInOutCubic uProgress in
  let pos := mix3 aScatterPos aTreePos t in
  let breathe :=
    GLSL.sin (uTime * lit 2.0 + aRandom * lit 10.0) * lit 0.1 in
  let floatOffset :=
    GLSL.scale3
      (GLSL.scale3
         (GLSL.sin (uTime * lit 0.5 + aRandom * lit 5.0),
          GLSL.cos (uTime * lit 0.3 + aRandom * lit 3.0),
          GLSL.sin (uTime * lit 0.7 + aRandom * lit 2.0))
         (lit 1.0 - t))
      (lit 0.5) in
  let pos := GLSL.add3 pos (GLSL.scale3 normal breathe) in
  let pos := GLSL.add3 pos floatOffset in
  {| pos := pos;
     vAlpha :=
       lit 0.8 + lit 0.2 * GLSL.sin (uTime + aRandom * lit 10.0);
     vGoldMix := aRandom |}.

(** ** The fragment shader *)

(** [main] of the fragment shader at the point coordinate
    [(coord_x, coord_y)]: [None] when the fragment is discarded, the
    color and the opacity of [gl_FragColor] otherwise. *)
Definition fragment_main (uColor uColorHigh : vec3)
    (vAlpha vGoldMix : number) (gl_PointCoord : number * number)
  : option (vec3 * number) :=
  let coord :=
    (fst gl_PointCoord - lit 0.5, snd gl_PointCoord - lit 0.5) in
  let dist := GLSL.length2 (fst coord) (snd coord) in
  if lit 0.5 <? dist then None
  else
    let strength := lit 1.0 - dist * lit 2.0 in
    let strength := GLSL.pow strength (lit 1.5) in
    let baseColor := uColor in
    let goldColor := GLSL.scale3 uColorHigh (lit 2.5) in
    let finalColor :=
      mix3 baseColor goldColor (GLSL.step (lit 0.95) vGoldMix) in
    let finalColor :=
      GLSL.add3 finalColor
        (GLSL.scale3 (lit 0.05, lit 0.1, lit 0.05) strength) in
    Some (finalColor, strength * vAlpha).

End Shader.

(** ** The positions, calculated once *)

Section Data.
Context {E : Engine} {F : Control.Float32}.

Definition COUNT : nat := 14 * 1000.

(** The three arrays of the [useMemo]. *)
Record Buffers : Type := {
  scatterPositions : list number;
  treePositions : list number;
  randoms : list number
}.

(** The body of [for (let i = 0; i < COUNT; i++)]. *)
Definition fill (i : nat) (b : Buffers) : Rand Buffers :=
  s <- MathUtils.getRandomSpherePoint MathUtils.SCATTER_RADIUS ;;
  let sPos := Control.set3 (scatterPositions b) i s in
  t <- MathUtils.getTreePoint MathUtils.TREE_HEIGHT
         MathUtils.TREE_RADIUS_BASE MathUtils.yOffset_default ;;
  let tPos := Control.set3 (treePositions b) i t in
  r <- Math_random ;;
  ret {| scatterPositions := sPos;
         treePositions := tPos;
         randoms := Control.store (randoms b) i r |}.

(** The [useMemo] for a number [count] of points; the component has
    [count = COUNT]. *)
Definition buffers (count : nat) : Rand Buffers :=
  Control.for_lt count fill
    {| scatterPositions := Control.new_Float32Array (count * 3);
       treePositions := Control.new_Float32Array (count * 3);
       randoms := Control.new_Float32Array count |}.

End Data.

End Foliage.

(* ====================================================================== *)
(** * components/Ornaments.tsx (src/unnamed/part_002) *)
(* ====================================================================== *)

Module Ornaments.

Import Types MathUtils.

(** [colorHex !== s], for a [colorHex] that may be [undefined]. *)
Definition differs (colorHex : option string) (s : string) : bool :=
  match colorHex with
  | Some c => negb (String.eqb c s)
  | None => true
  end.

(** The mutable cells of a mounted [OrnamentGroup]: the memoised [data],
    the mesh behind [meshRef], the scratch object [tempObj] and the
    progress behind [progressRef]. *)
Record State : Type := {
  data : list OrnamentData;
  meshRef : option THREE.InstancedMesh;
  tempObj : THREE.Object3D;
  progressRef : number
}.

Section OrnamentGroup.
Context `{Engine}.

(** The props of the group that the code reads ([geometry] and [material]
    are passed on to the mesh unread). *)
Variable type : OrnamentType.
Variable count : nat.
Variable scaleBase : number.
Variable palette : option (list string).

(** ** Initialize Data *)

(** [let colorHex = '#d4af37'; if (palette && palette.length > 0) ...]. *)
Definition pickColor : Rand (option string) :=
  match palette with
  | Some p =>
      if lit 0 <? length_of p
      then c <- Math_random ;; ret (get p (Math_floor (c * length_of p)))
      else ret (Some "#d4af37"%string)
  | None => ret (Some "#d4af37"%string)
  end.

(** The scale logic: the pair of [scaleVec] and [itemScaleBase]. *)
Definition pickScale (colorHex : option string) : Rand (vec3 * number) :=
  let scaleVec := (lit 1, lit 1, lit 1) in
  let itemScaleBase := scaleBase in
  match type with
  | BOX =>
      w <- Math_random ;;
      h <- Math_random ;;
      d <- Math_random ;;
      let scaleVec :=
        (lit 0.8 + w * lit 0.4, lit 0.6 + h * lit 0.6, lit 0.8 + d * lit 0.4) in
      b <- Math_random ;;
      ret (scaleVec, scaleBase * (lit 0.8 + b * lit 0.4))
  | SPHERE =>
      b <- Math_random ;;
      let itemScaleBase := scaleBase * (lit 0.8 + b * lit 0.4) in
      if differs colorHex "#8a0000"
      then
        r <- Math_random ;;
        if r <? lit 0.04
        then g <- Math_random ;;
             ret (scaleVec, scaleBase * (lit 2.2 + g * lit 0.2))
        else if r <? lit 0.20
        then g <- Math_random ;;
             ret (scaleVec, scaleBase * (lit 1.4 + g * lit 0.4))
        else ret (scaleVec, itemScaleBase)
      else ret (scaleVec, itemScaleBase)
  | STAR => ret (scaleVec, itemScaleBase)
  end.

(** The body of [for (let i = 0; i < count; i++)], up to the record it
    pushes. *)
Definition newItem (i : nat) : Rand OrnamentData :=
  scatter <- getRandomSpherePoint SCATTER_RADIUS ;;
  let tree :=
    getTreeSpiralPoint (of_nat i) (of_nat count) TREE_HEIGHT
      (TREE_RADIUS_BASE * match type with BOX => lit 0.8 | _ => lit 0.9 end)
      yOffset_default in
  j0 <- Math_random ;;
  let tree := (vx tree + (j0 - lit 0.5) * lit 0.5, vy tree, vz tree) in
  j2 <- Math_random ;;
  let tree := (vx tree, vy tree, vz tree + (j2 - lit 0.5) * lit 0.5) in
  colorHex <- pickColor ;;
  sc <- pickScale colorHex ;;
  rx <- Math_random ;;
  ry <- Math_random ;;
  sp <- Math_random ;;
  off <- Math_random ;;
  ret {| id := of_nat i;
         Types.type := type;
         scatter := scatter;
         tree := tree;
         scale := snd sc;
         rotation := (rx * Math_PI, ry * Math_PI, lit 0);
         color := colorHex;
         speed := lit 0.2 + sp * lit 0.5;
         offset := off * lit 100;
         scaleVector := fst sc |}.

(** The loop: [n] iterations are left, the next index is [i]. *)
Fixpoint loop (n i : nat) (items : list OrnamentData)
  : Rand (list OrnamentData) :=
  match n with
  | O => ret items
  | S n' => item <- newItem i ;; loop n' (S i) (items ++ [item])
  end.

(** [const data = useMemo(() => { ... return items; }, ...)]. *)
Definition buildData : Rand (list OrnamentData) := loop count 0 [].

(** The group once mounted: [data] built, the [<instancedMesh>] of [count]
    instances behind [meshRef], [progressRef = useRef(0)]. *)
Definition mount : Rand State :=
  items <- buildData ;;
  ret {| data := items;
         meshRef := Some (THREE.new_InstancedMesh count);
         tempObj := THREE.new_Object3D;
         progressRef := lit 0 |}.

(** ** The frame callback *)

(** [const easeT = t < 0.5 ? 4 * t * t * t : 1 - Math.pow(-2 * t + 2, 3) / 2]. *)
Definition easeT (t : number) : number :=
  if t <? lit 0.5
  then lit 4 * t * t * t
  else lit 1 - Math_pow (lit (-2) * t + lit 2) 3 / lit 2.

(** The body of [data.forEach((item, i) => ...)]: it fills [tempObj] and
    stores its matrix at [i]. *)
Definition place (e time : number) (st : State) (ii : nat * OrnamentData)
  : State :=
  let (i, item) := ii in
  let x := THREE.MathUtils_lerp (vx (scatter item)) (vx (tree item)) e in
  let y := THREE.MathUtils_lerp (vy (scatter item)) (vy (tree item)) e in
  let z := THREE.MathUtils_lerp (vz (scatter item)) (vz (tree item)) e in
  let floatY :=
    Math_sin (time * speed item + offset item) * (lit 0.2 * (lit 1 - e)) in
  let position := (x, y + floatY, z) in
  let rotation :=
    (vx (rotation item) + time * lit 0.2 * (lit 1 - e),
     vy (rotation item) + time * lit 0.1,
     vz (rotation item)) in
  let scalePop :=
    scale item * (lit 0.8 + lit 0.2 * Math_sin (time + offset item)) in
  let sv := scaleVector item in
  let scale := (vx sv * scalePop, vy sv * scalePop, vz sv * scalePop) in
  let obj :=
    THREE.updateMatrix
      {| THREE.position := position;
         THREE.rotation := rotation;
         THREE.scale := scale;
         THREE.matrix := THREE.matrix (tempObj st) |} in
  {| data := data st;
     meshRef :=
       option_map (fun m => THREE.setMatrixAt m i (THREE.matrix obj))
                  (meshRef st);
     tempObj := obj;
     progressRef := progressRef st |}.

(** [array.forEach((item, i) => ...)]: the items with their indices. *)
Definition indexed {A} (a : list A) : list (nat * A) :=
  combine (seq 0 (List.length a)) a.

(** The callback given to [useFrame], for the prop [state], the elapsed
    [time] read off the clock and the frame's [delta]. *)
Definition useFrame (state : TreeMorphState) (time delta : number)
    (st : State) : State :=
  match meshRef st with
  | None => st
  | Some _ =>
      let target :=
        match state with TREE_SHAPE => lit 1.0 | SCATTERED => lit 0.0 end in
      let lerpSpeed := match type with BOX => lit 1.2 | _ => lit 1.8 end in
      let t := progressRef st + (target - progressRef st) * lerpSpeed * delta in
      let st1 :=
        {| data := data st; meshRef := meshRef st; tempObj := tempObj st;
           progressRef := t |} in
      let e := easeT t in
      let st2 := fold_left (place e time) (indexed (data st1)) st1 in
      {| data := data st2;
         meshRef :=
           option_map
             (fun m => {| THREE.instanceMatrix := THREE.instanceMatrix m;
                          THREE.needsUpdate := true |})
             (meshRef st2);
         tempObj := tempObj st2;
         progressRef := progressRef st2 |}
  end.

End OrnamentGroup.

(** ** [Ornaments]: the two groups of the scene *)

Definition giftPalette : list string :=
  ["#8a0000"; "#8B4513"; "#F5F5F5"; "#D4AF37"; "#D4AF37"; "#064e3b"]%string.

Definition spherePalette : list string :=
  ["#ffc125"; "#ffc125"; "#ffc125"; "#8a0000"; "#ffffff"]%string.

(** [<OrnamentGroup type="SPHERE" count={250} scaleBase={0.25}
      palette={spherePalette}>]. *)
Definition spheres `{Engine} : Rand State :=
  mount SPHERE 250 (lit 0.25) (Some spherePalette).

(** [<OrnamentGroup type="BOX" count={100} scaleBase={0.4}
      palette={giftPalette}>]. *)
Definition boxes `{Engine} : Rand State :=
  mount BOX 100 (lit 0.4) (Some giftPalette).

End Ornaments.

(* ====================================================================== *)
(** * src/components/Particles.tsx *)
(* ====================================================================== *)

Module Particles.

(** ** The shaders *)

Section Shaders.
Context `{GLSL.GPU}.

(** [StarMaterial], vertex shader: the [twinkle] passed on as [vAlpha]. *)
Definition star_twinkle (uTime aSpeed : number) (position : vec3)
  : number :=
  lit 0.5
  + lit 0.5 * GLSL.sin (uTime * aSpeed + vx position * lit 100.0).

(** [DustMaterial], vertex shader: the position [pos] before the
    projection and the varying [vAlpha]. *)
Definition dust_vertex (uTime : number) (aRandom position : vec3)
  : vec3 * number :=
  let speed := vy aRandom * lit 0.5 in
  let pos_y :=
    vy position + (GLSL.mod_ (uTime * speed) (lit 20.0) - lit 10.0) in
  let pos_x :=
    vx position + GLSL.sin (uTime * lit 0.5 + vx aRandom) * lit 0.5 in
  let pos_z :=
    vz position + GLSL.cos (uTime * lit 0.3 + vz aRandom) * lit 0.5 in
  ((pos_x, pos_y, pos_z),
   lit 0.4 + lit 0.4 * GLSL.sin (uTime * lit 2.0 + vx aRandom)).

End Shaders.

(** ** The data *)

Section Data.
Context {E : Engine} {F : Control.Float32}.

(** The arrays of [BackgroundStars]. *)
Record Stars : Type := {
  positions : list number;
  sizes : list number;
  speeds : list number
}.

(** The body of the loop of [BackgroundStars]. *)
Definition newStar (i : nat) (b : Stars) : Rand Stars :=
  u <- Math_random ;;
  let r := lit 60 + u * lit 40 in
  a <- Math_random ;;
  let theta := a * Math_PI * lit 2 in
  v <- Math_random ;;
  let phi := Math_acos (lit 2 * v - lit 1) in
  let pos :=
    Control.set3 (positions b) i
      (r * Math_sin phi * Math_cos theta,
       r * Math_sin phi * Math_sin theta,
       r * Math_cos phi) in
  z <- Math_random ;;
  let sz := Control.store (sizes b) i (lit 10.0 + z * lit 20.0) in
  w <- Math_random ;;
  let sp := Control.store (speeds b) i (lit 2.0 + w * lit 5.0) in
  ret {| positions := pos; sizes := sz; speeds := sp |}.

(** The [useMemo] of [BackgroundStars] for [count] stars; the component
    has [count = 1500]. *)
Definition stars (count : nat) : Rand Stars :=
  Control.for_lt count newStar
    {| positions := Control.new_Float32Array (count * 3);
       sizes := Control.new_Float32Array count;
       speeds := Control.new_Float32Array count |}.

(** The arrays of [GoldenDust]. *)
Record Dust : Type := {
  dust_positions : list number;
  scales : list number;
  randoms : list number
}.

(** The body of the loop of [GoldenDust]. *)
Definition newDust (i : nat) (b : Dust) : Rand Dust :=
  u <- Math_random ;;
  let r := u * lit 12 in
  a <- Math_random ;;
  let theta := a * Math_PI * lit 2 in
  h <- Math_random ;;
  let y := (h - lit 0.5) * lit 20 in
  let pos :=
    Control.set3 (dust_positions b) i
      (r * Math_cos theta, y, r * Math_sin theta) in
  z <- Math_random ;;
  let sc := Control.store (scales b) i (lit 5.0 + z * lit 10.0) in
  o <- Math_random ;;
  s <- Math_random ;;
  n <- Math_random ;;
  let rnd :=
    Control.set3 (randoms b) i (o * lit 100, lit 0.5 + s, n * lit 100) in
  ret {| dust_positions := pos; scales := sc; randoms := rnd |}.

(** The [useMemo] of [GoldenDust] for [count] grains; the component has
    [count = 300]. *)
Definition dust (count : nat) : Rand Dust :=
  Control.for_lt count newDust
    {| dust_positions := Control.new_Float32Array (count * 3);
       scales := Control.new_Float32Array count;
       randoms := Control.new_Float32Array (count * 3) |}.

End Data.

End Particles.

(* ====================================================================== *)
(** * components/Experience.tsx (src/unnamed/part_003) *)
(* ====================================================================== *)

Module Experience.

(** The calls made on a [THREE.Shape]. *)
Inductive PathOp : Type :=
| moveTo (x y : number)
| lineTo (x y : number)
| closePath.

Section StarShape.
Context `{Engine}.

Definition points : nat := 5.
Definition outerRadius : number := lit 0.9.
Definition innerRadius : number := lit 0.45.

(** The body of [for (let i = 0; i < points * 2; i++)]: one more call on
    the shape. *)
Definition corner (i : nat) (star : list PathOp) : Rand (list PathOp) :=
  let angle :=
    (of_nat i * Math_PI) / of_nat points - Math_PI / lit 2 in
  let r := if Nat.eqb (i mod 2) 0 then outerRadius else innerRadius in
  let x := Math_cos angle * r in
  let y := Math_sin angle * r in
  ret (star ++ [if Nat.eqb i 0 then moveTo x y else lineTo x y]).

(** The shape of the star. *)
Definition shape : list PathOp :=
  fst (Control.for_lt (points * 2) corner [] 0%nat) ++ [closePath].

End StarShape.

End Experience.

(* ====================================================================== *)
(** * The vocabulary of the properties *)
(* ====================================================================== *)

Import Types.

(** The same value: equal rationals, the same infinity, or [NaN] twice. *)
Definition same (x y : number) : Prop :=
  match x, y with
  | NaN, NaN => True
  | Infinity s, Infinity s' => s = s'
  | Fin a, Fin b => a == b
  | _, _ => False
  end.

Infix "=~" := same (at level 70, no associativity).

(** A finite number between [lo] and [hi]. *)
Definition between (lo hi : Q) (x : number) : Prop :=
  match x with
  | Fin q => lo <= q <= hi
  | _ => False
  end.

(** [x <= y] on finite numbers. *)
Definition le (x y : number) : Prop :=
  match x, y with
  | Fin a, Fin b => a <= b
  | _, _ => False
  end.

(** [new] lies between [old] and [target]: the step went towards the
    target and did not pass it. *)
Definition toward (old target new : number) : Prop :=
  (le old new /\ le new target) \/ (le target new /\ le new old).

(** The three coordinates of a point are finite. *)
Definition finite3 (p : vec3) : bool :=
  isFinite (vx p) && isFinite (vy p) && isFinite (vz p).

(** [Math.random] returns a number of [[0, 1)]. *)
Definition unit_random (E : Engine) : Prop :=
  forall n, 0 <= entropy n < 1.

(** The transcendental functions return finite numbers on their domains. *)
Definition finite_math (E : Engine) : Prop :=
  (forall q, isFinite (Math_sin (Fin q)) = true) /\
  (forall q, isFinite (Math_cos (Fin q)) = true) /\
  (forall q, -1 <= q <= 1 -> isFinite (Math_acos (Fin q)) = true) /\
  (forall q, isFinite (Math_cbrt (Fin q)) = true) /\
  (forall q, 0 <= q -> isFinite (Math_sqrt (Fin q)) = true).

(** The finite numbers of the embedding are exact: a product or a sum of
    them never overflows, where a double turns into an infinity above
    1.8e308.  The arguments of a magnitude of at most 1e100, and the
    divisors of a magnitude of at least 1e-100, are those for which the
    generators stay far below that limit in every step: the properties
    that say "finite" are stated for them. *)
Definition moderate (q : Q) : Prop :=
  Qabs q <= inject_Z (10 ^ 100).

Definition substantial (q : Q) : Prop :=
  1 # (10 ^ 100) <= Qabs q.

(** The target of the morph: [state === TREE_SHAPE ? 1.0 : 0.0]. *)
Definition target (state : TreeMorphState) : number :=
  match state with TREE_SHAPE => lit 1.0 | SCATTERED => lit 0.0 end.

(** The damping rates: [speed] of the foliage, [lerpSpeed] of a group. *)
Definition foliage_rate : Q := 1.5.

Definition ornament_rate (type : OrnamentType) : Q :=
  match type with BOX => 1.2 | _ => 1.8 end.

(** One rendered frame: the state the UI holds, the clock and the time
    since the frame before. *)
Record Frame : Type := {
  f_state : TreeMorphState;
  f_time : Q;
  f_delta : Q
}.

Definition foliage_frame (st : Foliage.State) (f : Frame) : Foliage.State :=
  Foliage.useFrame (f_state f) (Fin (f_delta f)) st.

Definition foliage_run (frames : list Frame) (st : Foliage.State)
  : Foliage.State :=
  fold_left foliage_frame frames st.

Definition ornament_frame `{Engine} (type : OrnamentType)
    (st : Ornaments.State) (f : Frame) : Ornaments.State :=
  Ornaments.useFrame type (f_state f) (Fin (f_time f)) (Fin (f_delta f)) st.

Definition ornament_run `{Engine} (type : OrnamentType)
    (frames : list Frame) (st : Ornaments.State) : Ornaments.State :=
  fold_left (ornament_frame type) frames st.

(** The frames whose [delta] is not negative and at most [1 / k]. *)
Definition short_frames (k : Q) (frames : list Frame) : Prop :=
  Forall (fun f => 0 <= f_delta f /\ k * f_delta f <= 1) frames.

(** The rotation of the matrix computed for [item] at the blend factor
    [e] and the elapsed [time]. *)
Definition rotation_at `{Engine} (e time : number) (st : Ornaments.State)
    (i : nat) (item : OrnamentData) : vec3 :=
  THREE.m_rotation
    (THREE.matrix (Ornaments.tempObj (Ornaments.place e time st (i, item)))).

(** [palette && palette.length > 0]. *)
Definition has_colors (palette : option (list string)) : bool :=
  match palette with
  | Some (_ :: _) => true
  | _ => false
  end.

(** The colors of a palette, none when it is absent. *)
Definition colors (palette : option (list string)) : list string :=
  match palette with Some p => p | None => [] end.

(** A scale that is [s * m] for a multiplier [m] of [[lo, hi)]. *)
Definition tier (s lo hi : Q) (x : number) : Prop :=
  exists m, lo <= m < hi /\ x =~ Fin (s * m).

(** A frame at 60 Hz while the tree is asked for. *)
Definition formed_frame : Foliage.State -> Foliage.State :=
  Foliage.useFrame TREE_SHAPE (lit (1 # 60)).

(** [c] to the power [n]. *)
Fixpoint qpow (c : Q) (n : nat) : Q :=
  match n with
  | O => 1
  | S n' => c * qpow c n'
  end.

(** Two engines with the same cosine and sine; nothing is asked of their
    random sequences. *)
Definition same_trig (E1 E2 : Engine) : Prop :=
  (forall x, @Math_cos E1 x = @Math_cos E2 x) /\
  (forall x, @Math_sin E1 x = @Math_sin E2 x).

(** The ease of a finite progress, as a rational. *)
Definition ease (t : Q) : Q :=
  if Qle_bool 0.5 t
  then 1 - ((-2 * t + 2) * ((-2 * t + 2) * ((-2 * t + 2) * 1))) / 2
  else 4 * t * t * t.

(** ** An engine for closed examples

    The trigonometric functions are frozen at their values in 0 and the
    roots are the identity; [Math.random] cycles through a given list. *)
Definition cycle (l : list Q) (n : nat) : Q :=
  nth (n mod List.length l) l 0.

Definition sample_engine (l : list Q) : Engine :=
  {| Math_sin := fun _ => lit 0;
     Math_cos := fun _ => lit 1;
     Math_acos := fun _ => lit 0;
     Math_cbrt := fun x => x;
     Math_sqrt := fun x => x;
     entropy := cycle l |}.

(** The random sequence of the scenario of the specification. *)
Definition scenario : list Q := [0.01; 0.5; 0.99].

(** ** Sample data *)

(** The random sequence of a record with the roll 0.01: three values for
    the scatter point, two for the jitter, 0.1 for the color (index 0 of
    the palette), 0.5 for the base multiplier, then the roll. *)
Definition roll_001 : list Q :=
  [0.3; 0.6; 0.9; 0.5; 0.5; 0.1; 0.5; 0.01; 0.5; 0.2; 0.4; 0.6; 0.8].

(** Two frames at 60 Hz with a change of mind in between, then a third. *)
Definition some_frames : list Frame :=
  [ {| f_state := TREE_SHAPE; f_time := 0; f_delta := 1 # 60 |};
    {| f_state := SCATTERED; f_time := 1 # 60; f_delta := 1 # 60 |} ].

Definition one_more_frame : Frame :=
  {| f_state := TREE_SHAPE; f_time := 2 # 60; f_delta := 1 # 2 |}.

(** A mounted group of three spheres. *)
Definition three_spheres : Ornaments.State :=
  fst (Ornaments.mount (H := sample_engine scenario)
         SPHERE 3 (lit 0.25) (Some Ornaments.spherePalette) 0%nat).

(** A record with the base rotation 0. *)
Definition still_item : OrnamentData :=
  {| id := lit 0;
     Types.type := SPHERE;
     scatter := (lit 1, lit 2, lit 3);
     tree := (lit 0, lit (-5), lit 0);
     scale := lit 0.25;
     rotation := (lit 0, lit 0, lit 0);
     color := Some "#ffc125"%string;
     speed := lit 0.2;
     offset := lit 0;
     scaleVector := (lit 1, lit 1, lit 1) |}.

(** The first record of the three spheres. *)
Definition first_sphere : OrnamentData :=
  hd still_item (Ornaments.data three_spheres).

(** Record 0 of a group of 100 spheres under the sequence [roll_001]. *)
Definition record_001 : OrnamentData :=
  fst (Ornaments.newItem (H := sample_engine roll_001)
         SPHERE 100 (Fin 0.25) (Some Ornaments.spherePalette) 0 0%nat).

(** ** Geometry *)

(** The square of the distance to the origin, and to the y axis. *)
Definition norm2 (p : vec3) : number :=
  vx p * vx p + vy p * vy p + vz p * vz p.

Definition radial2 (p : vec3) : number :=
  vx p * vx p + vz p * vz p.

(** Sine and cosine are finite and on the unit circle. *)
Definition circular (E : Engine) : Prop :=
  forall q, exists s c,
    Math_sin (Fin q) = Fin s /\ Math_cos (Fin q) = Fin c /\
    s * s + c * c == 1.

(** The roots of a number of [[0, 1)] are in [[0, 1)]. *)
Definition unit_roots (E : Engine) : Prop :=
  (forall q, 0 <= q < 1 ->
             exists c, Math_cbrt (Fin q) = Fin c /\ 0 <= c < 1) /\
  (forall q, 0 <= q < 1 ->
             exists c, Math_sqrt (Fin q) = Fin c /\ 0 <= c < 1).

(** The arc cosine is finite on [[-1, 1]]. *)
Definition finite_acos (E : Engine) : Prop :=
  forall q, -1 <= q <= 1 -> isFinite (Math_acos (Fin q)) = true.

(** ** Ranges *)

(** A finite number of [[lo, hi)]. *)
Definition in_range (lo hi : Q) (x : number) : Prop :=
  match x with
  | Fin q => lo <= q < hi
  | _ => False
  end.

(** The rational that [Math.PI] is. *)
Definition PI_Q : Q := 884279719003555 # 281474976710656.

(** The radius of the spiral of a group:
    [TREE_RADIUS_BASE * (type === 'BOX' ? 0.8 : 0.9)]. *)
Definition spiral_radius (type : OrnamentType) : Q :=
  5.5 * match type with BOX => 0.8 | _ => 0.9 end.

(** ** The transform of an instance *)

(** The sine is finite, between -1 and 1. *)
Definition bounded_sin (E : Engine) : Prop :=
  forall q, between (-1) 1 (Math_sin (Fin q)).

(** The same point. *)
Definition same3 (p q : vec3) : Prop :=
  vx p =~ vx q /\ vy p =~ vy q /\ vz p =~ vz q.

(** The matrix computed for [item] at the blend factor [e] and the
    elapsed [time], and its position and scale. *)
Definition matrix_at `{Engine} (e time : number) (st : Ornaments.State)
    (i : nat) (item : OrnamentData) : THREE.Matrix4 :=
  THREE.matrix (Ornaments.tempObj (Ornaments.place e time st (i, item))).

Definition position_at `{Engine} (e time : number) (st : Ornaments.State)
    (i : nat) (item : OrnamentData) : vec3 :=
  THREE.m_position (matrix_at e time st i item).

Definition scale_at `{Engine} (e time : number) (st : Ornaments.State)
    (i : nat) (item : OrnamentData) : vec3 :=
  THREE.m_scale (matrix_at e time st i item).

(** The progress and the blend factor that a frame computes. *)
Definition next_progress (type : OrnamentType) (state : TreeMorphState)
    (delta : number) (st : Ornaments.State) : number :=
  Ornaments.progressRef st
  + (target state - Ornaments.progressRef st)
    * lit (ornament_rate type) * delta.

(** ** Arrays of points *)

(** The point stored at the index [i] of an array of coordinates:
    [(a[i * 3], a[i * 3 + 1], a[i * 3 + 2])]. *)
Definition at3 (a : list number) (i : nat) : option vec3 :=
  match nth_error a (i * 3), nth_error a (i * 3 + 1),
        nth_error a (i * 3 + 2) with
  | Some x, Some y, Some z => Some (x, y, z)
  | _, _, _ => None
  end.

(** The point that a [Float32Array] holds after the three coordinates of
    [p] were written to it. *)
Definition fround3 {F : Control.Float32} (p : vec3) : vec3 :=
  (Control.Math_fround (vx p), Control.Math_fround (vy p),
   Control.Math_fround (vz p)).

(** Every coordinate is finite, of a magnitude of at most [r]. *)
Definition in_box (r : Q) (p : vec3) : Prop :=
  between (- r) r (vx p) /\ between (- r) r (vy p) /\ between (- r) r (vz p).

(** ** Single precision *)

(** The halves of the integers of at most 24 bits: single precision has
    them all. *)
Definition half_integer (q : Q) : Prop :=
  exists z : Z, (Z.abs z <= 2 ^ 24)%Z /\ q == z # 2.

(** What the properties need of the conversion to single precision: it is
    finite on the numbers up to [2 ^ 23], it keeps the order, and it
    keeps the numbers that single precision has. *)
Definition single_rounding (F : Control.Float32) : Prop :=
  (forall q, - inject_Z (2 ^ 23) <= q <= inject_Z (2 ^ 23) ->
             isFinite (Control.Math_fround (Fin q)) = true) /\
  (forall a b a' b',
      a <= b ->
      Control.Math_fround (Fin a) = Fin a' ->
      Control.Math_fround (Fin b) = Fin b' -> a' <= b') /\
  (forall q r,
      half_integer q -> Control.Math_fround (Fin q) = Fin r -> r == q).

(** A conversion for closed examples: to the nearest multiple of
    1 / 1024. *)
Definition to_grid (q : Q) : Q := Qfloor (q * 1024 + (1 # 2)) # 1024.

Definition sample_float32 : Control.Float32 :=
  {| Control.Math_fround := fun x =>
       match x with
       | Fin q => Fin (to_grid q)
       | _ => x
       end |}.

(** ** The GPU *)

(** The sine and the cosine of the GPU are finite, between -1 and 1. *)
Definition bounded_gpu (G : GLSL.GPU) : Prop :=
  forall q,
    between (-1) 1 (GLSL.sin (Fin q)) /\ between (-1) 1 (GLSL.cos (Fin q)).

(** A GPU for closed examples: the sine and the cosine frozen at their
    values in 0, the power and the length returning their first
    argument. *)
Definition sample_gpu : GLSL.GPU :=
  {| GLSL.sin := fun _ => lit 0;
     GLSL.cos := fun _ => lit 1;
     GLSL.pow := fun x _ => x;
     GLSL.length2 := fun x _ => x |}.

(** ** The morph in time, and the star *)

(** The distance between two finite numbers is at most [d]. *)
Definition within (d : Q) (x y : number) : Prop :=
  match x, y with
  | Fin a, Fin b => - d <= b - a <= d
  | _, _ => False
  end.

(** The target as a rational. *)
Definition target_q (state : TreeMorphState) : Q :=
  match state with TREE_SHAPE => 1 | SCATTERED => 0 end.

(** Frames that all have the state [state] and the delta [d]. *)
Definition steady (state : TreeMorphState) (d : Q) (frames : list Frame)
  : Prop :=
  Forall (fun f => f_state f = state /\ f_delta f = d) frames.

(** The frames at 60 Hz that 10 / k seconds take. *)
Definition settle_frames (k : Q) : nat :=
  Z.to_nat (Qceiling (10 / k * 60)).

(** The radius of corner [i]. *)
Definition star_radius (i : nat) : Q :=
  if Nat.eqb (i mod 2) 0 then 0.9 else 0.45.

(** The call that draws corner [i]. *)
Definition star_op (i : nat) (x y : Q) : Experience.PathOp :=
  if Nat.eqb i 0
  then Experience.moveTo (Fin x) (Fin y)
  else Experience.lineTo (Fin x) (Fin y).

(* ====================================================================== *)
(** * Arithmetic of finite numbers *)
(* ====================================================================== *)

Lemma same_refl x : x =~ x.
Proof. destruct x; simpl; auto; reflexivity. Qed.

Lemma same_sym x y : x =~ y -> y =~ x.
Proof. destruct x, y; simpl; auto; intro; symmetry; assumption. Qed.

Lemma same_trans x y z : x =~ y -> y =~ z -> x =~ z.
Proof.
  destruct x, y, z; simpl; try tauto; try congruence.
  intros; etransitivity; eassumption.
Qed.

Lemma ltb_Fin a b : (Fin a <? Fin b) = true <-> a < b.
Proof.
  simpl. rewrite negb_true_iff. split; intro H.
  - apply Qnot_le_lt. intro L. apply Qle_bool_iff in L. congruence.
  - destruct (Qle_bool b a) eqn:L; auto.
    apply Qle_bool_iff in L. apply Qle_not_lt in L. contradiction.
Qed.

Lemma ltb_Fin_false a b : (Fin a <? Fin b) = false <-> b <= a.
Proof.
  simpl. rewrite negb_false_iff. apply Qle_bool_iff.
Qed.

(** The update [p + (t - p) * k * d] stays between [p] and [t] as long as
    [0 <= k * d <= 1]. *)
Lemma damp_up p k d :
  0 <= p <= 1 -> 0 <= k * d <= 1 ->
  p <= p + (1 - p) * k * d <= 1.
Proof. intros [? ?] [? ?]. split; nra. Qed.

Lemma damp_down p k d :
  0 <= p <= 1 -> 0 <= k * d <= 1 ->
  0 <= p + (0 - p) * k * d <= p.
Proof. intros [? ?] [? ?]. split; nra. Qed.

(* ====================================================================== *)
(** * The frame callbacks *)
(* ====================================================================== *)

Section Frames.
Context {E : Engine}.

(** What the loop over the items leaves alone. *)
Lemma forEach_keeps e time l st :
  Ornaments.data (fold_left (Ornaments.place e time) l st)
  = Ornaments.data st /\
  Ornaments.progressRef (fold_left (Ornaments.place e time) l st)
  = Ornaments.progressRef st.
Proof.
  revert st. induction l as [|[i item] l IH]; intro st; cbn [fold_left].
  - split; reflexivity.
  - destruct (IH (Ornaments.place e time st (i, item))) as [D P].
    split; [rewrite D | rewrite P]; reflexivity.
Qed.

Lemma ornament_progress type state time delta st :
  Ornaments.progressRef (Ornaments.useFrame type state time delta st) =
  match Ornaments.meshRef st with
  | None => Ornaments.progressRef st
  | Some _ =>
      Ornaments.progressRef st
      + (target state - Ornaments.progressRef st)
        * lit (ornament_rate type) * delta
  end.
Proof.
  unfold Ornaments.useFrame.
  destruct (Ornaments.meshRef st); [|reflexivity].
  cbn [Ornaments.progressRef].
  match goal with
  | |- context [fold_left (Ornaments.place ?e ?t) ?l ?s] =>
      destruct (forEach_keeps e t l s) as [_ ->]
  end.
  destruct state, type; reflexivity.
Qed.

Lemma ornament_data type state time delta st :
  Ornaments.data (Ornaments.useFrame type state time delta st) =
  Ornaments.data st.
Proof.
  unfold Ornaments.useFrame.
  destruct (Ornaments.meshRef st); [|reflexivity].
  cbn [Ornaments.data].
  match goal with
  | |- context [fold_left (Ornaments.place ?e ?t) ?l ?s] =>
      destruct (forEach_keeps e t l s) as [-> _]
  end.
  reflexivity.
Qed.

End Frames.

Lemma foliage_progress state delta st :
  Foliage.progressRef (Foliage.useFrame state delta st) =
  match Foliage.materialRef st with
  | None => Foliage.progressRef st
  | Some _ =>
      Foliage.progressRef st
      + (target state - Foliage.progressRef st) * lit foliage_rate * delta
  end.
Proof.
  unfold Foliage.useFrame.
  destruct (Foliage.materialRef st); [|reflexivity].
  destruct state; reflexivity.
Qed.

(** One update of a progress in [[0, 1]] by a frame whose [k * delta] is in
    [[0, 1]]: the new progress is in [[0, 1]], between the old one and the
    target. *)
Lemma damp_step state (k d : Q) p :
  0 <= k * d <= 1 -> between 0 1 p ->
  let p' := p + (target state - p) * lit k * Fin d in
  between 0 1 p' /\ toward p (target state) p'.
Proof.
  intros Hk Hp. destruct p as [| |q]; try contradiction.
  simpl in Hp.
  destruct state; simpl.
  - pose proof (damp_down q k d Hp Hk) as [? ?].
    split; [lra|]. right. simpl. lra.
  - pose proof (damp_up q k d Hp Hk) as [? ?].
    split; [lra|]. left. simpl. lra.
Qed.

Lemma stay_step state p :
  between 0 1 p -> between 0 1 p /\ toward p (target state) p.
Proof.
  intro Hp. split; [assumption|].
  destruct p as [| |q]; try contradiction. simpl in Hp.
  destruct state; [right | left]; simpl; lra.
Qed.

(* ====================================================================== *)
(** * C1: the morph progress stays in [0, 1] *)
(* ====================================================================== *)

Lemma short_frames_app k l f :
  0 < k -> short_frames k (l ++ [f]) ->
  short_frames k l /\ 0 <= k * f_delta f <= 1.
Proof.
  intros Hk H. apply Forall_app in H as [Hl Hf].
  inversion_clear Hf as [|? ? [H0 H1] _].
  split; [assumption|]. split; [nra|assumption].
Qed.

Lemma foliage_frame_bounded f st :
  0 <= foliage_rate * f_delta f <= 1 ->
  between 0 1 (Foliage.progressRef st) ->
  between 0 1 (Foliage.progressRef (foliage_frame st f)) /\
  toward (Foliage.progressRef st) (target (f_state f))
         (Foliage.progressRef (foliage_frame st f)).
Proof.
  intros Hk Hp. unfold foliage_frame. rewrite foliage_progress.
  destruct (Foliage.materialRef st).
  - apply damp_step; assumption.
  - apply stay_step; assumption.
Qed.

Lemma foliage_run_bounded frames : forall st,
  short_frames foliage_rate frames ->
  between 0 1 (Foliage.progressRef st) ->
  between 0 1 (Foliage.progressRef (foliage_run frames st)).
Proof.
  induction frames as [|f frames IH]; intros st Hf Hp; [assumption|].
  inversion_clear Hf as [|? ? [H0 H1] Hrest].
  apply IH; [assumption|].
  apply foliage_frame_bounded; [|assumption].
  unfold foliage_rate in *. split; lra.
Qed.

Lemma ornament_frame_bounded {E : Engine} type f st :
  0 <= ornament_rate type * f_delta f <= 1 ->
  between 0 1 (Ornaments.progressRef st) ->
  between 0 1 (Ornaments.progressRef (ornament_frame type st f)) /\
  toward (Ornaments.progressRef st) (target (f_state f))
         (Ornaments.progressRef (ornament_frame type st f)).
Proof.
  intros Hk Hp. unfold ornament_frame. rewrite ornament_progress.
  destruct (Ornaments.meshRef st).
  - apply damp_step; assumption.
  - apply stay_step; assumption.
Qed.

Lemma ornament_rate_pos type : 0 < ornament_rate type.
Proof. destruct type; reflexivity. Qed.

Lemma ornament_run_bounded {E : Engine} type frames : forall st,
  short_frames (ornament_rate type) frames ->
  between 0 1 (Ornaments.progressRef st) ->
  between 0 1 (Ornaments.progressRef (ornament_run type frames st)).
Proof.
  induction frames as [|f frames IH]; intros st Hf Hp; [assumption|].
  inversion_clear Hf as [|? ? [H0 H1] Hrest].
  apply IH; [assumption|].
  apply ornament_frame_bounded; [|assumption].
  pose proof (ornament_rate_pos type). split; [nra|assumption].
Qed.

(** C1, as the code has it.  Take any sequence of frames, then one more
    frame [f], all with [0 <= delta] and [k * delta <= 1] for the rate [k]
    of the group, the state of the UI changing at will from frame to
    frame.  From a progress in [[0, 1]], the progress after [f] is in
    [[0, 1]] and lies between the progress before [f] and the target of
    [f]: no overshoot.  This holds for the foliage ([k = 1.5]) and for an
    ornament group ([k = 1.2] for boxes, [1.8] otherwise). *)
Theorem morph_progress_bounded :
  forall (E : Engine) (type : OrnamentType) (frames : list Frame) (f : Frame),
    (forall st : Foliage.State,
        short_frames foliage_rate (frames ++ [f]) ->
        between 0 1 (Foliage.progressRef st) ->
        let before := foliage_run frames st in
        let after := foliage_frame before f in
        between 0 1 (Foliage.progressRef after) /\
        toward (Foliage.progressRef before) (target (f_state f))
               (Foliage.progressRef after))
    /\
    (forall st : Ornaments.State,
        short_frames (ornament_rate type) (frames ++ [f]) ->
        between 0 1 (Ornaments.progressRef st) ->
        let before := ornament_run type frames st in
        let after := ornament_frame type before f in
        between 0 1 (Ornaments.progressRef after) /\
        toward (Ornaments.progressRef before) (target (f_state f))
               (Ornaments.progressRef after)).
Proof.
  intros E type frames f. split; intros st Hf Hp before after.
  - apply short_frames_app in Hf as [Hl Hk]; [|reflexivity].
    apply foliage_frame_bounded; [assumption|].
    apply foliage_run_bounded; assumption.
  - apply short_frames_app in Hf as [Hl Hk]; [|apply ornament_rate_pos].
    apply ornament_frame_bounded; [assumption|].
    apply ornament_run_bounded; assumption.
Qed.

Lemma some_frames_short k :
  0 <= k -> k <= 2 -> short_frames k (some_frames ++ [one_more_frame]).
Proof.
  intros H0 H2. repeat constructor; simpl; try lra.
Defined.

Lemma morph_progress_bounded_witness :
  (between 0 1 (Foliage.progressRef
     (foliage_frame (foliage_run some_frames Foliage.mount) one_more_frame)))
  /\
  (between 0 1 (Ornaments.progressRef
     (ornament_frame (H := sample_engine scenario) SPHERE
        (ornament_run (H := sample_engine scenario) SPHERE
           some_frames three_spheres)
        one_more_frame))).
Proof.
  destruct (morph_progress_bounded (sample_engine scenario) SPHERE
              some_frames one_more_frame) as [HF HO].
  split.
  - apply (HF Foliage.mount).
    + apply some_frames_short; unfold foliage_rate; lra.
    + simpl. lra.
  - apply (HO three_spheres).
    + apply some_frames_short; simpl; lra.
    + simpl. lra.
Defined.

(** C1 as it is stated fails: no bound on [delta] is in the code.  After
    one frame of one second ([delta = 1 >= 0]) towards the tree, the
    progress of the foliage, 0 at first, is [1.5]. *)
Lemma morph_progress_overshoots :
  Foliage.progressRef
    (foliage_frame Foliage.mount
       {| f_state := TREE_SHAPE; f_time := 1; f_delta := 1 |})
  =~ lit 1.5
  /\ ~ between 0 1
       (Foliage.progressRef
          (foliage_frame Foliage.mount
             {| f_state := TREE_SHAPE; f_time := 1; f_delta := 1 |})).
Proof.
  split.
  - reflexivity.
  - intros [_ H]. vm_compute in H. apply H. reflexivity.
Qed.

(* ====================================================================== *)
(** * C2: the progress a group starts with *)
(* ====================================================================== *)

Lemma mount_progress {E : Engine} type count scaleBase palette n :
  Ornaments.progressRef
    (fst (Ornaments.mount type count scaleBase palette n)) = lit 0
  /\ Ornaments.meshRef
       (fst (Ornaments.mount type count scaleBase palette n))
     = Some (THREE.new_InstancedMesh count).
Proof.
  unfold Ornaments.mount, bind.
  destruct (Ornaments.buildData type count scaleBase palette n).
  split; reflexivity.
Qed.

(** C2, as the code has it.  Every group starts with the progress 0
    ([useRef(0)], and 0 for the uniform [uProgress]), whatever the state
    of the application, and the application starts in [TREE_SHAPE], whose
    target is 1.  So the scene starts with a transition: the first frame
    moves the progress from 0 to [k * delta]. *)
Theorem progress_starts_at_zero :
  forall (E : Engine) (type : OrnamentType) (count : nat)
         (scaleBase : number) (palette : option (list string)) (n : nat)
         (time delta : Q),
    Foliage.progressRef Foliage.mount = lit 0 /\
    Foliage.uProgress Foliage.FoliageMaterial = lit 0 /\
    Ornaments.progressRef
      (fst (Ornaments.mount type count scaleBase palette n)) = lit 0 /\
    App.treeState_initial = TREE_SHAPE /\
    target App.treeState_initial =~ lit 1 /\
    Foliage.progressRef
      (Foliage.useFrame App.treeState_initial (Fin delta) Foliage.mount)
    =~ Fin (foliage_rate * delta) /\
    Ornaments.progressRef
      (Ornaments.useFrame type App.treeState_initial (Fin time) (Fin delta)
         (fst (Ornaments.mount type count scaleBase palette n)))
    =~ Fin (ornament_rate type * delta).
Proof.
  intros E type count scaleBase palette n time delta.
  destruct (mount_progress type count scaleBase palette n) as [P M].
  repeat split; try reflexivity; try assumption.
  - simpl. unfold foliage_rate. lra.
  - rewrite ornament_progress, M, P. simpl. lra.
Qed.

(** C2 as it is stated fails: the progress of the foliage starts at 0,
    which is not the target of the initial state. *)
Lemma progress_start_differs_from_target :
  App.treeState_initial = TREE_SHAPE /\
  ~ (Foliage.progressRef Foliage.mount =~ target App.treeState_initial) /\
  ~ (Ornaments.progressRef three_spheres =~ target App.treeState_initial).
Proof.
  split; [reflexivity|].
  split; intro H; vm_compute in H; discriminate H.
Qed.

(* ====================================================================== *)
(** * C3: the generators on degenerate arguments *)
(* ====================================================================== *)

Lemma isFinite_Fin x : isFinite x = true -> exists q, x = Fin q.
Proof. destruct x; try discriminate. intros _. eexists; reflexivity. Qed.

Lemma cycle_unit l :
  l <> [] -> Forall (fun q => 0 <= q < 1) l ->
  unit_random (sample_engine l).
Proof.
  intros Hne Hall n. simpl. unfold cycle.
  assert (Hlen : (List.length l <> 0)%nat) by (destruct l; simpl; congruence).
  pose proof (Nat.mod_upper_bound n _ Hlen) as Hlt.
  rewrite Forall_forall in Hall. apply Hall. apply nth_In. exact Hlt.
Qed.

Lemma scenario_unit : unit_random (sample_engine scenario).
Proof.
  apply cycle_unit; [discriminate|].
  repeat constructor; simpl; lra.
Qed.

Lemma sample_finite_math l : finite_math (sample_engine l).
Proof. repeat split; reflexivity. Qed.

Section FiniteGenerators.
Context {E : Engine}.
Hypothesis Hmath : finite_math E.
Hypothesis Hrand : unit_random E.

(** Replace the calls of [Math] on finite arguments by their finite
    results. *)
Ltac finite_calls :=
  destruct Hmath as (Hsin & Hcos & Hacos & Hcbrt & Hsqrt);
  repeat match goal with
    | |- context [Math_acos (Fin ?q)] =>
        let a := fresh "a" in
        destruct (isFinite_Fin _ (Hacos q ltac:(
          pose proof (Hrand 0%nat); pose proof (Hrand 1%nat);
          repeat match goal with
                 | |- context [entropy ?n] =>
                     lazymatch goal with
                     | _ : 0 <= entropy n < 1 |- _ => fail
                     | _ => pose proof (Hrand n)
                     end
                 end; lra))) as [a ->]
    | |- context [Math_sqrt (Fin ?q)] =>
        let a := fresh "a" in
        destruct (isFinite_Fin _ (Hsqrt q ltac:(apply Hrand))) as [a ->]
    | |- context [Math_cbrt (Fin ?q)] =>
        let a := fresh "a" in
        destruct (isFinite_Fin _ (Hcbrt q)) as [a ->]
    | |- context [Math_sin (Fin ?q)] =>
        let a := fresh "a" in
        destruct (isFinite_Fin _ (Hsin q)) as [a ->]
    | |- context [Math_cos (Fin ?q)] =>
        let a := fresh "a" in
        destruct (isFinite_Fin _ (Hcos q)) as [a ->]
    end.

Lemma getRandomSpherePoint_finite radius n :
  finite3 (fst (MathUtils.getRandomSpherePoint (Fin radius) n)) = true.
Proof.
  unfold MathUtils.getRandomSpherePoint, bind, Math_random, ret, finite3,
    vx, vy, vz, lit, Math_PI.
  cbn [fst snd mul sub add].
  finite_calls. reflexivity.
Qed.

Lemma getTreePoint_finite height radiusBase yOffset n :
  finite3 (fst (MathUtils.getTreePoint
                  (Fin height) (Fin radiusBase) (Fin yOffset) n)) = true.
Proof.
  unfold MathUtils.getTreePoint, bind, Math_random, ret, finite3,
    vx, vy, vz, lit, Math_PI.
  cbn [fst snd mul sub add].
  finite_calls. reflexivity.
Qed.

Lemma getTreeSpiralPoint_finite t total height radiusBase yOffset :
  ~ total == 0 ->
  finite3 (MathUtils.getTreeSpiralPoint
             (Fin t) (Fin total) (Fin height) (Fin radiusBase) (Fin yOffset))
  = true.
Proof.
  intro Hnz.
  unfold MathUtils.getTreeSpiralPoint, finite3, vx, vy, vz, lit.
  cbn [fst snd div]. unfold is_zero.
  destruct (Qeq_bool total 0) eqn:Hz.
  - apply Qeq_bool_eq in Hz. contradiction.
  - cbn [fst snd mul sub add]. finite_calls. reflexivity.
Qed.

End FiniteGenerators.

Lemma getTreeSpiralPoint_zero_total {E : Engine}
    t total height radiusBase yOffset :
  total == 0 ->
  let y := vy (MathUtils.getTreeSpiralPoint
                 (Fin t) (Fin total) (Fin height) (Fin radiusBase)
                 (Fin yOffset)) in
  isFinite y = false /\ (t == 0 -> isNaN y = true).
Proof.
  intros Hz y. subst y.
  unfold MathUtils.getTreeSpiralPoint, vy, lit.
  cbn [fst snd div]. unfold is_zero.
  rewrite (Qeq_eq_bool _ _ Hz).
  destruct (Qeq_bool t 0) eqn:Ht.
  - split; reflexivity.
  - split.
    + simpl. destruct (is_zero height); reflexivity.
    + intro H0. apply Qeq_eq_bool in H0. congruence.
Qed.

Lemma substantial_nonzero total : substantial total -> ~ total == 0.
Proof.
  unfold substantial. intros H Hz. rewrite Hz in H. vm_compute in H.
  apply H. reflexivity.
Qed.




(* ====================================================================== *)
(** * C4: the rotation of a formed instance *)
(* ====================================================================== *)

Lemma add_zero_same x q : q == 0 -> x + Fin q =~ x.
Proof.
  intro Hq. destruct x as [| |a]; simpl; auto. rewrite Hq. ring.
Qed.

(** C4, as the code has it.  At every blend factor [e] and every time,
    the rotation of an instance about x is the base rotation of its
    record plus the spin [time * 0.2 * (1 - e)], which fades with the
    factor [1 - e]; the rotation about y is the base rotation plus
    [time * 0.1], a spin that does not fade; the rotation about z is the
    base rotation.  So when the blend factor is 1, the rotations about x
    and about z do not depend on the time, and the one about y still
    does. *)
Theorem formed_rotation :
  forall (E : Engine) (st : Ornaments.State) (i : nat) (item : OrnamentData)
         (e : number) (time : Q),
    vx (rotation_at e (Fin time) st i item)
    = vx (rotation item) + Fin time * lit 0.2 * (lit 1 - e) /\
    vy (rotation_at e (Fin time) st i item)
    = vy (rotation item) + Fin time * lit 0.1 /\
    vz (rotation_at e (Fin time) st i item) = vz (rotation item) /\
    (forall q, e = Fin q ->
       Fin time * lit 0.2 * (lit 1 - e) =~ Fin (time * 0.2 * (1 - q))) /\
    (e =~ lit 1 ->
     vx (rotation_at e (Fin time) st i item) =~ vx (rotation item)).
Proof.
  intros E st i item e time.
  split; [reflexivity|]. split; [reflexivity|]. split; [reflexivity|].
  split.
  - intros q ->. simpl. ring.
  - intro He. destruct e as [| |q]; try contradiction. simpl in He.
    unfold rotation_at. simpl. apply add_zero_same. rewrite He. ring.
Qed.

(** The blend factor at the progress 1 is such a factor. *)
Lemma formed_rotation_witness :
  vx (rotation_at (H := sample_engine scenario)
        (Ornaments.easeT (lit 1)) (Fin 10) three_spheres 0 still_item)
  =~ vx (rotation still_item).
Proof.
  destruct (formed_rotation (sample_engine scenario) three_spheres 0%nat
              still_item (Ornaments.easeT (lit 1)) 10)
    as (_ & _ & _ & _ & Hformed).
  apply Hformed. reflexivity.
Defined.

(** C4 as it is stated fails: at the blend factor 1 the rotation about y
    of a record is 0 at time 0 and 1 at time 10. *)
Lemma formed_instance_still_spins :
  vy (rotation_at (H := sample_engine scenario)
        (lit 1) (lit 0) three_spheres 0 still_item) =~ lit 0
  /\
  vy (rotation_at (H := sample_engine scenario)
        (lit 1) (lit 10) three_spheres 0 still_item) =~ lit 1
  /\
  ~ (vy (rotation_at (H := sample_engine scenario)
           (lit 1) (lit 0) three_spheres 0 still_item)
     =~ vy (rotation_at (H := sample_engine scenario)
              (lit 1) (lit 10) three_spheres 0 still_item)).
Proof.
  split; [reflexivity|]. split; [reflexivity|].
  intro H. vm_compute in H. discriminate H.
Qed.

(* ====================================================================== *)
(** * The dataset builder *)
(* ====================================================================== *)

Section Builder.
Context {E : Engine}.

(** The calls of [Math.random] of one record, number [n] the first: three
    for the scatter point, two for the jitter, then the color and the
    scale. *)
Lemma newItem_color_scale type count scaleBase palette i n :
  let c := Ornaments.pickColor palette (5 + n)%nat in
  let sc := Ornaments.pickScale type scaleBase (fst c) (snd c) in
  color (fst (Ornaments.newItem type count scaleBase palette i n)) = fst c /\
  scale (fst (Ornaments.newItem type count scaleBase palette i n))
  = snd (fst sc).
Proof.
  intros c sc. subst c sc.
  unfold Ornaments.newItem, MathUtils.getRandomSpherePoint, bind,
    Math_random, ret.
  cbn [plus].
  destruct (Ornaments.pickColor palette (S (S (S (S (S n)))))) as [c k].
  cbn [fst snd].
  destruct (Ornaments.pickScale type scaleBase c k) as [[sv sb] k'].
  split; reflexivity.
Qed.

(** Every record the loop adds is the record of one run of its body. *)
Lemma loop_items type count scaleBase palette n :
  forall i items m item,
    In item (fst (Ornaments.loop type count scaleBase palette n i items m)) ->
    In item items \/
    exists j k,
      (i <= j < i + n)%nat /\
      item = fst (Ornaments.newItem type count scaleBase palette j k).
Proof.
  induction n as [|n IH]; intros i items m item Hin.
  - left. exact Hin.
  - cbn [Ornaments.loop] in Hin. unfold bind in Hin.
    destruct (Ornaments.newItem type count scaleBase palette i m)
      as [it m'] eqn:Hit.
    apply IH in Hin as [Hin | (j & k & Hj & ->)].
    + apply in_app_or in Hin as [Hin | [<- | []]].
      * left. exact Hin.
      * right. exists i, m. rewrite Hit. split; [lia | reflexivity].
    + right. exists j, k. split; [lia | reflexivity].
Qed.

Lemma buildData_items type count scaleBase palette m item :
  In item (fst (Ornaments.buildData type count scaleBase palette m)) ->
  exists j k,
    (j < count)%nat /\
    item = fst (Ornaments.newItem type count scaleBase palette j k).
Proof.
  intro Hin. apply loop_items in Hin as [[] | (j & k & Hj & ->)].
  exists j, k. split; [lia | reflexivity].
Qed.

(** *** The color *)

Lemma pickColor_default palette k :
  has_colors palette = false ->
  Ornaments.pickColor palette k = (Some "#d4af37"%string, k).
Proof.
  destruct palette as [[|c p]|]; try discriminate; reflexivity.
Qed.

Lemma length_of_pos {A} (x : A) (p : list A) :
  (lit 0 <? length_of (x :: p)) = true.
Proof.
  unfold length_of, of_nat, lit. apply ltb_Fin.
  rewrite <- (Zlt_Qlt 0). cbn [List.length]. lia.
Qed.

Lemma pickColor_draw palette k :
  has_colors palette = true ->
  Ornaments.pickColor palette k
  = (get (colors palette)
         (Math_floor (Fin (entropy k) * length_of (colors palette))),
     S k).
Proof.
  destruct palette as [[|c p]|]; try discriminate. intros _.
  unfold Ornaments.pickColor. rewrite length_of_pos. reflexivity.
Qed.

(** An index drawn as [Math.floor(u * a.length)] with [u] in [[0, 1)] is
    an index of the array. *)
Lemma get_floor {A} (a : list A) (u : Q) :
  a <> [] -> 0 <= u < 1 ->
  exists c, get a (Math_floor (Fin u * length_of a)) = Some c /\ In c a.
Proof.
  intros Hne [H0 H1].
  unfold length_of, of_nat. cbn [mul Math_floor get].
  set (L := Z.of_nat (List.length a)).
  assert (HL : (0 < L)%Z) by (destruct a; [congruence | subst L; simpl; lia]).
  assert (HLq : 0 < inject_Z L) by (rewrite <- (Zlt_Qlt 0); exact HL).
  set (z := Qfloor (u * inject_Z L)).
  assert (Hz0 : (0 <= z)%Z).
  { change 0%Z with (Qfloor 0). apply Qfloor_resp_le.
    apply Qmult_le_0_compat; [exact H0 | apply Qlt_le_weak, HLq]. }
  assert (HzL : (z < L)%Z).
  { rewrite Zlt_Qlt. pose proof (Qfloor_le (u * inject_Z L)) as Hfl.
    fold z in Hfl. apply Qle_lt_trans with (1 := Hfl).
    rewrite <- (Qmult_1_l (inject_Z L)) at 2.
    apply Qmult_lt_compat_r; assumption. }
  rewrite Qfloor_Z, Qeq_bool_refl. cbn [andb].
  assert (Hq : Qle_bool 0 (inject_Z z) = true).
  { apply Qle_bool_iff. rewrite <- (Zle_Qle 0). exact Hz0. }
  rewrite Hq.
  destruct (nth_error a (Z.to_nat z)) as [c|] eqn:Hc.
  - exists c. split; [reflexivity|]. eapply nth_error_In; eassumption.
  - apply nth_error_None in Hc. subst L. lia.
Qed.

(** *** The scale of a sphere *)

Lemma differs_false c s : Ornaments.differs c s = false <-> c = Some s.
Proof.
  destruct c as [c|]; simpl.
  - rewrite negb_false_iff, String.eqb_eq. split; congruence.
  - split; discriminate.
Qed.

Lemma pickScale_sphere_base s c k :
  c = Some "#8a0000"%string ->
  snd (fst (Ornaments.pickScale SPHERE (Fin s) c k))
  = Fin (s * (0.8 + entropy k * 0.4)).
Proof.
  intros ->. reflexivity.
Qed.

Lemma pickScale_sphere_roll s c k :
  c <> Some "#8a0000"%string ->
  let r := entropy (k + 1) in
  let g := entropy (k + 2) in
  (r < 0.04 ->
   snd (fst (Ornaments.pickScale SPHERE (Fin s) c k))
   = Fin (s * (2.2 + g * 0.2))) /\
  (0.04 <= r < 0.20 ->
   snd (fst (Ornaments.pickScale SPHERE (Fin s) c k))
   = Fin (s * (1.4 + g * 0.4))) /\
  (0.20 <= r ->
   snd (fst (Ornaments.pickScale SPHERE (Fin s) c k))
   = Fin (s * (0.8 + entropy k * 0.4))).
Proof.
  intros Hc r g. subst r g.
  replace (k + 1)%nat with (S k) by lia.
  replace (k + 2)%nat with (S (S k)) by lia.
  unfold Ornaments.pickScale, bind, Math_random, ret.
  destruct (Ornaments.differs c "#8a0000") eqn:Hd;
    [|apply differs_false in Hd; contradiction].
  destruct (Fin (entropy (S k)) <? lit 0.04) eqn:H4;
    [apply ltb_Fin in H4 | apply ltb_Fin_false in H4];
    (destruct (Fin (entropy (S k)) <? lit 0.20) eqn:H20;
     [apply ltb_Fin in H20 | apply ltb_Fin_false in H20]);
    repeat split; intros; try reflexivity; lra.
Qed.

End Builder.

(* ====================================================================== *)
(** * C5: the stratified sizes of the spheres *)
(* ====================================================================== *)

Lemma pickColor_next {E : Engine} palette n :
  snd (Ornaments.pickColor palette (5 + n)%nat)
  = (n + 5 + (if has_colors palette then 1 else 0))%nat.
Proof.
  destruct (has_colors palette) eqn:Hp.
  - rewrite pickColor_draw by assumption. cbn [snd]. lia.
  - rewrite pickColor_default by assumption. cbn [snd]. lia.
Qed.

Lemma tier_intro s lo hi x m :
  lo <= m < hi -> x = Fin (s * m) -> tier s lo hi x.
Proof. intros Hm ->. exists m. split; [assumption | apply same_refl]. Qed.

(** C5.  A sphere record is built by one run of the body of the loop; let
    [n] be the number of calls of [Math.random] made before it, and [k]
    the number of calls made before its scale is chosen ([n + 5], plus one
    when a color was drawn from the palette).  Call [k] draws the base
    multiplier, and for a color other than ['#8a0000'] call [k + 1] is the
    size roll.  If the color is ['#8a0000'] the scale is [scaleBase] times
    a multiplier of [[0.8, 1.2)].  Otherwise a roll under 0.04 gives a
    multiplier of [[2.2, 2.4)], a roll of [[0.04, 0.20)] one of
    [[1.4, 1.8)], and a roll of 0.20 or more one of [[0.8, 1.2)]. *)
Theorem sphere_sizes :
  forall E : Engine,
    unit_random E ->
    forall (count : nat) (s : Q) (palette : option (list string)),
      (forall i n,
          let item :=
            fst (Ornaments.newItem SPHERE count (Fin s) palette i n) in
          let k := (n + 5 + (if has_colors palette then 1 else 0))%nat in
          let r := entropy (k + 1) in
          (color item = Some "#8a0000"%string ->
           tier s 0.8 1.2 (scale item)) /\
          (color item <> Some "#8a0000"%string ->
           (r < 0.04 -> tier s 2.2 2.4 (scale item)) /\
           (0.04 <= r < 0.20 -> tier s 1.4 1.8 (scale item)) /\
           (0.20 <= r -> tier s 0.8 1.2 (scale item))))
      /\
      (forall m item,
          In item
             (fst (Ornaments.buildData SPHERE count (Fin s) palette m)) ->
          exists i n,
            (i < count)%nat /\
            item = fst (Ornaments.newItem SPHERE count (Fin s) palette i n)).
Proof.
  intros E Hrand count s palette. split.
  - intros i n item k r.
    destruct (newItem_color_scale SPHERE count (Fin s) palette i n)
      as [Hcol Hsc].
    fold item in Hcol, Hsc. rewrite pickColor_next in Hsc. fold k in Hsc.
    rewrite Hcol, Hsc.
    set (c := fst (Ornaments.pickColor palette (5 + n)%nat)).
    pose proof (Hrand k) as Hk.
    pose proof (Hrand (k + 2)%nat) as Hg.
    split.
    + intro Hred. eapply tier_intro;
        [|apply pickScale_sphere_base; exact Hred]. lra.
    + intro Hred.
      destruct (pickScale_sphere_roll s c k Hred) as (H1 & H2 & H3).
      split; [|split]; intro Hr.
      * eapply tier_intro; [|apply H1; exact Hr]. lra.
      * eapply tier_intro; [|apply H2; exact Hr]. lra.
      * eapply tier_intro; [|apply H3; exact Hr]. lra.
  - intros m item. apply buildData_items.
Qed.

Lemma roll_001_unit : unit_random (sample_engine roll_001).
Proof.
  apply cycle_unit; [discriminate|].
  repeat constructor; simpl; lra.
Qed.

(** Its color is gold, its roll is 0.01, and its scale is in the tier of
    2.2 to 2.4. *)
Lemma sphere_sizes_witness :
  color record_001 = Some "#ffc125"%string /\
  tier 0.25 2.2 2.4 (scale record_001).
Proof.
  split; [reflexivity|].
  destruct (sphere_sizes (sample_engine roll_001) roll_001_unit
              100%nat 0.25 (Some Ornaments.spherePalette)) as [Hitem _].
  destruct (Hitem 0%nat 0%nat) as [_ Hroll].
  destruct Hroll as [Hbig _]; [discriminate|].
  apply Hbig. reflexivity.
Defined.

(* ====================================================================== *)
(** * C9: the color of a record *)
(* ====================================================================== *)

Lemma has_colors_false palette :
  has_colors palette = false <-> palette = None \/ palette = Some [].
Proof.
  destruct palette as [[|c p]|]; simpl; split; intro H;
    try reflexivity; try discriminate; auto;
    destruct H as [H|H]; discriminate.
Qed.

(** C9.  Every record of a group built without a palette, or with an empty
    one, has the color ['#d4af37']; every record of a group built with a
    palette that is not empty has a color of the palette (the index drawn
    is an index of the palette). *)
Theorem palette_lookup :
  forall E : Engine,
    unit_random E ->
    forall (type : OrnamentType) (count : nat) (scaleBase : number)
           (palette : option (list string)) (m : nat) (item : OrnamentData),
      In item (fst (Ornaments.buildData type count scaleBase palette m)) ->
      (palette = None \/ palette = Some [] ->
       color item = Some "#d4af37"%string) /\
      (forall p, palette = Some p -> p <> [] ->
                 exists c, color item = Some c /\ In c p).
Proof.
  intros E Hrand type count scaleBase palette m item Hin.
  apply buildData_items in Hin as (i & n & _ & ->).
  destruct (newItem_color_scale type count scaleBase palette i n)
    as [-> _].
  split.
  - intro Hp. apply has_colors_false in Hp.
    rewrite pickColor_default by assumption. reflexivity.
  - intros p -> Hne.
    rewrite pickColor_draw by (destruct p; [congruence | reflexivity]).
    cbn [fst colors]. apply get_floor; [assumption | apply Hrand].
Qed.

Lemma palette_lookup_witness :
  exists c, color first_sphere = Some c /\ In c Ornaments.spherePalette.
Proof.
  apply (palette_lookup (sample_engine scenario) scenario_unit
           SPHERE 3 (lit 0.25) (Some Ornaments.spherePalette) 0%nat
           first_sphere).
  - left. reflexivity.
  - reflexivity.
  - discriminate.
Defined.

(* ====================================================================== *)
(** * C8: the frames do not write to the dataset *)
(* ====================================================================== *)

Lemma ornament_run_data {E : Engine} type frames : forall st,
  Ornaments.data (ornament_run type frames st) = Ornaments.data st.
Proof.
  induction frames as [|f frames IH]; intro st; [reflexivity|].
  change (ornament_run type (f :: frames) st)
    with (ornament_run type frames (ornament_frame type st f)).
  rewrite IH. apply ornament_data.
Qed.

Lemma mount_data {E : Engine} type count scaleBase palette m :
  Ornaments.data (fst (Ornaments.mount type count scaleBase palette m))
  = fst (Ornaments.buildData type count scaleBase palette m).
Proof.
  unfold Ornaments.mount, bind.
  destruct (Ornaments.buildData type count scaleBase palette m).
  reflexivity.
Qed.

(** C8.  A frame of an ornament group leaves [data] as it was, for every
    state of the UI, time and delta, numbers that are not finite
    included; so after any number of frames the records of a mounted
    group, with all their fields, are the records the builder returned. *)
Theorem dataset_read_only :
  forall (E : Engine) (type : OrnamentType),
    (forall state (time delta : number) (st : Ornaments.State),
        Ornaments.data (Ornaments.useFrame type state time delta st)
        = Ornaments.data st)
    /\
    (forall (frames : list Frame) (st : Ornaments.State),
        Ornaments.data (ornament_run type frames st) = Ornaments.data st)
    /\
    (forall (frames : list Frame) count scaleBase palette m,
        Ornaments.data
          (ornament_run type frames
             (fst (Ornaments.mount type count scaleBase palette m)))
        = fst (Ornaments.buildData type count scaleBase palette m)).
Proof.
  intros E type. split; [|split].
  - intros. apply ornament_data.
  - intros. apply ornament_run_data.
  - intros. rewrite ornament_run_data. apply mount_data.
Qed.

(* ====================================================================== *)
(** * C6: the foliage converges to the tree *)
(* ====================================================================== *)

Lemma qpow_nonneg c n : 0 <= c -> 0 <= qpow c n.
Proof.
  intro Hc. induction n as [|n IH]; simpl; [lra|].
  apply Qmult_le_0_compat; assumption.
Qed.

(** Each frame multiplies the distance to 1 by [1 - 1.5 / 60 = 39 / 40]. *)
Lemma formed_frames_distance n : forall st p,
  Foliage.materialRef st <> None ->
  Foliage.progressRef st = Fin p ->
  exists q,
    Foliage.progressRef (Nat.iter n formed_frame st) = Fin q /\
    Foliage.materialRef (Nat.iter n formed_frame st) <> None /\
    1 - q == (1 - p) * qpow (39 # 40) n.
Proof.
  induction n as [|n IH]; intros st p Hm Hp.
  - exists p. repeat split; try assumption. simpl. ring.
  - destruct (IH st p Hm Hp) as (q & Hq & Hm' & Hd).
    change (Nat.iter (S n) formed_frame st)
      with (formed_frame (Nat.iter n formed_frame st)).
    set (st' := Nat.iter n formed_frame st) in *.
    unfold formed_frame, Foliage.useFrame.
    destruct (Foliage.materialRef st') as [u|]; [|congruence].
    cbn [Foliage.progressRef Foliage.materialRef]. rewrite Hq.
    eexists. split; [reflexivity|]. split; [discriminate|].
    cbn [qpow].
    setoid_replace ((1 - p) * ((39 # 40) * qpow (39 # 40) n))%Q
      with ((39 # 40) * ((1 - p) * qpow (39 # 40) n))%Q by ring.
    rewrite <- Hd. ring.
Qed.

Lemma qpow_400 : qpow (39 # 40) 400 < 1 # 10000.
Proof. vm_compute. reflexivity. Qed.

(** C6.  From any progress of [[0, 1]], 400 frames of 1/60 s with the
    tree as the target (10 / 1.5 seconds) leave the progress of the
    foliage above 0.9999. *)
Theorem foliage_converges :
  forall (st : Foliage.State) (p : Q),
    Foliage.materialRef st <> None ->
    Foliage.progressRef st = Fin p ->
    0 <= p <= 1 ->
    exists q,
      Foliage.progressRef (Nat.iter 400 formed_frame st) = Fin q /\
      0.9999 < q /\ q <= 1.
Proof.
  intros st p Hm Hp [H0 H1].
  destruct (formed_frames_distance 400 st p Hm Hp) as (q & Hq & _ & Hd).
  exists q. split; [exact Hq|].
  pose proof qpow_400 as Hsmall.
  pose proof (qpow_nonneg (39 # 40) 400 ltac:(lra)) as Hpos.
  set (x := qpow (39 # 40) 400) in *.
  split; nra.
Qed.

Lemma foliage_converges_witness :
  exists q,
    Foliage.progressRef (Nat.iter 400 formed_frame Foliage.mount) = Fin q /\
    0.9999 < q /\ q <= 1.
Proof.
  apply (foliage_converges Foliage.mount 0).
  - discriminate.
  - reflexivity.
  - lra.
Defined.

(* ====================================================================== *)
(** * C7: the spiral is deterministic *)
(* ====================================================================== *)

(** C7.  [getTreeSpiralPoint] makes no call of [Math.random] and reads no
    state: two calls with the same arguments, in engines that run the same
    [Math.cos] and [Math.sin] and hand out whatever random numbers, return
    the same three coordinates. *)
Theorem spiral_deterministic :
  forall E1 E2 : Engine,
    same_trig E1 E2 ->
    forall t totalPoints height radiusBase yOffset : number,
      let p1 := MathUtils.getTreeSpiralPoint (H := E1)
                  t totalPoints height radiusBase yOffset in
      let p2 := MathUtils.getTreeSpiralPoint (H := E2)
                  t totalPoints height radiusBase yOffset in
      vx p1 = vx p2 /\ vy p1 = vy p2 /\ vz p1 = vz p2.
Proof.
  intros E1 E2 [Hcos Hsin] t totalPoints height radiusBase yOffset p1 p2.
  subst p1 p2. unfold MathUtils.getTreeSpiralPoint, vx, vy, vz.
  cbn [fst snd]. rewrite Hcos, Hsin. repeat split.
Qed.

Lemma spiral_deterministic_witness :
  MathUtils.getTreeSpiralPoint (H := sample_engine scenario)
    (lit 7) (lit 250) MathUtils.TREE_HEIGHT (lit 4.95)
    MathUtils.yOffset_default
  = MathUtils.getTreeSpiralPoint (H := sample_engine roll_001)
      (lit 7) (lit 250) MathUtils.TREE_HEIGHT (lit 4.95)
      MathUtils.yOffset_default.
Proof.
  destruct (spiral_deterministic
              (sample_engine scenario) (sample_engine roll_001)
              (conj (fun _ => eq_refl) (fun _ => eq_refl))
              (lit 7) (lit 250) MathUtils.TREE_HEIGHT (lit 4.95)
              MathUtils.yOffset_default) as (Hx & Hy & Hz).
  apply injective_projections; [apply injective_projections|];
    assumption.
Defined.

(* ====================================================================== *)
(** * C10: the cubic ease *)
(* ====================================================================== *)

Lemma easeT_Fin t : Ornaments.easeT (Fin t) = Fin (ease t).
Proof.
  unfold Ornaments.easeT, ease, lit. cbn [ltb].
  destruct (Qle_bool 0.5 t); reflexivity.
Qed.

Lemma easeInOutCubic_easeT x : Foliage.easeInOutCubic x = Ornaments.easeT x.
Proof. reflexivity. Qed.

Lemma cube_monotone a b : 0 <= a -> a <= b -> a * a * a <= b * b * b.
Proof.
  intros Ha Hab.
  assert (H : 0 <= (b - a) * (b * b + a * b + a * a)).
  { apply Qmult_le_0_compat; [lra | nra]. }
  nra.
Qed.

Lemma ease_monotone a b : 0 <= a -> a <= b -> b <= 1 -> ease a <= ease b.
Proof.
  intros H0 Hab H1. unfold ease, Qdiv. change (/ 2) with (1 # 2).
  destruct (Qle_bool 0.5 a) eqn:Ha; destruct (Qle_bool 0.5 b) eqn:Hb.
  - apply Qle_bool_iff in Ha, Hb.
    pose proof (cube_monotone (-2 * b + 2) (-2 * a + 2)
                  ltac:(lra) ltac:(lra)).
    lra.
  - apply Qle_bool_iff in Ha.
    assert (~ 0.5 <= b) by (rewrite <- Qle_bool_iff; congruence). lra.
  - apply Qle_bool_iff in Hb.
    assert (Hlt : ~ 0.5 <= a) by (rewrite <- Qle_bool_iff; congruence).
    pose proof (cube_monotone a 0.5 H0 ltac:(lra)).
    pose proof (cube_monotone (-2 * b + 2) 1 ltac:(lra) ltac:(lra)).
    lra.
  - pose proof (cube_monotone a b H0 Hab). lra.
Qed.

(** C10.  The ease of the ornaments is 0 at 0 and 1 at 1, and it does not
    decrease on [[0, 1]]; so the position blended by [lerp] is the scatter
    position at the progress 0 and the tree position at the progress 1.
    The ease of the foliage shader is the same function, and its [mix]
    has the same two ends. *)
Theorem ease_ends_and_monotone :
  (Ornaments.easeT (lit 0) =~ lit 0 /\ Ornaments.easeT (lit 1) =~ lit 1)
  /\
  (forall a b : Q,
      0 <= a -> a <= b -> b <= 1 ->
      le (Ornaments.easeT (Fin a)) (Ornaments.easeT (Fin b)))
  /\
  (forall s t : Q,
      THREE.MathUtils_lerp (Fin s) (Fin t) (Ornaments.easeT (lit 0))
      =~ Fin s /\
      THREE.MathUtils_lerp (Fin s) (Fin t) (Ornaments.easeT (lit 1))
      =~ Fin t)
  /\
  (forall x : number, Foliage.easeInOutCubic x = Ornaments.easeT x)
  /\
  (forall s t : Q,
      Foliage.mix (Fin s) (Fin t) (Foliage.easeInOutCubic (lit 0)) =~ Fin s /\
      Foliage.mix (Fin s) (Fin t) (Foliage.easeInOutCubic (lit 1)) =~ Fin t).
Proof.
  split; [split; reflexivity|].
  split.
  { intros a b H0 Hab H1. rewrite !easeT_Fin. simpl.
    apply ease_monotone; assumption. }
  split.
  { intros s t. unfold lit. rewrite !easeT_Fin.
    replace (ease 0) with (4 * 0 * 0 * 0)%Q by reflexivity.
    replace (ease 1)
      with (1 - ((-2 * 1 + 2) * ((-2 * 1 + 2) * ((-2 * 1 + 2) * 1))) / 2)%Q
      by reflexivity.
    split; simpl; field. }
  split; [exact easeInOutCubic_easeT|].
  intros s t. rewrite !easeInOutCubic_easeT. unfold lit. rewrite !easeT_Fin.
  replace (ease 0) with (4 * 0 * 0 * 0)%Q by reflexivity.
  replace (ease 1)
    with (1 - ((-2 * 1 + 2) * ((-2 * 1 + 2) * ((-2 * 1 + 2) * 1))) / 2)%Q
    by reflexivity.
  split; simpl; field.
Qed.

Lemma ease_ends_and_monotone_witness :
  le (Ornaments.easeT (Fin 0.25)) (Ornaments.easeT (Fin 0.75)).
Proof.
  destruct ease_ends_and_monotone as (_ & Hmono & _).
  apply Hmono; lra.
Defined.

(* ====================================================================== *)
(** * The geometry of the generators *)
(* ====================================================================== *)

Lemma sample_circular l : circular (sample_engine l).
Proof. intro q. exists 0, 1. repeat split. Qed.

Lemma sample_unit_roots l : unit_roots (sample_engine l).
Proof. split; intros q Hq; exists q; (split; [reflexivity | exact Hq]). Qed.

Lemma sample_finite_acos l : finite_acos (sample_engine l).
Proof. intros q _. reflexivity. Qed.

(** The squares of a point of the unit circle are at most 1. *)
Lemma circle_squares s c : s * s + c * c == 1 -> s * s <= 1 /\ c * c <= 1.
Proof. intro H. split; nra. Qed.

Lemma getRandomSpherePoint_in_ball_core :
  forall E : Engine,
    circular E -> unit_roots E -> finite_acos E -> unit_random E ->
    forall (radius : Q) (n : nat),
    exists c,
      Math_cbrt (Fin (entropy (n + 2))) = Fin c /\
      norm2 (fst (MathUtils.getRandomSpherePoint (Fin radius) n))
      =~ Fin ((c * radius) * (c * radius)) /\
      between 0 (radius * radius)
        (norm2 (fst (MathUtils.getRandomSpherePoint (Fin radius) n))) /\
      snd (MathUtils.getRandomSpherePoint (Fin radius) n) = (n + 3)%nat.
Proof.
  intros E Hcirc [Hcbrt _] Hacos Hrand radius n.
  replace (n + 2)%nat with (S (S n)) by lia.
  replace (n + 3)%nat with (S (S (S n))) by lia.
  destruct (Hcbrt _ (Hrand (S (S n)))) as (c & Hc & Hc01).
  exists c. split; [exact Hc|].
  unfold MathUtils.getRandomSpherePoint, bind, Math_random, ret, norm2,
    vx, vy, vz, lit, Math_PI.
  cbn [fst snd mul sub add]. rewrite Hc.
  pose proof (Hrand (S n)) as Hv.
  assert (Harg : -1 <= 2 * entropy (S n) - 1 <= 1) by lra.
  destruct (isFinite_Fin _ (Hacos _ Harg)) as [phi ->].
  destruct (Hcirc phi) as (sp & cp & -> & -> & Hp).
  match goal with
  | |- context [Math_sin (Fin ?q)] =>
      destruct (Hcirc q) as (st & ct & -> & -> & Ht)
  end.
  cbn [fst snd mul sub add same between].
  assert (Hsum :
    (c * radius * sp * ct * (c * radius * sp * ct)
     + c * radius * sp * st * (c * radius * sp * st)
     + c * radius * cp * (c * radius * cp)
     == c * radius * (c * radius))%Q).
  { transitivity
      ((c * radius) * (c * radius)
       * (sp * sp * (st * st + ct * ct) + cp * cp))%Q; [ring|].
    rewrite Ht.
    transitivity ((c * radius) * (c * radius) * (sp * sp + cp * cp))%Q;
      [ring|].
    rewrite Hp. ring. }
  split; [exact Hsum|]. split; [|reflexivity].
  rewrite Hsum.
  assert (H0 : 0 <= radius * radius) by nra.
  assert (H1 : 0 <= c * c <= 1) by nra.
  split; nra.
Qed.

(** [getRandomSpherePoint] returns a point of the ball of the given
    radius: its distance to the origin is [cbrt(w) * |radius|] for the
    third random number [w], whatever the sign of the radius. *)
Theorem getRandomSpherePoint_in_ball :
  forall E : Engine,
    circular E -> unit_roots E -> finite_acos E -> unit_random E ->
    forall (radius : Q) (n : nat),
    exists c,
      Math_cbrt (Fin (entropy (n + 2))) = Fin c /\
      norm2 (fst (MathUtils.getRandomSpherePoint (Fin radius) n))
      =~ Fin ((c * radius) * (c * radius)) /\
      between 0 (radius * radius)
        (norm2 (fst (MathUtils.getRandomSpherePoint (Fin radius) n))) /\
      snd (MathUtils.getRandomSpherePoint (Fin radius) n) = (n + 3)%nat.
Proof. exact getRandomSpherePoint_in_ball_core. Qed.

Lemma getRandomSpherePoint_in_ball_witness :
  exists c,
    @Math_cbrt (sample_engine scenario)
      (Fin (@entropy (sample_engine scenario) (0 + 2))) = Fin c /\
    norm2 (fst (MathUtils.getRandomSpherePoint (H := sample_engine scenario)
                  (Fin (-18)) 0%nat))
    =~ Fin ((c * -18) * (c * -18)) /\
    between 0 (-18 * -18)
      (norm2 (fst (MathUtils.getRandomSpherePoint
                     (H := sample_engine scenario) (Fin (-18)) 0%nat))) /\
    snd (MathUtils.getRandomSpherePoint (H := sample_engine scenario)
           (Fin (-18)) 0%nat) = (0 + 3)%nat.
Proof.
  exact (getRandomSpherePoint_in_ball (sample_engine scenario)
           (sample_circular scenario) (sample_unit_roots scenario)
           (sample_finite_acos scenario) scenario_unit (-18) 0%nat).
Defined.

Lemma getTreePoint_in_cone_core :
  forall E : Engine,
    circular E -> unit_roots E -> unit_random E ->
    forall (height radiusBase yOffset : Q) (n : nat),
      let p := fst (MathUtils.getTreePoint
                      (Fin height) (Fin radiusBase) (Fin yOffset) n) in
      let h := entropy n in
      0 <= h < 1 /\
      vy p = Fin (h * height + yOffset) /\
      between 0 (((1 - h) * radiusBase) * ((1 - h) * radiusBase))
        (radial2 p) /\
      snd (MathUtils.getTreePoint
             (Fin height) (Fin radiusBase) (Fin yOffset) n) = (n + 3)%nat.
Proof.
  intros E Hcirc [_ Hsqrt] Hrand height radiusBase yOffset n p h.
  subst p h. split; [apply Hrand|].
  replace (n + 3)%nat with (S (S (S n))) by lia.
  unfold MathUtils.getTreePoint, bind, Math_random, ret, radial2,
    vx, vy, vz, lit, Math_PI.
  cbn [fst snd mul sub add].
  destruct (Hsqrt _ (Hrand (S (S n)))) as (c & -> & Hc01).
  match goal with
  | |- context [Math_sin (Fin ?q)] =>
      destruct (Hcirc q) as (st & ct & -> & -> & Ht)
  end.
  cbn [fst snd mul sub add between].
  split; [reflexivity|]. split; [|reflexivity].
  set (r := ((1 - entropy n) * radiusBase)%Q).
  assert (Hsum :
    (c * r * ct * (c * r * ct) + c * r * st * (c * r * st)
     == (c * c) * (r * r))%Q).
  { transitivity ((c * c) * (r * r) * (st * st + ct * ct))%Q; [ring|].
    rewrite Ht. ring. }
  rewrite Hsum.
  assert (H0 : 0 <= r * r) by nra.
  assert (H1 : 0 <= c * c <= 1) by nra.
  split; nra.
Qed.

(** [getTreePoint] returns a point of the cone: with [h] its first random
    number, the height above [yOffset] is [h * height], and the distance
    to the axis is at most [(1 - h) * |radiusBase|], the radius of the
    cone at that height. *)
Theorem getTreePoint_in_cone :
  forall E : Engine,
    circular E -> unit_roots E -> unit_random E ->
    forall (height radiusBase yOffset : Q) (n : nat),
      let p := fst (MathUtils.getTreePoint
                      (Fin height) (Fin radiusBase) (Fin yOffset) n) in
      let h := entropy n in
      0 <= h < 1 /\
      vy p = Fin (h * height + yOffset) /\
      between 0 (((1 - h) * radiusBase) * ((1 - h) * radiusBase))
        (radial2 p) /\
      snd (MathUtils.getTreePoint
             (Fin height) (Fin radiusBase) (Fin yOffset) n) = (n + 3)%nat.
Proof. exact getTreePoint_in_cone_core. Qed.

Lemma getTreePoint_in_cone_witness :
  vy (fst (MathUtils.getTreePoint (H := sample_engine scenario)
             (Fin 12) (Fin 5.5) (Fin (-5)) 0%nat))
  = Fin (@entropy (sample_engine scenario) 0 * 12 + -5).
Proof.
  exact (proj1 (proj2
    (getTreePoint_in_cone (sample_engine scenario)
       (sample_circular scenario) (sample_unit_roots scenario)
       scenario_unit 12 5.5 (-5) 0%nat))).
Defined.

Lemma getTreeSpiralPoint_on_cone_core :
  forall E : Engine,
    circular E ->
    forall t total height radiusBase yOffset : Q,
      ~ total == 0 ->
      let p := MathUtils.getTreeSpiralPoint
                 (Fin t) (Fin total) (Fin height) (Fin radiusBase)
                 (Fin yOffset) in
      let hRatio := (t / total)%Q in
      vy p = Fin (hRatio * height + yOffset) /\
      radial2 p
      =~ Fin (((1 - hRatio) * radiusBase) * ((1 - hRatio) * radiusBase)) /\
      (0 <= t < total -> 0 <= hRatio < 1).
Proof.
  intros E Hcirc t total height radiusBase yOffset Hnz p hRatio.
  subst p hRatio.
  unfold MathUtils.getTreeSpiralPoint, radial2, vx, vy, vz, lit.
  cbn [fst snd div]. unfold is_zero.
  destruct (Qeq_bool total 0) eqn:Hz;
    [apply Qeq_bool_eq in Hz; contradiction|].
  cbn [fst snd mul sub add].
  match goal with
  | |- context [Math_sin (Fin ?q)] =>
      destruct (Hcirc q) as (st & ct & -> & -> & Ht)
  end.
  cbn [fst snd mul sub add same].
  split; [reflexivity|]. split.
  - set (r := ((1 - t / total) * radiusBase)%Q).
    transitivity ((r * r) * (st * st + ct * ct))%Q; [ring|].
    rewrite Ht. ring.
  - intros [H0 H1].
    assert (Hpos : 0 < total) by lra.
    split.
    + apply Qle_shift_div_l; [assumption | lra].
    + apply Qlt_shift_div_r; [assumption | lra].
Qed.

(** [getTreeSpiralPoint] returns a point of the surface of the cone: for a
    total other than 0, at the height [t / total * height] above
    [yOffset] and at the distance [(1 - t / total) * |radiusBase|] from
    the axis; for [0 <= t < total] the height fraction is in [[0, 1)]. *)
Theorem getTreeSpiralPoint_on_cone :
  forall E : Engine,
    circular E ->
    forall t total height radiusBase yOffset : Q,
      ~ total == 0 ->
      let p := MathUtils.getTreeSpiralPoint
                 (Fin t) (Fin total) (Fin height) (Fin radiusBase)
                 (Fin yOffset) in
      let hRatio := (t / total)%Q in
      vy p = Fin (hRatio * height + yOffset) /\
      radial2 p
      =~ Fin (((1 - hRatio) * radiusBase) * ((1 - hRatio) * radiusBase)) /\
      (0 <= t < total -> 0 <= hRatio < 1).
Proof. exact getTreeSpiralPoint_on_cone_core. Qed.

Lemma getTreeSpiralPoint_on_cone_witness :
  vy (MathUtils.getTreeSpiralPoint (H := sample_engine scenario)
        (Fin 125) (Fin 250) (Fin 12) (Fin 4.95) (Fin (-5)))
  = Fin (125 / 250 * 12 + -5).
Proof.
  refine (proj1 (getTreeSpiralPoint_on_cone (sample_engine scenario)
                   (sample_circular scenario) 125 250 12 4.95 (-5) _)).
  discriminate.
Defined.

(* ====================================================================== *)
(** * The records of an ornament group *)
(* ====================================================================== *)

Section Records.
Context {E : Engine}.
Variable type : OrnamentType.
Variable count : nat.
Variable scaleBase : number.
Variable palette : option (list string).

(** The fields of the record that one run of the body of the loop builds,
    [n] calls of [Math.random] having been made before: [k] is the number
    of calls made before the rotation is drawn. *)
Lemma newItem_fields i n :
  let item := fst (Ornaments.newItem type count scaleBase palette i n) in
  let c := Ornaments.pickColor palette (5 + n)%nat in
  let sc := Ornaments.pickScale type scaleBase (fst c) (snd c) in
  let k := snd sc in
  let sp :=
    MathUtils.getTreeSpiralPoint (of_nat i) (of_nat count)
      MathUtils.TREE_HEIGHT
      (MathUtils.TREE_RADIUS_BASE
       * match type with BOX => lit 0.8 | _ => lit 0.9 end)
      MathUtils.yOffset_default in
  id item = of_nat i /\
  Types.type item = type /\
  scatter item
  = fst (MathUtils.getRandomSpherePoint MathUtils.SCATTER_RADIUS n) /\
  tree item
  = (vx sp + (Fin (entropy (3 + n)) - lit 0.5) * lit 0.5,
     vy sp,
     vz sp + (Fin (entropy (4 + n)) - lit 0.5) * lit 0.5) /\
  scaleVector item = fst (fst sc) /\
  rotation item
  = (Fin (entropy k) * Math_PI, Fin (entropy (1 + k)) * Math_PI, lit 0) /\
  speed item = lit 0.2 + Fin (entropy (2 + k)) * lit 0.5 /\
  offset item = Fin (entropy (3 + k)) * lit 100 /\
  snd (Ornaments.newItem type count scaleBase palette i n) = (4 + k)%nat.
Proof.
  intros item c sc k sp. subst item c sc k sp.
  unfold Ornaments.newItem, MathUtils.getRandomSpherePoint, bind,
    Math_random, ret.
  cbn [plus].
  destruct (Ornaments.pickColor palette (S (S (S (S (S n)))))) as [c k].
  cbn [fst snd].
  destruct (Ornaments.pickScale type scaleBase c k) as [[sv sb] k'].
  cbn [fst snd]. repeat split.
Qed.

(** The loop appends one record per index, in the order of the indices. *)
Lemma loop_nth n : forall i items m,
  List.length (fst (Ornaments.loop type count scaleBase palette n i items m))
  = (List.length items + n)%nat /\
  (forall j, (j < List.length items)%nat ->
     nth_error (fst (Ornaments.loop type count scaleBase palette n i items m))
               j
     = nth_error items j) /\
  (forall j, (j < n)%nat ->
     exists k,
       nth_error
         (fst (Ornaments.loop type count scaleBase palette n i items m))
         (List.length items + j)
       = Some (fst (Ornaments.newItem type count scaleBase palette
                      (i + j) k))).
Proof.
  induction n as [|n IH]; intros i items m.
  - cbn [Ornaments.loop ret fst]. repeat split; [lia | lia].
  - cbn [Ornaments.loop]. unfold bind.
    destruct (Ornaments.newItem type count scaleBase palette i m)
      as [it m'] eqn:Hit.
    destruct (IH (S i) (items ++ [it]) m') as (Hlen & Hold & Hnew).
    rewrite length_app in Hlen, Hold, Hnew. cbn [List.length] in *.
    split; [lia|]. split.
    + intros j Hj. rewrite Hold by lia. apply nth_error_app1. exact Hj.
    + intros [|j] Hj.
      * exists m. rewrite !Nat.add_0_r, Hold by lia.
        rewrite nth_error_app2 by lia. rewrite Nat.sub_diag, Hit.
        reflexivity.
      * destruct (Hnew j ltac:(lia)) as [k Hk]. exists k.
        replace (List.length items + S j)%nat
          with (List.length items + 1 + j)%nat by lia.
        replace (i + S j)%nat with (S i + j)%nat by lia. exact Hk.
Qed.

End Records.

Lemma buildData_layout_core :
  forall (E : Engine) (type : OrnamentType) (count : nat)
         (scaleBase : number) (palette : option (list string)) (m : nat),
    let data :=
      fst (Ornaments.buildData type count scaleBase palette m) in
    List.length data = count /\
    forall i, (i < count)%nat ->
      exists item,
        nth_error data i = Some item /\
        id item = of_nat i /\
        Types.type item = type /\
        vy (tree item)
        = Fin (inject_Z (Z.of_nat i) / inject_Z (Z.of_nat count) * 12 + -5) /\
        in_range (-5) 7 (vy (tree item)).
Proof.
  intros E type count scaleBase palette m data. subst data.
  unfold Ornaments.buildData.
  destruct (loop_nth type count scaleBase palette count 0 [] m)
    as (Hlen & _ & Hnew).
  split; [exact Hlen|]. intros i Hi.
  destruct (Hnew i Hi) as [k Hk]. cbn [List.length plus] in Hk.
  eexists. split; [exact Hk|].
  destruct (newItem_fields type count scaleBase palette i k)
    as (Hid & Hty & _ & Htree & _).
  split; [exact Hid|]. split; [exact Hty|].
  rewrite Htree. cbn [vy fst snd].
  assert (Hc : 0 < inject_Z (Z.of_nat count)).
  { rewrite <- (Zlt_Qlt 0). lia. }
  assert (Hi0 : 0 <= inject_Z (Z.of_nat i)).
  { rewrite <- (Zle_Qle 0). lia. }
  assert (Hic : inject_Z (Z.of_nat i) < inject_Z (Z.of_nat count)).
  { rewrite <- Zlt_Qlt. lia. }
  unfold MathUtils.getTreeSpiralPoint, of_nat, MathUtils.TREE_HEIGHT,
    MathUtils.yOffset_default, lit.
  cbn [vy fst snd div]. unfold is_zero.
  destruct (Qeq_bool (inject_Z (Z.of_nat count)) 0) eqn:Hz.
  { apply Qeq_bool_eq in Hz. rewrite Hz in Hc. discriminate Hc. }
  cbn [mul add]. split; [reflexivity|].
  cbn [in_range].
  set (a := inject_Z (Z.of_nat i)) in *.
  set (b := inject_Z (Z.of_nat count)) in *.
  assert (H0 : 0 <= a / b) by (apply Qle_shift_div_l; [assumption | lra]).
  assert (H1 : a / b < 1) by (apply Qlt_shift_div_r; [assumption | lra]).
  split; lra.
Qed.

(** [buildData] returns [count] records; the record at index [i] has the
    id [i] and the type of the group, and its tree position is at the
    height of point [i] of the spiral, [i / count * 12 - 5], between -5
    and 7: the jitter moves x and z only, by less than 0.25 each. *)
Theorem buildData_layout :
  forall (E : Engine) (type : OrnamentType) (count : nat)
         (scaleBase : number) (palette : option (list string)) (m : nat),
    let data :=
      fst (Ornaments.buildData type count scaleBase palette m) in
    List.length data = count /\
    forall i, (i < count)%nat ->
      exists item,
        nth_error data i = Some item /\
        id item = of_nat i /\
        Types.type item = type /\
        vy (tree item)
        = Fin (inject_Z (Z.of_nat i) / inject_Z (Z.of_nat count) * 12 + -5) /\
        in_range (-5) 7 (vy (tree item)).
Proof. exact buildData_layout_core. Qed.

Lemma buildData_layout_witness :
  exists item,
    nth_error (Ornaments.data three_spheres) 2 = Some item /\
    id item = of_nat 2 /\
    Types.type item = SPHERE /\
    vy (tree item)
    = Fin (inject_Z (Z.of_nat 2) / inject_Z (Z.of_nat 3) * 12 + -5) /\
    in_range (-5) 7 (vy (tree item)).
Proof.
  refine (proj2 (buildData_layout (sample_engine scenario) SPHERE 3
                   (lit 0.25) (Some Ornaments.spherePalette) 0%nat)
                2%nat _).
  repeat constructor.
Defined.

Lemma pickScale_box {E : Engine} s c k :
  Ornaments.pickScale BOX (Fin s) c k
  = (((Fin (0.8 + entropy k * 0.4),
       Fin (0.6 + entropy (1 + k) * 0.6),
       Fin (0.8 + entropy (2 + k) * 0.4)),
      Fin (s * (0.8 + entropy (3 + k) * 0.4))),
     (4 + k)%nat).
Proof. reflexivity. Qed.

Lemma pickScale_sphere {E : Engine} s c k :
  unit_random E ->
  fst (fst (Ornaments.pickScale SPHERE (Fin s) c k))
  = (lit 1, lit 1, lit 1) /\
  tier s 0.8 2.4 (snd (fst (Ornaments.pickScale SPHERE (Fin s) c k))).
Proof.
  intro Hrand.
  pose proof (Hrand k) as Hk. pose proof (Hrand (S (S k))) as Hg.
  unfold Ornaments.pickScale, bind, Math_random, ret.
  destruct (Ornaments.differs c "#8a0000").
  - destruct (Fin (entropy (S k)) <? lit 0.04);
      [|destruct (Fin (entropy (S k)) <? lit 0.20)];
      (split; [reflexivity|]); (eapply tier_intro; [|reflexivity]); lra.
  - split; [reflexivity|]. eapply tier_intro; [|reflexivity]. lra.
Qed.

(** The idle motion and the base rotation of every record of a group:
    the speed is in [[0.2, 0.7)], the offset in [[0, 100)], the rotations
    about x and y in [[0, PI)], and the rotation about z is 0. *)
Theorem record_motion_ranges :
  forall E : Engine,
    unit_random E ->
    forall (type : OrnamentType) (count : nat) (scaleBase : number)
           (palette : option (list string)) (m : nat) (item : OrnamentData),
      In item (fst (Ornaments.buildData type count scaleBase palette m)) ->
      in_range 0.2 0.7 (speed item) /\
      in_range 0 100 (offset item) /\
      in_range 0 PI_Q (vx (rotation item)) /\
      in_range 0 PI_Q (vy (rotation item)) /\
      vz (rotation item) = lit 0.
Proof.
  intros E Hrand type count scaleBase palette m item Hin.
  apply buildData_items in Hin as (i & n & _ & ->).
  destruct (newItem_fields type count scaleBase palette i n)
    as (_ & _ & _ & _ & _ & Hrot & Hsp & Hoff & _).
  rewrite Hrot, Hsp, Hoff.
  match goal with
  | |- context [entropy (2 + ?k)] =>
      pose proof (Hrand k); pose proof (Hrand (1 + k)%nat);
      pose proof (Hrand (2 + k)%nat); pose proof (Hrand (3 + k)%nat)
  end.
  unfold lit, Math_PI, vx, vy, vz. cbn [fst snd mul add in_range].
  fold PI_Q.
  assert (Hpi : 0 < PI_Q) by reflexivity.
  repeat split; try lra; try nra.
Qed.

Lemma record_motion_ranges_witness :
  in_range 0.2 0.7 (speed first_sphere) /\
  in_range 0 100 (offset first_sphere).
Proof.
  destruct (record_motion_ranges (sample_engine scenario) scenario_unit
              SPHERE 3 (lit 0.25) (Some Ornaments.spherePalette) 0%nat
              first_sphere) as (Hs & Ho & _).
  - left. reflexivity.
  - split; assumption.
Defined.

(** The shapes of a group.  A box has a scale vector of its own, the
    width and the depth in [[0.8, 1.2)] and the height in [[0.6, 1.2)],
    and a scale of [scaleBase] times a multiplier of [[0.8, 1.2)],
    whatever its color: the stratified sizes are for the spheres.  A
    sphere has the scale vector (1, 1, 1) and a scale of [scaleBase]
    times a multiplier of [[0.8, 2.4)]. *)
Theorem record_shapes :
  forall E : Engine,
    unit_random E ->
    forall (count : nat) (s : Q) (palette : option (list string)) (m : nat)
           (item : OrnamentData),
      (In item (fst (Ornaments.buildData BOX count (Fin s) palette m)) ->
       in_range 0.8 1.2 (vx (scaleVector item)) /\
       in_range 0.6 1.2 (vy (scaleVector item)) /\
       in_range 0.8 1.2 (vz (scaleVector item)) /\
       tier s 0.8 1.2 (scale item))
      /\
      (In item (fst (Ornaments.buildData SPHERE count (Fin s) palette m)) ->
       scaleVector item = (lit 1, lit 1, lit 1) /\
       tier s 0.8 2.4 (scale item)).
Proof.
  intros E Hrand count s palette m item. split; intro Hin.
  - apply buildData_items in Hin as (i & n & _ & ->).
    destruct (newItem_fields BOX count (Fin s) palette i n)
      as (_ & _ & _ & _ & Hsv & _).
    destruct (newItem_color_scale BOX count (Fin s) palette i n)
      as [_ Hsc].
    rewrite Hsv, Hsc, pickScale_box. cbn [fst snd vx vy vz in_range].
    match goal with
    | |- context [entropy (3 + ?k)] =>
        pose proof (Hrand k); pose proof (Hrand (1 + k)%nat);
        pose proof (Hrand (2 + k)%nat); pose proof (Hrand (3 + k)%nat)
    end.
    repeat split; try lra.
    eapply tier_intro; [|reflexivity]. lra.
  - apply buildData_items in Hin as (i & n & _ & ->).
    destruct (newItem_fields SPHERE count (Fin s) palette i n)
      as (_ & _ & _ & _ & Hsv & _).
    destruct (newItem_color_scale SPHERE count (Fin s) palette i n)
      as [_ Hsc].
    rewrite Hsv, Hsc. apply pickScale_sphere. exact Hrand.
Qed.

Lemma record_shapes_witness :
  scaleVector first_sphere = (lit 1, lit 1, lit 1) /\
  tier 0.25 0.8 2.4 (scale first_sphere).
Proof.
  apply (record_shapes (sample_engine scenario) scenario_unit
           3 0.25 (Some Ornaments.spherePalette) 0%nat first_sphere).
  left. reflexivity.
Defined.

(* ====================================================================== *)
(** * The weights of the palettes *)
(* ====================================================================== *)

Lemma floor_between (x : Q) (a : Z) :
  inject_Z a <= x -> x < inject_Z a + 1 -> Qfloor x = a.
Proof.
  intros Hlo Hhi. apply Z.le_antisymm.
  - apply Z.lt_succ_r. rewrite Zlt_Qlt.
    apply Qle_lt_trans with (1 := Qfloor_le x).
    unfold Z.succ. rewrite inject_Z_plus. exact Hhi.
  - rewrite <- (Qfloor_Z a) at 1. apply Qfloor_resp_le. exact Hlo.
Qed.

(** The color drawn from a palette of [len] colors with the random number
    [u] is the color at the index [a] when [a <= u * len < a + 1]. *)
Lemma pickColor_at {E : Engine} (p : list string) (k : nat) (a : nat) :
  p <> [] ->
  inject_Z (Z.of_nat a)
  <= entropy k * inject_Z (Z.of_nat (List.length p)) ->
  entropy k * inject_Z (Z.of_nat (List.length p))
  < inject_Z (Z.of_nat a) + 1 ->
  fst (Ornaments.pickColor (Some p) k) = nth_error p a.
Proof.
  intros Hne Hlo Hhi.
  rewrite pickColor_draw by (destruct p; [congruence | reflexivity]).
  cbn [fst colors]. unfold length_of, of_nat. cbn [mul Math_floor get].
  rewrite (floor_between _ _ Hlo Hhi), Qfloor_Z, Qeq_bool_refl.
  assert (Hq : Qle_bool 0 (inject_Z (Z.of_nat a)) = true).
  { apply Qle_bool_iff. rewrite <- (Zle_Qle 0). lia. }
  rewrite Hq, Nat2Z.id. reflexivity.
Qed.

Ltac color_at a :=
  rewrite (pickColor_at _ _ a);
  [ reflexivity
  | discriminate
  | unfold Ornaments.spherePalette, Ornaments.giftPalette;
    cbn [List.length]; unfold inject_Z;
    cbn [Z.of_nat Pos.of_succ_nat Pos.succ]; lra
  | unfold Ornaments.spherePalette, Ornaments.giftPalette;
    cbn [List.length]; unfold inject_Z;
    cbn [Z.of_nat Pos.of_succ_nat Pos.succ]; lra ].

(** The palettes are weighted by repetition.  With [u] the random number
    of the color of a record (call number [n + 5] when [n] calls were made
    before the record): a sphere is gold for [u < 0.6], red for
    [0.6 <= u < 0.8] and pearl from 0.8 on; a box is deep red for
    [u < 1/6], chocolate up to [2/6], silver up to [3/6], gold up to
    [5/6] and deep green from there on. *)
Theorem palette_weights :
  forall E : Engine,
    unit_random E ->
    forall (count : nat) (scaleBase : number) (i n : nat),
      let u := entropy (5 + n) in
      let sphere :=
        fst (Ornaments.newItem SPHERE count scaleBase
               (Some Ornaments.spherePalette) i n) in
      let box :=
        fst (Ornaments.newItem BOX count scaleBase
               (Some Ornaments.giftPalette) i n) in
      ((u < 0.6 -> color sphere = Some "#ffc125"%string) /\
       (0.6 <= u < 0.8 -> color sphere = Some "#8a0000"%string) /\
       (0.8 <= u -> color sphere = Some "#ffffff"%string))
      /\
      ((u < 1 # 6 -> color box = Some "#8a0000"%string) /\
       (1 # 6 <= u < 2 # 6 -> color box = Some "#8B4513"%string) /\
       (2 # 6 <= u < 3 # 6 -> color box = Some "#F5F5F5"%string) /\
       (3 # 6 <= u < 5 # 6 -> color box = Some "#D4AF37"%string) /\
       (5 # 6 <= u -> color box = Some "#064e3b"%string)).
Proof.
  intros E Hrand count scaleBase i n. cbv zeta.
  pose proof (Hrand (5 + n)%nat) as Hu.
  destruct (newItem_color_scale SPHERE count scaleBase
              (Some Ornaments.spherePalette) i n) as [-> _].
  destruct (newItem_color_scale BOX count scaleBase
              (Some Ornaments.giftPalette) i n) as [-> _].
  split; [split; [|split] | split; [|split; [|split; [|split]]]];
    intro Hr.
  - destruct (Qlt_le_dec (entropy (5 + n)) 0.2); [color_at 0%nat|].
    destruct (Qlt_le_dec (entropy (5 + n)) 0.4);
      [color_at 1%nat | color_at 2%nat].
  - color_at 3%nat.
  - color_at 4%nat.
  - color_at 0%nat.
  - color_at 1%nat.
  - color_at 2%nat.
  - destruct (Qlt_le_dec (entropy (5 + n)) (4 # 6));
      [color_at 3%nat | color_at 4%nat].
  - color_at 5%nat.
Qed.

Lemma palette_weights_witness :
  color record_001 = Some "#ffc125"%string.
Proof.
  refine (proj1 (proj1 (palette_weights (sample_engine roll_001)
                          roll_001_unit 100 (Fin 0.25) 0%nat 0%nat)) _).
  reflexivity.
Defined.

(* ====================================================================== *)
(** * The transform of an instance *)
(* ====================================================================== *)

Lemma sample_bounded_sin l : bounded_sin (sample_engine l).
Proof. intro q. simpl. lra. Qed.

(** The position of an instance is the blend of its two positions, plus a
    vertical float of at most [0.2 * (1 - e)]: at the blend factor 1 the
    instance is at its tree position, at the blend factor 0 it is within
    0.2 above or below its scatter position. *)
Theorem instance_position :
  forall E : Engine,
    bounded_sin E ->
    forall (st : Ornaments.State) (i : nat) (item : OrnamentData)
           (sx sy sz tx ty tz sp off e time : Q),
      scatter item = (Fin sx, Fin sy, Fin sz) ->
      tree item = (Fin tx, Fin ty, Fin tz) ->
      speed item = Fin sp ->
      offset item = Fin off ->
      0 <= e <= 1 ->
      exists f,
        - (0.2 * (1 - e)) <= f <= 0.2 * (1 - e) /\
        same3 (position_at (Fin e) (Fin time) st i item)
              (Fin ((1 - e) * sx + e * tx),
               Fin ((1 - e) * sy + e * ty + f),
               Fin ((1 - e) * sz + e * tz)) /\
        (e == 1 -> same3 (position_at (Fin e) (Fin time) st i item)
                         (tree item)).
Proof.
  intros E Hsin st i item sx sy sz tx ty tz sp off e time
         Hsc Htr Hsp Hoff He.
  unfold position_at, matrix_at, Ornaments.place, THREE.updateMatrix,
    THREE.MathUtils_lerp, same3.
  rewrite Hsc, Htr, Hsp, Hoff.
  cbn [THREE.matrix THREE.m_position Ornaments.tempObj THREE.position
       vx vy vz fst snd].
  unfold lit. cbn [mul add sub].
  pose proof (Hsin (time * sp + off)%Q) as Hs.
  destruct (Math_sin (Fin (time * sp + off))) as [| |s]; try contradiction.
  simpl in Hs. cbn [mul add sub same].
  exists (s * (0.2 * (1 - e)))%Q. split; [split; nra|].
  split; [repeat split; reflexivity|].
  intro H1. repeat split; rewrite H1; ring.
Qed.

Lemma instance_position_witness :
  exists f,
    - (0.2 * (1 - 1)) <= f <= 0.2 * (1 - 1) /\
    same3 (position_at (H := sample_engine scenario)
             (Fin 1) (Fin 10) three_spheres 0 still_item)
          (Fin ((1 - 1) * 1 + 1 * 0),
           Fin ((1 - 1) * 2 + 1 * -5 + f),
           Fin ((1 - 1) * 3 + 1 * 0)) /\
    (1 == 1 -> same3 (position_at (H := sample_engine scenario)
                        (Fin 1) (Fin 10) three_spheres 0 still_item)
                     (tree still_item)).
Proof.
  apply (instance_position (sample_engine scenario)
           (sample_bounded_sin scenario) three_spheres 0%nat still_item
           1 2 3 0 (-5) 0 0.2 0 1 10); try reflexivity.
  lra.
Defined.

(** The scale of an instance is the scale vector of its record times the
    scale of the record times the pulse [0.8 + 0.2 * sin(time + offset)],
    which is in [[0.6, 1]], at every blend factor. *)
Theorem instance_scale :
  forall E : Engine,
    bounded_sin E ->
    forall (st : Ornaments.State) (i : nat) (item : OrnamentData)
           (s vx_ vy_ vz_ off time : Q) (e : number),
      scale item = Fin s ->
      scaleVector item = (Fin vx_, Fin vy_, Fin vz_) ->
      offset item = Fin off ->
      exists w,
        Math_sin (Fin (time + off)) = Fin w /\
        0.6 <= 0.8 + 0.2 * w <= 1 /\
        scale_at e (Fin time) st i item
        = (Fin (vx_ * (s * (0.8 + 0.2 * w))),
           Fin (vy_ * (s * (0.8 + 0.2 * w))),
           Fin (vz_ * (s * (0.8 + 0.2 * w)))).
Proof.
  intros E Hsin st i item s vx_ vy_ vz_ off time e Hs Hsv Hoff.
  unfold scale_at, matrix_at, Ornaments.place, THREE.updateMatrix.
  rewrite Hs, Hsv, Hoff.
  cbn [THREE.matrix THREE.m_scale Ornaments.tempObj THREE.scale
       vx vy vz fst snd].
  unfold lit. cbn [mul add sub].
  pose proof (Hsin (time + off)%Q) as Hb.
  destruct (Math_sin (Fin (time + off))) as [| |w]; try contradiction.
  simpl in Hb. cbn [mul add sub].
  exists w. split; [reflexivity|]. split; [lra | reflexivity].
Qed.

Lemma instance_scale_witness :
  exists w,
    @Math_sin (sample_engine scenario) (Fin (10 + 0)) = Fin w /\
    0.6 <= 0.8 + 0.2 * w <= 1 /\
    scale_at (H := sample_engine scenario)
      (Fin 0) (Fin 10) three_spheres 0 still_item
    = (Fin (1 * (0.25 * (0.8 + 0.2 * w))),
       Fin (1 * (0.25 * (0.8 + 0.2 * w))),
       Fin (1 * (0.25 * (0.8 + 0.2 * w)))).
Proof.
  apply (instance_scale (sample_engine scenario)
           (sample_bounded_sin scenario) three_spheres 0%nat still_item
           0.25 1 1 1 0 10 (Fin 0)); reflexivity.
Defined.

(* ====================================================================== *)
(** * What a frame writes *)
(* ====================================================================== *)

Lemma set_length {A} (a : list A) i v :
  List.length (JS.set a i v) = List.length a.
Proof.
  revert i. induction a as [|x a IH]; intros [|i]; simpl; auto.
Qed.

Lemma set_nth_same {A} (a : list A) i v :
  (i < List.length a)%nat -> nth_error (JS.set a i v) i = Some v.
Proof.
  revert i. induction a as [|x a IH]; intros [|i] Hi; simpl in *;
    try lia; auto. apply IH. lia.
Qed.

Lemma set_nth_other {A} (a : list A) i j v :
  i <> j -> nth_error (JS.set a i v) j = nth_error a j.
Proof.
  revert i j. induction a as [|x a IH]; intros [|i] [|j] Hij; simpl;
    try congruence; auto.
Qed.

(** A write outside the array does nothing. *)
Lemma set_outside {A} (a : list A) i v :
  (List.length a <= i)%nat -> JS.set a i v = a.
Proof.
  revert i. induction a as [|x a IH]; intros [|i] Hi; simpl in *;
    try lia; auto. f_equal. apply IH. lia.
Qed.

Lemma indexed_in {A} (a : list A) i x :
  In (i, x) (Ornaments.indexed a) <-> nth_error a i = Some x.
Proof.
  unfold Ornaments.indexed.
  assert (G : forall k,
             In (i, x) (combine (seq k (List.length a)) a)
             <-> (k <= i)%nat /\ nth_error a (i - k) = Some x).
  { induction a as [|y a IH]; intro k; cbn [List.length seq combine].
    - split; [intros [] | intros [_ H]]. destruct (i - k)%nat; discriminate.
    - cbn [In]. rewrite IH. split.
      + intros [H | [Hk H]].
        * injection H as <- <-. rewrite Nat.sub_diag. split; [lia|reflexivity].
        * split; [lia|]. replace (i - k)%nat with (S (i - S k)) by lia.
          exact H.
      + intros [Hk H]. destruct (Nat.eq_dec k i) as [->|Hne].
        * left. rewrite Nat.sub_diag in H. injection H as ->. reflexivity.
        * right. split; [lia|].
          replace (i - k)%nat with (S (i - S k)) in H by lia. exact H. }
  rewrite G, Nat.sub_0_r. split; [intros [_ H]; exact H | intro H].
  split; [lia | exact H].
Qed.

Lemma indexed_NoDup {A} (a : list A) :
  NoDup (map fst (Ornaments.indexed a)).
Proof.
  unfold Ornaments.indexed.
  assert (G : forall k,
             map fst (combine (seq k (List.length a)) a)
             = seq k (List.length a)).
  { induction a as [|y a IH]; intro k; cbn [List.length seq combine map fst];
      [reflexivity | rewrite IH; reflexivity]. }
  rewrite G. apply seq_NoDup.
Qed.

Section ForEach.
Context {E : Engine}.

(** The matrix of an item does not depend on the state it is computed
    in, nor on the index it is stored at. *)
Lemma matrix_at_any e time st i st' i' item :
  matrix_at e time st i item = matrix_at e time st' i' item.
Proof. reflexivity. Qed.

Lemma place_mesh e time st i item mesh :
  Ornaments.meshRef st = Some mesh ->
  Ornaments.meshRef (Ornaments.place e time st (i, item))
  = Some (THREE.setMatrixAt mesh i (matrix_at e time st i item)).
Proof. intro H. unfold Ornaments.place. cbn. rewrite H. reflexivity. Qed.

(** The loop over the items: every index of the list that is an instance
    of the mesh receives the matrix of its item, the other instances keep
    theirs. *)
Lemma forEach_matrices e time st0 : forall l st mesh,
  Ornaments.meshRef st = Some mesh ->
  NoDup (map fst l) ->
  exists mesh',
    Ornaments.meshRef (fold_left (Ornaments.place e time) l st)
    = Some mesh' /\
    THREE.needsUpdate mesh' = THREE.needsUpdate mesh /\
    List.length (THREE.instanceMatrix mesh')
    = List.length (THREE.instanceMatrix mesh) /\
    (forall j, ~ In j (map fst l) ->
       nth_error (THREE.instanceMatrix mesh') j
       = nth_error (THREE.instanceMatrix mesh) j) /\
    (forall j item, In (j, item) l ->
       (j < List.length (THREE.instanceMatrix mesh))%nat ->
       nth_error (THREE.instanceMatrix mesh') j
       = Some (matrix_at e time st0 0 item)).
Proof.
  induction l as [|[i it] l IH]; intros st mesh Hm Hnd.
  - exists mesh. cbn [fold_left]. repeat split; auto. intros j item [].
  - cbn [fold_left]. cbn [map fst] in Hnd.
    inversion_clear Hnd as [|? ? Hni Hnd'].
    pose proof (place_mesh e time st i it mesh Hm) as Hm1.
    destruct (IH _ _ Hm1 Hnd') as (mesh' & Hm' & Hnu & Hlen & Hout & Hin).
    exists mesh'. split; [exact Hm'|]. split; [exact Hnu|].
    cbn [THREE.setMatrixAt THREE.instanceMatrix] in Hlen, Hout, Hin.
    rewrite set_length in Hlen, Hin. split; [exact Hlen|]. split.
    + intros j Hj. cbn [map fst In] in Hj.
      rewrite Hout by tauto. apply set_nth_other. tauto.
    + intros j item [Heq | Hl] Hj.
      * injection Heq as -> ->. rewrite Hout by exact Hni.
        rewrite set_nth_same by exact Hj. reflexivity.
      * apply Hin; assumption.
Qed.

End ForEach.

Lemma frame_writes_matrices_core :
  forall (E : Engine) (type : OrnamentType) (state : TreeMorphState)
         (time delta : number) (st : Ornaments.State)
         (mesh : THREE.InstancedMesh),
    Ornaments.meshRef st = Some mesh ->
    let p := next_progress type state delta st in
    let e := Ornaments.easeT p in
    let st' := Ornaments.useFrame type state time delta st in
    Ornaments.progressRef st' = p /\
    exists mesh',
      Ornaments.meshRef st' = Some mesh' /\
      THREE.needsUpdate mesh' = true /\
      List.length (THREE.instanceMatrix mesh')
      = List.length (THREE.instanceMatrix mesh) /\
      (forall i item,
          nth_error (Ornaments.data st) i = Some item ->
          (i < List.length (THREE.instanceMatrix mesh))%nat ->
          nth_error (THREE.instanceMatrix mesh') i
          = Some (matrix_at e time st i item)) /\
      (forall i,
          (List.length (Ornaments.data st) <= i)%nat ->
          nth_error (THREE.instanceMatrix mesh') i
          = nth_error (THREE.instanceMatrix mesh) i).
Proof.
  intros E type state time delta st mesh Hm p e st'. subst st'.
  split.
  { rewrite ornament_progress, Hm. reflexivity. }
  unfold Ornaments.useFrame. rewrite Hm.
  cbn [Ornaments.data Ornaments.meshRef].
  assert (Hp :
    match type with BOX => lit 1.2 | _ => lit 1.8 end
    = lit (ornament_rate type)) by (destruct type; reflexivity).
  assert (Ht :
    match state with TREE_SHAPE => lit 1.0 | SCATTERED => lit 0.0 end
    = target state) by (destruct state; reflexivity).
  rewrite Hp, Ht. fold (next_progress type state delta st). fold p. fold e.
  match goal with
  | |- context [fold_left _ _ ?s] =>
      destruct (forEach_matrices e time st
                  (Ornaments.indexed (Ornaments.data st)) s mesh
                  eq_refl (indexed_NoDup _))
        as (mesh' & Hm' & Hnu & Hlen & Hout & Hin)
  end.
  rewrite Hm'. cbn [option_map].
  eexists. split; [reflexivity|].
  cbn [THREE.needsUpdate THREE.instanceMatrix].
  split; [reflexivity|]. split; [exact Hlen|]. split.
  - intros i item Hi Hlt. apply indexed_in in Hi.
    rewrite (Hin i item Hi Hlt). reflexivity.
  - intros i Hi. apply Hout. intro Hc.
    apply in_map_iff in Hc as [[j item] [Hj Hc]]. cbn [fst] in Hj. subst j.
    apply indexed_in in Hc.
    assert (nth_error (Ornaments.data st) i <> None) by congruence.
    apply nth_error_Some in H. lia.
Qed.

(** A frame of a group whose mesh is mounted stores the new progress and,
    for every record whose index is an instance of the mesh, the matrix
    computed from that record at the blend factor of the new progress;
    the instances beyond the records keep their matrices, the number of
    instances does not change, and the upload of the matrices is asked
    for. *)
Theorem frame_writes_matrices :
  forall (E : Engine) (type : OrnamentType) (state : TreeMorphState)
         (time delta : number) (st : Ornaments.State)
         (mesh : THREE.InstancedMesh),
    Ornaments.meshRef st = Some mesh ->
    let p := next_progress type state delta st in
    let e := Ornaments.easeT p in
    let st' := Ornaments.useFrame type state time delta st in
    Ornaments.progressRef st' = p /\
    exists mesh',
      Ornaments.meshRef st' = Some mesh' /\
      THREE.needsUpdate mesh' = true /\
      List.length (THREE.instanceMatrix mesh')
      = List.length (THREE.instanceMatrix mesh) /\
      (forall i item,
          nth_error (Ornaments.data st) i = Some item ->
          (i < List.length (THREE.instanceMatrix mesh))%nat ->
          nth_error (THREE.instanceMatrix mesh') i
          = Some (matrix_at e time st i item)) /\
      (forall i,
          (List.length (Ornaments.data st) <= i)%nat ->
          nth_error (THREE.instanceMatrix mesh') i
          = nth_error (THREE.instanceMatrix mesh) i).
Proof. exact frame_writes_matrices_core. Qed.

Lemma frame_writes_matrices_witness :
  Ornaments.progressRef
    (Ornaments.useFrame (H := sample_engine scenario)
       SPHERE TREE_SHAPE (Fin 0) (Fin (1 # 60)) three_spheres)
  = next_progress SPHERE TREE_SHAPE (Fin (1 # 60)) three_spheres.
Proof.
  refine (proj1 (frame_writes_matrices (sample_engine scenario)
                   SPHERE TREE_SHAPE (Fin 0) (Fin (1 # 60)) three_spheres
                   (THREE.new_InstancedMesh 3) _)).
  reflexivity.
Defined.

(** Before the mesh of a group is mounted, and before the material of
    the foliage is, the frames are skipped: whatever the frames, the whole
    state, the progress included, stays as it is. *)
Theorem unmounted_frames_do_nothing :
  forall (E : Engine) (type : OrnamentType) (frames : list Frame),
    (forall st : Ornaments.State,
        Ornaments.meshRef st = None ->
        ornament_run type frames st = st)
    /\
    (forall st : Foliage.State,
        Foliage.materialRef st = None ->
        foliage_run frames st = st).
Proof.
  intros E type frames. split; intros st Hn.
  - induction frames as [|f frames IH]; [reflexivity|].
    change (ornament_run type (f :: frames) st)
      with (ornament_run type frames (ornament_frame type st f)).
    unfold ornament_frame, Ornaments.useFrame. rewrite Hn. exact IH.
  - induction frames as [|f frames IH]; [reflexivity|].
    change (foliage_run (f :: frames) st)
      with (foliage_run frames (foliage_frame st f)).
    unfold foliage_frame, Foliage.useFrame. rewrite Hn. exact IH.
Qed.

Lemma unmounted_frames_do_nothing_witness :
  foliage_run some_frames
    {| Foliage.materialRef := None; Foliage.progressRef := lit 0 |}
  = {| Foliage.materialRef := None; Foliage.progressRef := lit 0 |}.
Proof.
  apply (proj2 (unmounted_frames_do_nothing (sample_engine scenario)
                  SPHERE some_frames)).
  reflexivity.
Defined.

(* ====================================================================== *)
(** * The speed and the limit of the morph *)
(* ====================================================================== *)

Lemma damp_within state (k d : Q) p :
  0 <= k -> 0 <= d -> between 0 1 p ->
  within (k * d) p (p + (target state - p) * lit k * Fin d).
Proof.
  intros Hk Hd Hp. destruct p as [| |q]; try contradiction.
  simpl in Hp. assert (0 <= k * d) by nra.
  destruct state; simpl; split; nra.
Qed.

(** A frame moves a progress of [[0, 1]] by at most [k * delta], whatever
    the target and however it changed since the frame before: a change of
    the target makes no jump. *)
Theorem progress_step_bounded :
  forall (E : Engine) (type : OrnamentType) (f : Frame),
    0 <= f_delta f ->
    (forall st : Foliage.State,
        between 0 1 (Foliage.progressRef st) ->
        within (foliage_rate * f_delta f)
          (Foliage.progressRef st)
          (Foliage.progressRef (foliage_frame st f)))
    /\
    (forall st : Ornaments.State,
        between 0 1 (Ornaments.progressRef st) ->
        within (ornament_rate type * f_delta f)
          (Ornaments.progressRef st)
          (Ornaments.progressRef (ornament_frame type st f))).
Proof.
  intros E type f Hd.
  assert (Hstay : forall k p, 0 <= k -> between 0 1 p ->
                              within (k * f_delta f) p p).
  { intros k [| |q] Hk Hp; try contradiction. simpl.
    assert (0 <= k * f_delta f) by nra. split; lra. }
  split; intros st Hp.
  - unfold foliage_frame. rewrite foliage_progress.
    destruct (Foliage.materialRef st).
    + apply damp_within; [unfold foliage_rate; lra | assumption..].
    + apply Hstay; [unfold foliage_rate; lra | assumption].
  - pose proof (ornament_rate_pos type).
    unfold ornament_frame. rewrite ornament_progress.
    destruct (Ornaments.meshRef st).
    + apply damp_within; [lra | assumption..].
    + apply Hstay; [lra | assumption].
Qed.

Lemma progress_step_bounded_witness :
  within (foliage_rate * (1 # 2))
    (Foliage.progressRef Foliage.mount)
    (Foliage.progressRef (foliage_frame Foliage.mount one_more_frame)).
Proof.
  refine (proj1 (progress_step_bounded (sample_engine scenario) SPHERE
                   one_more_frame _) Foliage.mount _).
  - discriminate.
  - simpl. lra.
Defined.

Lemma damp_closed state (k d p : Q) :
  Fin p + (target state - Fin p) * lit k * Fin d
  = Fin (p + (match state with TREE_SHAPE => 1.0 | SCATTERED => 0.0 end - p)
             * k * d).
Proof. destruct state; reflexivity. Qed.

Lemma ornament_mesh_kept {E : Engine} type state time delta st :
  Ornaments.meshRef st <> None ->
  Ornaments.meshRef (Ornaments.useFrame type state time delta st) <> None.
Proof.
  intro Hm. destruct (Ornaments.meshRef st) as [mesh|] eqn:Hmesh;
    [|congruence].
  unfold Ornaments.useFrame. rewrite Hmesh.
  cbn [Ornaments.meshRef Ornaments.data].
  match goal with
  | |- context [fold_left (Ornaments.place ?e ?t) ?l ?s] =>
      destruct (forEach_matrices e t st l s mesh eq_refl (indexed_NoDup _))
        as (mesh' & -> & _)
  end.
  discriminate.
Qed.

Lemma foliage_run_closed state d frames : forall st p,
  steady state d frames ->
  Foliage.materialRef st <> None ->
  Foliage.progressRef st = Fin p ->
  exists q,
    Foliage.progressRef (foliage_run frames st) = Fin q /\
    q - target_q state
    == (p - target_q state)
       * qpow (1 - foliage_rate * d) (List.length frames).
Proof.
  induction frames as [|f frames IH]; intros st p Hs Hm Hp.
  - exists p. split; [exact Hp|]. simpl. ring.
  - inversion_clear Hs as [|? ? [Hst Hd] Hs'].
    change (foliage_run (f :: frames) st)
      with (foliage_run frames (foliage_frame st f)).
    assert (Hm' : Foliage.materialRef (foliage_frame st f) <> None).
    { unfold foliage_frame, Foliage.useFrame.
      destruct (Foliage.materialRef st); [discriminate | congruence]. }
    assert (Hp' : Foliage.progressRef (foliage_frame st f)
                  = Fin (p + (match state with
                                | TREE_SHAPE => 1.0 | SCATTERED => 0.0
                              end - p) * foliage_rate * d)).
    { unfold foliage_frame. rewrite foliage_progress, Hst, Hd, Hp.
      destruct (Foliage.materialRef st); [|congruence].
      apply damp_closed. }
    destruct (IH _ _ Hs' Hm' Hp') as (q & Hq & Hc).
    exists q. split; [exact Hq|]. rewrite Hc. cbn [List.length qpow].
    destruct state; unfold target_q; ring.
Qed.

Lemma ornament_run_closed {E : Engine} type state d frames : forall st p,
  steady state d frames ->
  Ornaments.meshRef st <> None ->
  Ornaments.progressRef st = Fin p ->
  exists q,
    Ornaments.progressRef (ornament_run type frames st) = Fin q /\
    q - target_q state
    == (p - target_q state)
       * qpow (1 - ornament_rate type * d) (List.length frames).
Proof.
  induction frames as [|f frames IH]; intros st p Hs Hm Hp.
  - exists p. split; [exact Hp|]. simpl. ring.
  - inversion_clear Hs as [|? ? [Hst Hd] Hs'].
    change (ornament_run type (f :: frames) st)
      with (ornament_run type frames (ornament_frame type st f)).
    assert (Hm' : Ornaments.meshRef (ornament_frame type st f) <> None)
      by (apply ornament_mesh_kept; exact Hm).
    assert (Hp' : Ornaments.progressRef (ornament_frame type st f)
                  = Fin (p + (match state with
                                | TREE_SHAPE => 1.0 | SCATTERED => 0.0
                              end - p) * ornament_rate type * d)).
    { unfold ornament_frame. rewrite ornament_progress, Hst, Hd, Hp.
      destruct (Ornaments.meshRef st); [|congruence].
      apply damp_closed. }
    destruct (IH _ _ Hs' Hm' Hp') as (q & Hq & Hc).
    exists q. split; [exact Hq|]. rewrite Hc. cbn [List.length qpow].
    destruct state; unfold target_q; ring.
Qed.

(** The morph is an exponential approach.  Under frames of one state and
    one delta [d], the distance of the progress to the target is
    multiplied by [1 - k * d] at every frame: after [n] frames it is the
    distance at the start times [(1 - k * d) ^ n], for the foliage as for
    an ornament group, for every [d] and from every finite progress. *)
Theorem morph_closed_form :
  forall (E : Engine) (type : OrnamentType) (state : TreeMorphState)
         (d : Q) (frames : list Frame),
    steady state d frames ->
    (forall (st : Foliage.State) (p : Q),
        Foliage.materialRef st <> None ->
        Foliage.progressRef st = Fin p ->
        exists q,
          Foliage.progressRef (foliage_run frames st) = Fin q /\
          q - target_q state
          == (p - target_q state)
             * qpow (1 - foliage_rate * d) (List.length frames))
    /\
    (forall (st : Ornaments.State) (p : Q),
        Ornaments.meshRef st <> None ->
        Ornaments.progressRef st = Fin p ->
        exists q,
          Ornaments.progressRef (ornament_run type frames st) = Fin q /\
          q - target_q state
          == (p - target_q state)
             * qpow (1 - ornament_rate type * d) (List.length frames)).
Proof.
  intros E type state d frames Hs. split; intros st p Hm Hp.
  - apply foliage_run_closed; assumption.
  - apply ornament_run_closed; assumption.
Qed.

Lemma some_frames_steady :
  steady TREE_SHAPE (1 # 60)
    (repeat {| f_state := TREE_SHAPE; f_time := 0; f_delta := 1 # 60 |} 2).
Proof. repeat constructor. Qed.

Lemma morph_closed_form_witness :
  exists q,
    Foliage.progressRef
      (foliage_run
         (repeat {| f_state := TREE_SHAPE; f_time := 0; f_delta := 1 # 60 |}
                 2)
         Foliage.mount) = Fin q /\
    q - target_q TREE_SHAPE
    == (0 - target_q TREE_SHAPE) * qpow (1 - foliage_rate * (1 # 60)) 2.
Proof.
  refine (proj1 (morph_closed_form (sample_engine scenario) SPHERE
                   TREE_SHAPE (1 # 60) _ some_frames_steady)
                Foliage.mount 0 _ _).
  - discriminate.
  - reflexivity.
Defined.

Lemma qpow_le_one c n : 0 <= c <= 1 -> 0 <= qpow c n <= 1.
Proof.
  intros [H0 H1]. induction n as [|n [IH0 IH1]]; simpl; [lra|].
  split; nra.
Qed.

Lemma qpow_antitone c n m :
  0 <= c <= 1 -> (n <= m)%nat -> qpow c m <= qpow c n.
Proof.
  intros Hc Hnm. induction Hnm as [|m Hnm IH]; [lra|].
  cbn [qpow]. pose proof (qpow_le_one c m Hc). nra.
Qed.

Lemma settle_small type :
  qpow (1 - ornament_rate type * (1 # 60))
       (settle_frames (ornament_rate type)) < 1 # 10000
  /\ 0 <= 1 - ornament_rate type * (1 # 60) <= 1.
Proof.
  destruct type; split; try (vm_compute; reflexivity);
    unfold ornament_rate; lra.
Qed.

Lemma settle_small_foliage :
  qpow (1 - foliage_rate * (1 # 60)) (settle_frames foliage_rate)
  < 1 # 10000
  /\ 0 <= 1 - foliage_rate * (1 # 60) <= 1.
Proof. split; [vm_compute; reflexivity | unfold foliage_rate; lra]. Qed.

Lemma settled (p t c : Q) (n N : nat) (q : Q) :
  0 <= p <= 1 -> (t == 0 \/ t == 1) -> 0 <= c <= 1 ->
  qpow c N < 1 # 10000 -> (N <= n)%nat ->
  q - t == (p - t) * qpow c n ->
  - (1 # 10000) <= q - t <= 1 # 10000.
Proof.
  intros Hp Ht Hc Hs Hn Hq.
  pose proof (qpow_antitone c N n Hc Hn) as Hle.
  pose proof (qpow_le_one c n Hc) as [H0 _].
  rewrite Hq. set (x := qpow c n) in *. set (y := qpow c N) in *.
  destruct Ht as [Ht | Ht]; rewrite Ht; split; nra.
Qed.

(** Held for 10 / k seconds of frames at 60 Hz or longer (400 frames
    for the foliage, 334 for the spheres, 500 for the boxes), either
    state brings a progress of [[0, 1]] within 0.0001 of its target: of 1
    for the tree, of 0 for the scattered state. *)
Theorem morph_settles :
  forall (E : Engine) (type : OrnamentType) (state : TreeMorphState)
         (frames : list Frame),
    steady state (1 # 60) frames ->
    (forall (st : Foliage.State) (p : Q),
        (settle_frames foliage_rate <= List.length frames)%nat ->
        Foliage.materialRef st <> None ->
        Foliage.progressRef st = Fin p ->
        0 <= p <= 1 ->
        within (1 # 10000) (Fin (target_q state))
          (Foliage.progressRef (foliage_run frames st)))
    /\
    (forall (st : Ornaments.State) (p : Q),
        (settle_frames (ornament_rate type) <= List.length frames)%nat ->
        Ornaments.meshRef st <> None ->
        Ornaments.progressRef st = Fin p ->
        0 <= p <= 1 ->
        within (1 # 10000) (Fin (target_q state))
          (Ornaments.progressRef (ornament_run type frames st))).
Proof.
  intros E type state frames Hs.
  assert (Ht : target_q state == 0 \/ target_q state == 1)
    by (destruct state; [left | right]; reflexivity).
  split; intros st p Hn Hm Hp Hp01.
  - destruct (foliage_run_closed state _ frames st p Hs Hm Hp)
      as (q & -> & Hq).
    destruct settle_small_foliage as [Hsmall Hc].
    cbn [within].
    exact (settled p (target_q state) _ _ _ q Hp01 Ht Hc Hsmall Hn Hq).
  - destruct (ornament_run_closed type state _ frames st p Hs Hm Hp)
      as (q & -> & Hq).
    destruct (settle_small type) as [Hsmall Hc].
    cbn [within].
    exact (settled p (target_q state) _ _ _ q Hp01 Ht Hc Hsmall Hn Hq).
Qed.

Lemma morph_settles_witness :
  within (1 # 10000) (Fin (target_q SCATTERED))
    (Foliage.progressRef
       (foliage_run
          (repeat {| f_state := SCATTERED; f_time := 0; f_delta := 1 # 60 |}
                  400)
          {| Foliage.materialRef := Some Foliage.FoliageMaterial;
             Foliage.progressRef := Fin 1 |})).
Proof.
  refine (proj1 (morph_settles (sample_engine scenario) SPHERE SCATTERED
                   _ _)
                {| Foliage.materialRef := Some Foliage.FoliageMaterial;
                   Foliage.progressRef := Fin 1 |} 1 _ _ _ _).
  - apply Forall_forall. intros f Hf. apply repeat_spec in Hf. subst f.
    split; reflexivity.
  - rewrite repeat_length. apply Nat.le_refl.
  - discriminate.
  - reflexivity.
  - lra.
Defined.

(* ====================================================================== *)
(** * The shape of the ease *)
(* ====================================================================== *)

Lemma ease_range t : 0 <= t <= 1 -> 0 <= ease t <= 1.
Proof.
  intros [H0 H1].
  pose proof (ease_monotone 0 t ltac:(lra) H0 H1) as Hlo.
  pose proof (ease_monotone t 1 H0 H1 ltac:(lra)) as Hhi.
  assert (E0 : ease 0 == 0) by reflexivity.
  assert (E1 : ease 1 == 1) by reflexivity.
  lra.
Qed.

Lemma ease_symmetric t : ease (1 - t) == 1 - ease t.
Proof.
  unfold ease, Qdiv. change (/ 2) with (1 # 2).
  destruct (Qle_bool 0.5 t) eqn:Ha; destruct (Qle_bool 0.5 (1 - t)) eqn:Hb.
  - apply Qle_bool_iff in Ha, Hb.
    assert (Ht : t == 1 # 2) by lra. rewrite Ht. reflexivity.
  - ring.
  - ring.
  - assert (~ 0.5 <= t) by (rewrite <- Qle_bool_iff; congruence).
    assert (~ 0.5 <= 1 - t) by (rewrite <- Qle_bool_iff; congruence).
    lra.
Qed.

(** The ease maps [[0, 1]] into [[0, 1]], it is 1/2 at 1/2, and it is
    symmetric about that point: the ease of [1 - t] is 1 minus the ease
    of [t].  So the morph to the scattered state is the morph to the tree
    played backwards. *)
Theorem ease_range_and_symmetry :
  forall t : Q,
    (0 <= t <= 1 -> between 0 1 (Ornaments.easeT (Fin t))) /\
    Ornaments.easeT (Fin (1 - t))
    =~ lit 1 - Ornaments.easeT (Fin t) /\
    Ornaments.easeT (lit 0.5) =~ lit 0.5.
Proof.
  intro t. rewrite !easeT_Fin. split; [|split].
  - intro Ht. simpl. apply ease_range. exact Ht.
  - simpl. apply ease_symmetric.
  - reflexivity.
Qed.

Lemma ease_range_and_symmetry_witness :
  between 0 1 (Ornaments.easeT (Fin 0.25)).
Proof.
  apply (proj1 (ease_range_and_symmetry 0.25)). lra.
Defined.

(* ====================================================================== *)
(** * Loops that fill arrays *)
(* ====================================================================== *)

(** An invariant of the body is an invariant of the loop. *)
Lemma for_from_inv {S : Type} (P : nat -> S -> nat -> Prop)
    (body : nat -> S -> Rand S) n : forall i s m,
  P i s m ->
  (forall j s m, (i <= j < i + n)%nat -> P j s m ->
                 P (Datatypes.S j) (fst (body j s m)) (snd (body j s m))) ->
  P (i + n)%nat (fst (Control.for_from n i body s m))
                (snd (Control.for_from n i body s m)).
Proof.
  induction n as [|n IH]; intros i s m H0 Hstep.
  - rewrite Nat.add_0_r. exact H0.
  - cbn [Control.for_from]. unfold bind.
    pose proof (Hstep i s m ltac:(lia) H0) as H1.
    destruct (body i s m) as [s1 m1]. cbn [fst snd] in H1.
    replace (i + Datatypes.S n)%nat with (Datatypes.S i + n)%nat by lia.
    apply IH; [exact H1|].
    intros j s' m' Hj. apply Hstep. lia.
Qed.

Lemma for_lt_inv {S : Type} (P : nat -> S -> nat -> Prop)
    (body : nat -> S -> Rand S) n s m :
  P 0%nat s m ->
  (forall j s m, (j < n)%nat -> P j s m ->
                 P (Datatypes.S j) (fst (body j s m)) (snd (body j s m))) ->
  P n (fst (Control.for_lt n body s m)) (snd (Control.for_lt n body s m)).
Proof.
  intros H0 Hstep. unfold Control.for_lt.
  apply (for_from_inv P body n 0 s m H0).
  intros j s' m' Hj. apply Hstep. lia.
Qed.

Lemma new_Float32Array_length n :
  List.length (Control.new_Float32Array n) = n.
Proof. apply repeat_length. Qed.

Section Stores.
Context {F : Control.Float32}.

Lemma store_length a i v :
  List.length (Control.store a i v) = List.length a.
Proof. apply set_length. Qed.

Lemma store_nth_same a i v :
  (i < List.length a)%nat ->
  nth_error (Control.store a i v) i = Some (Control.Math_fround v).
Proof. apply set_nth_same. Qed.

Lemma store_nth_other a i j v :
  i <> j -> nth_error (Control.store a i v) j = nth_error a j.
Proof. apply set_nth_other. Qed.

Lemma set3_length a i p :
  List.length (Control.set3 a i p) = List.length a.
Proof. unfold Control.set3. rewrite !store_length. reflexivity. Qed.

Lemma at3_set3_same a i p :
  (i * 3 + 2 < List.length a)%nat ->
  at3 (Control.set3 a i p) i = Some (fround3 p).
Proof.
  intro Hi. unfold at3, Control.set3.
  rewrite (store_nth_other _ (i * 3 + 2) (i * 3)) by lia.
  rewrite (store_nth_other _ (i * 3 + 1) (i * 3)) by lia.
  rewrite store_nth_same by lia.
  rewrite (store_nth_other _ (i * 3 + 2) (i * 3 + 1)) by lia.
  rewrite store_nth_same by (rewrite store_length; lia).
  rewrite store_nth_same by (rewrite !store_length; lia).
  reflexivity.
Qed.

Lemma at3_set3_other a i j p :
  i <> j -> at3 (Control.set3 a i p) j = at3 a j.
Proof.
  intro Hij. unfold at3, Control.set3.
  rewrite !store_nth_other by lia. reflexivity.
Qed.

End Stores.

(* ====================================================================== *)
(** * Single precision *)
(* ====================================================================== *)

Lemma half_integer_bound q :
  half_integer q -> - inject_Z (2 ^ 23) <= q <= inject_Z (2 ^ 23).
Proof.
  intros (z & Hz & Hq). rewrite Hq.
  change (2 ^ 24)%Z with 16777216%Z in Hz.
  change (2 ^ 23)%Z with 8388608%Z.
  unfold Qle, Qopp, inject_Z. cbn [Qnum Qden]. lia.
Qed.

(** A number between two numbers that single precision has is stored
    between them. *)
Lemma fround_between {F : Control.Float32} (lo hi q : Q) :
  single_rounding F ->
  half_integer lo -> half_integer hi -> lo <= q <= hi ->
  between lo hi (Control.Math_fround (Fin q)).
Proof.
  intros (Hfin & Hmono & Hexact) Hlo Hhi [H1 H2].
  pose proof (half_integer_bound _ Hlo) as Bl.
  pose proof (half_integer_bound _ Hhi) as Bh.
  assert (Bq : - inject_Z (2 ^ 23) <= q <= inject_Z (2 ^ 23)).
  { destruct Bl as [Bl _]. destruct Bh as [_ Bh].
    split; [apply Qle_trans with lo | apply Qle_trans with hi];
      assumption. }
  destruct (isFinite_Fin _ (Hfin q Bq)) as [r Hr].
  destruct (isFinite_Fin _ (Hfin lo Bl)) as [l Hl].
  destruct (isFinite_Fin _ (Hfin hi Bh)) as [h Hh].
  rewrite Hr. cbn [between].
  pose proof (Hexact lo l Hlo Hl) as El.
  pose proof (Hexact hi h Hhi Hh) as Eh.
  pose proof (Hmono lo q l r H1 Hl Hr) as Ml.
  pose proof (Hmono q hi r h H2 Hr Hh) as Mh.
  split; lra.
Qed.

(** [z / 2] is a half integer: for the bounds of the ranges. *)
Ltac half z :=
  exists z; split; [vm_compute; discriminate | vm_compute; reflexivity].

Lemma to_grid_le a b : a <= b -> to_grid a <= to_grid b.
Proof.
  intro Hab. unfold to_grid.
  assert (Hf : (Qfloor (a * 1024 + (1 # 2))
                <= Qfloor (b * 1024 + (1 # 2)))%Z)
    by (apply Qfloor_resp_le; lra).
  revert Hf. generalize (Qfloor (a * 1024 + (1 # 2))).
  generalize (Qfloor (b * 1024 + (1 # 2))). intros fb fa Hf.
  unfold Qle. cbn [Qnum Qden]. lia.
Qed.

Lemma to_grid_half q : half_integer q -> to_grid q == q.
Proof.
  intros (z & Hz & Hq). unfold to_grid.
  assert (He : inject_Z (512 * z) == q * 1024).
  { rewrite Hq. unfold Qeq, Qmult, inject_Z. cbn [Qnum Qden]. lia. }
  assert (Hf : Qfloor (q * 1024 + (1 # 2)) = (512 * z)%Z).
  { apply floor_between; rewrite He; lra. }
  rewrite Hf, Hq. unfold Qeq. cbn [Qnum Qden]. lia.
Qed.

Lemma sample_fround q r :
  @Control.Math_fround sample_float32 (Fin q) = Fin r -> r = to_grid q.
Proof. intro H. injection H as <-. reflexivity. Qed.

Lemma sample_single_rounding : single_rounding sample_float32.
Proof.
  split; [|split].
  - intros q _. reflexivity.
  - intros a b a' b' Hab Ha Hb.
    apply sample_fround in Ha, Hb. subst a' b'.
    apply to_grid_le. exact Hab.
  - intros q r Hq Hr. apply sample_fround in Hr. subst r.
    apply to_grid_half. exact Hq.
Qed.

(** A sum of squares that is finite has finite terms. *)
Lemma norm2_finite p lo hi :
  between lo hi (norm2 p) ->
  exists x y z,
    p = (Fin x, Fin y, Fin z) /\ lo <= x * x + y * y + z * z <= hi.
Proof.
  destruct p as [[[|[|]|x] [|[|]|y]] [|[|]|z]]; unfold norm2; simpl;
    try contradiction.
  intro Hb. exists x, y, z. split; [reflexivity | exact Hb].
Qed.

Lemma radial2_finite p lo hi :
  between lo hi (radial2 p) ->
  exists x z,
    vx p = Fin x /\ vz p = Fin z /\ lo <= x * x + z * z <= hi.
Proof.
  destruct p as [[[|[|]|x] y] [|[|]|z]]; unfold radial2; simpl;
    try contradiction.
  intro Hb. exists x, z. split; [reflexivity|]. split; [reflexivity|].
  exact Hb.
Qed.

Lemma same_between q x : x =~ Fin q -> between q q x.
Proof.
  destruct x as [| |a]; simpl; try contradiction. intro H. lra.
Qed.

(* ====================================================================== *)
(** * The arrays of the foliage *)
(* ====================================================================== *)

Lemma sphere_point_calls {E : Engine} radius n :
  snd (MathUtils.getRandomSpherePoint radius n) = (3 + n)%nat.
Proof. reflexivity. Qed.

Lemma tree_point_calls {E : Engine} height radiusBase yOffset n :
  snd (MathUtils.getTreePoint height radiusBase yOffset n) = (3 + n)%nat.
Proof. reflexivity. Qed.

Lemma foliage_buffers_core :
  forall (E : Engine) (F : Control.Float32) (count m : nat),
    let b := fst (Foliage.buffers count m) in
    List.length (Foliage.scatterPositions b) = (count * 3)%nat /\
    List.length (Foliage.treePositions b) = (count * 3)%nat /\
    List.length (Foliage.randoms b) = count /\
    snd (Foliage.buffers count m) = (m + 7 * count)%nat /\
    forall i, (i < count)%nat ->
      at3 (Foliage.scatterPositions b) i
      = Some (fround3 (fst (MathUtils.getRandomSpherePoint
                              MathUtils.SCATTER_RADIUS (m + 7 * i)%nat))) /\
      at3 (Foliage.treePositions b) i
      = Some (fround3 (fst (MathUtils.getTreePoint MathUtils.TREE_HEIGHT
                              MathUtils.TREE_RADIUS_BASE
                              MathUtils.yOffset_default
                              (m + 7 * i + 3)%nat))) /\
      nth_error (Foliage.randoms b) i
      = Some (Control.Math_fround (Fin (entropy (m + 7 * i + 6)%nat))).
Proof.
  intros E F count m b. subst b. unfold Foliage.buffers.
  set (P := fun (j : nat) (b : Foliage.Buffers) (k : nat) =>
    List.length (Foliage.scatterPositions b) = (count * 3)%nat /\
    List.length (Foliage.treePositions b) = (count * 3)%nat /\
    List.length (Foliage.randoms b) = count /\
    k = (m + 7 * j)%nat /\
    forall i, (i < j)%nat ->
      at3 (Foliage.scatterPositions b) i
      = Some (fround3 (fst (MathUtils.getRandomSpherePoint
                              MathUtils.SCATTER_RADIUS (m + 7 * i)%nat))) /\
      at3 (Foliage.treePositions b) i
      = Some (fround3 (fst (MathUtils.getTreePoint MathUtils.TREE_HEIGHT
                              MathUtils.TREE_RADIUS_BASE
                              MathUtils.yOffset_default
                              (m + 7 * i + 3)%nat))) /\
      nth_error (Foliage.randoms b) i
      = Some (Control.Math_fround (Fin (entropy (m + 7 * i + 6)%nat)))).
  apply (for_lt_inv P).
  - unfold P. cbn [Foliage.scatterPositions Foliage.treePositions
                   Foliage.randoms].
    rewrite !new_Float32Array_length.
    repeat split; try lia.
  - intros j b k Hj (Hls & Hlt & Hlr & -> & Hold). unfold P.
    unfold Foliage.fill, bind, ret.
    pose proof (sphere_point_calls MathUtils.SCATTER_RADIUS (m + 7 * j)%nat)
      as Hs.
    destruct (MathUtils.getRandomSpherePoint MathUtils.SCATTER_RADIUS
                (m + 7 * j)%nat) as [s m1] eqn:Hsp.
    cbn [snd] in Hs. subst m1.
    pose proof (tree_point_calls MathUtils.TREE_HEIGHT
                  MathUtils.TREE_RADIUS_BASE MathUtils.yOffset_default
                  (3 + (m + 7 * j))%nat) as Ht.
    destruct (MathUtils.getTreePoint MathUtils.TREE_HEIGHT
                MathUtils.TREE_RADIUS_BASE MathUtils.yOffset_default
                (3 + (m + 7 * j))%nat) as [t m2] eqn:Htp.
    cbn [snd] in Ht. subst m2.
    unfold Math_random.
    cbn [fst snd Foliage.scatterPositions Foliage.treePositions
         Foliage.randoms].
    rewrite !set3_length, store_length.
    split; [exact Hls|]. split; [exact Hlt|]. split; [exact Hlr|].
    split; [lia|].
    intros i Hi. destruct (Nat.eq_dec i j) as [->|Hne].
    + rewrite !at3_set3_same by lia. rewrite store_nth_same by lia.
      replace (m + 7 * j + 3)%nat with (3 + (m + 7 * j))%nat by lia.
      replace (m + 7 * j + 6)%nat with (3 + (3 + (m + 7 * j)))%nat by lia.
      rewrite Hsp, Htp. repeat split.
    + rewrite !at3_set3_other by congruence.
      rewrite store_nth_other by congruence.
      apply Hold. lia.
Qed.

(** The arrays of the foliage for [count] points, [m] calls of
    [Math.random] having been made before: the arrays of positions have
    [3 * count] numbers and the array of random numbers [count]; point
    [i] takes the calls [m + 7 i] to [m + 7 i + 6]; the arrays hold, in
    single precision, the coordinates of the point of the ball drawn with
    the first three, those of the point of the cone drawn with the next
    three, and the seventh number. *)
Theorem foliage_buffers :
  forall (E : Engine) (F : Control.Float32) (count m : nat),
    let b := fst (Foliage.buffers count m) in
    List.length (Foliage.scatterPositions b) = (count * 3)%nat /\
    List.length (Foliage.treePositions b) = (count * 3)%nat /\
    List.length (Foliage.randoms b) = count /\
    snd (Foliage.buffers count m) = (m + 7 * count)%nat /\
    forall i, (i < count)%nat ->
      at3 (Foliage.scatterPositions b) i
      = Some (fround3 (fst (MathUtils.getRandomSpherePoint
                              MathUtils.SCATTER_RADIUS (m + 7 * i)%nat))) /\
      at3 (Foliage.treePositions b) i
      = Some (fround3 (fst (MathUtils.getTreePoint MathUtils.TREE_HEIGHT
                              MathUtils.TREE_RADIUS_BASE
                              MathUtils.yOffset_default
                              (m + 7 * i + 3)%nat))) /\
      nth_error (Foliage.randoms b) i
      = Some (Control.Math_fround (Fin (entropy (m + 7 * i + 6)%nat))).
Proof. exact foliage_buffers_core. Qed.

Lemma foliage_buffers_witness :
  nth_error
    (Foliage.randoms
       (fst (Foliage.buffers (E := sample_engine scenario)
               (F := sample_float32) 2 0%nat))) 1
  = Some (@Control.Math_fround sample_float32
            (Fin (@entropy (sample_engine scenario) (0 + 7 * 1 + 6)%nat))).
Proof.
  destruct (foliage_buffers (sample_engine scenario) sample_float32 2 0%nat)
    as (_ & _ & _ & _ & Hpoint).
  apply (Hpoint 1%nat). repeat constructor.
Defined.

(* ====================================================================== *)
(** * The ambient particles *)
(* ====================================================================== *)

Lemma polar_norm {E : Engine} (r phi theta : Q) :
  circular E ->
  norm2 (Fin r * Math_sin (Fin phi) * Math_cos (Fin theta),
         Fin r * Math_sin (Fin phi) * Math_sin (Fin theta),
         Fin r * Math_cos (Fin phi))
  =~ Fin (r * r).
Proof.
  intro Hcirc.
  destruct (Hcirc phi) as (sp & cp & -> & -> & Hp).
  destruct (Hcirc theta) as (st & ct & -> & -> & Ht).
  unfold norm2, vx, vy, vz. cbn [fst snd mul add same].
  transitivity ((r * r) * (sp * sp * (st * st + ct * ct) + cp * cp))%Q;
    [ring|].
  rewrite Ht. transitivity ((r * r) * (sp * sp + cp * cp))%Q; [ring|].
  rewrite Hp. ring.
Qed.

Lemma disc_radial {E : Engine} (r theta : Q) (y : number) :
  circular E ->
  radial2 (Fin r * Math_cos (Fin theta), y, Fin r * Math_sin (Fin theta))
  =~ Fin (r * r).
Proof.
  intro Hcirc.
  destruct (Hcirc theta) as (st & ct & -> & -> & Ht).
  unfold radial2, vx, vz. cbn [fst snd mul add same].
  transitivity ((r * r) * (st * st + ct * ct))%Q; [ring|].
  rewrite Ht. ring.
Qed.

Lemma polar_box {E : Engine} {F : Control.Float32} (p : vec3) (r b : Q) :
  single_rounding F -> half_integer b -> half_integer (- b) ->
  0 <= b -> r * r <= b * b ->
  norm2 p =~ Fin (r * r) -> in_box b (fround3 p).
Proof.
  intros HF Hb Hb' Hb0 Hr Hn.
  destruct (norm2_finite p _ _ (same_between _ _ Hn))
    as (x & y & z & -> & Hsq).
  unfold in_box, fround3. cbn [vx vy vz fst snd].
  repeat split; (apply fround_between; [assumption..|]); split; nra.
Qed.

(** The stars.  For [count] stars, [m] calls of [Math.random] having been
    made before: the array of positions has [3 * count] numbers, the
    arrays of sizes and speeds [count]; star [i] takes the calls [m + 5 i]
    to [m + 5 i + 4]; the point computed for it is at the distance
    [60 + 40 u] from the origin, for its first random number [u], so on
    the shell between the radii 60 and 100, and the array holds its
    coordinates in single precision, each between -100 and 100; its size
    is [10 + 20 z] for the fourth number and its speed [2 + 5 w] for the
    fifth, stored in single precision between 10 and 30 and between 2
    and 7, the ends included. *)
Theorem background_stars :
  forall (E : Engine) (F : Control.Float32),
    circular E -> finite_acos E -> unit_random E -> single_rounding F ->
    forall count m : nat,
      let b := fst (Particles.stars count m) in
      List.length (Particles.positions b) = (count * 3)%nat /\
      List.length (Particles.sizes b) = count /\
      List.length (Particles.speeds b) = count /\
      snd (Particles.stars count m) = (m + 5 * count)%nat /\
      forall i, (i < count)%nat ->
        let r := (60 + entropy (m + 5 * i) * 40)%Q in
        let size := Fin (10.0 + entropy (m + 5 * i + 3) * 20.0) in
        let speed := Fin (2.0 + entropy (m + 5 * i + 4) * 5.0) in
        60 <= r < 100 /\
        (exists p, at3 (Particles.positions b) i = Some (fround3 p) /\
                   norm2 p =~ Fin (r * r) /\
                   in_box 100 (fround3 p)) /\
        (nth_error (Particles.sizes b) i
         = Some (Control.Math_fround size) /\
         between 10 30 (Control.Math_fround size)) /\
        (nth_error (Particles.speeds b) i
         = Some (Control.Math_fround speed) /\
         between 2 7 (Control.Math_fround speed)).
Proof.
  intros E F Hcirc Hacos Hrand HF count m b. subst b.
  unfold Particles.stars.
  set (P := fun (j : nat) (b : Particles.Stars) (k : nat) =>
    List.length (Particles.positions b) = (count * 3)%nat /\
    List.length (Particles.sizes b) = count /\
    List.length (Particles.speeds b) = count /\
    k = (m + 5 * j)%nat /\
    forall i, (i < j)%nat ->
      let r := (60 + entropy (m + 5 * i) * 40)%Q in
      let size := Fin (10.0 + entropy (m + 5 * i + 3) * 20.0) in
      let speed := Fin (2.0 + entropy (m + 5 * i + 4) * 5.0) in
      60 <= r < 100 /\
      (exists p, at3 (Particles.positions b) i = Some (fround3 p) /\
                 norm2 p =~ Fin (r * r) /\
                 in_box 100 (fround3 p)) /\
      (nth_error (Particles.sizes b) i
       = Some (Control.Math_fround size) /\
       between 10 30 (Control.Math_fround size)) /\
      (nth_error (Particles.speeds b) i
       = Some (Control.Math_fround speed) /\
       between 2 7 (Control.Math_fround speed))).
  apply (for_lt_inv P).
  - unfold P. cbn [Particles.positions Particles.sizes Particles.speeds].
    rewrite !new_Float32Array_length. repeat split; try lia.
  - intros j b k Hj (Hlp & Hlz & Hlw & -> & Hold). unfold P.
    unfold Particles.newStar, bind, ret, Math_random.
    cbn [fst snd Particles.positions Particles.sizes Particles.speeds].
    rewrite set3_length, !store_length.
    split; [exact Hlp|]. split; [exact Hlz|]. split; [exact Hlw|].
    split; [lia|].
    intros i Hi. destruct (Nat.eq_dec i j) as [->|Hne].
    + replace (m + 5 * j + 3)%nat with (S (S (S (m + 5 * j)))) by lia.
      replace (m + 5 * j + 4)%nat with (S (S (S (S (m + 5 * j))))) by lia.
      pose proof (Hrand (m + 5 * j)%nat) as H0.
      pose proof (Hrand (S (S (m + 5 * j)))) as H2.
      pose proof (Hrand (S (S (S (m + 5 * j))))) as H3.
      pose proof (Hrand (S (S (S (S (m + 5 * j)))))) as H4.
      cbv zeta. split; [lra|]. split; [|split].
      * eexists. split; [apply at3_set3_same; lia|].
        unfold lit, Math_PI. cbn [mul add sub].
        assert (Harg : -1 <= 2 * entropy (S (S (m + 5 * j))) - 1 <= 1)
          by lra.
        destruct (isFinite_Fin _ (Hacos _ Harg)) as [phi ->].
        assert (Hn : norm2
                  (Fin (60 + entropy (m + 5 * j) * 40)
                   * Math_sin (Fin phi)
                   * Math_cos
                       (Fin (entropy (S (m + 5 * j))
                             * (884279719003555 # 281474976710656) * 2)),
                   Fin (60 + entropy (m + 5 * j) * 40)
                   * Math_sin (Fin phi)
                   * Math_sin
                       (Fin (entropy (S (m + 5 * j))
                             * (884279719003555 # 281474976710656) * 2)),
                   Fin (60 + entropy (m + 5 * j) * 40)
                   * Math_cos (Fin phi))
                =~ Fin ((60 + entropy (m + 5 * j) * 40)
                        * (60 + entropy (m + 5 * j) * 40)))
          by (apply polar_norm; exact Hcirc).
        split; [exact Hn|].
        apply (polar_box _ (60 + entropy (m + 5 * j) * 40) 100 HF);
          [half 200%Z | half (-200)%Z | lra | nra | exact Hn].
      * split; [apply store_nth_same; lia|].
        unfold lit. cbn [mul add].
        apply fround_between; [exact HF | half 20%Z | half 60%Z | lra].
      * split; [apply store_nth_same; lia|].
        unfold lit. cbn [mul add].
        apply fround_between; [exact HF | half 4%Z | half 14%Z | lra].
    + rewrite at3_set3_other by congruence.
      rewrite !store_nth_other by congruence.
      apply Hold. lia.
Qed.

Lemma background_stars_witness :
  List.length
    (Particles.positions
       (fst (Particles.stars (E := sample_engine scenario)
               (F := sample_float32) 2 0%nat)))
  = (2 * 3)%nat.
Proof.
  exact (proj1 (background_stars (sample_engine scenario) sample_float32
                  (sample_circular scenario) (sample_finite_acos scenario)
                  scenario_unit sample_single_rounding 2 0%nat)).
Defined.

(** The dust.  For [count] grains, [m] calls of [Math.random] having been
    made before: the arrays of positions and of random numbers have
    [3 * count] numbers, the array of scales [count]; grain [i] takes the
    calls [m + 7 i] to [m + 7 i + 6]; the point computed for it is at the
    distance [12 u] from the y axis, for its first random number [u], at
    the height [20 (h - 0.5)] for the third, and the array holds its
    coordinates in single precision, x and z between -12 and 12 and y
    between -10 and 10; its scale is [5 + 10 z] for the fourth number,
    stored between 5 and 15; its three random attributes are [100 o],
    [0.5 + s] and [100 n] for the last three numbers, stored between 0
    and 100, 0.5 and 1.5, 0 and 100, the ends included. *)
Theorem golden_dust :
  forall (E : Engine) (F : Control.Float32),
    circular E -> unit_random E -> single_rounding F ->
    forall count m : nat,
      let b := fst (Particles.dust count m) in
      List.length (Particles.dust_positions b) = (count * 3)%nat /\
      List.length (Particles.scales b) = count /\
      List.length (Particles.randoms b) = (count * 3)%nat /\
      snd (Particles.dust count m) = (m + 7 * count)%nat /\
      forall i, (i < count)%nat ->
        let r := (entropy (m + 7 * i) * 12)%Q in
        let y := ((entropy (m + 7 * i + 2) - 0.5) * 20)%Q in
        let scale := Fin (5.0 + entropy (m + 7 * i + 3) * 10.0) in
        let attributes :=
          (Fin (entropy (m + 7 * i + 4) * 100),
           Fin (0.5 + entropy (m + 7 * i + 5)),
           Fin (entropy (m + 7 * i + 6) * 100)) in
        0 <= r < 12 /\
        (exists p, at3 (Particles.dust_positions b) i = Some (fround3 p) /\
                   radial2 p =~ Fin (r * r) /\
                   vy p = Fin y /\
                   between (-12) 12 (vx (fround3 p)) /\
                   between (-10) 10 (vy (fround3 p)) /\
                   between (-12) 12 (vz (fround3 p))) /\
        (nth_error (Particles.scales b) i
         = Some (Control.Math_fround scale) /\
         between 5 15 (Control.Math_fround scale)) /\
        (at3 (Particles.randoms b) i = Some (fround3 attributes) /\
         between 0 100 (vx (fround3 attributes)) /\
         between 0.5 1.5 (vy (fround3 attributes)) /\
         between 0 100 (vz (fround3 attributes))).
Proof.
  intros E F Hcirc Hrand HF count m b. subst b. unfold Particles.dust.
  set (P := fun (j : nat) (b : Particles.Dust) (k : nat) =>
    List.length (Particles.dust_positions b) = (count * 3)%nat /\
    List.length (Particles.scales b) = count /\
    List.length (Particles.randoms b) = (count * 3)%nat /\
    k = (m + 7 * j)%nat /\
    forall i, (i < j)%nat ->
      let r := (entropy (m + 7 * i) * 12)%Q in
      let y := ((entropy (m + 7 * i + 2) - 0.5) * 20)%Q in
      let scale := Fin (5.0 + entropy (m + 7 * i + 3) * 10.0) in
      let attributes :=
        (Fin (entropy (m + 7 * i + 4) * 100),
         Fin (0.5 + entropy (m + 7 * i + 5)),
         Fin (entropy (m + 7 * i + 6) * 100)) in
      0 <= r < 12 /\
      (exists p, at3 (Particles.dust_positions b) i = Some (fround3 p) /\
                 radial2 p =~ Fin (r * r) /\
                 vy p = Fin y /\
                 between (-12) 12 (vx (fround3 p)) /\
                 between (-10) 10 (vy (fround3 p)) /\
                 between (-12) 12 (vz (fround3 p))) /\
      (nth_error (Particles.scales b) i
       = Some (Control.Math_fround scale) /\
       between 5 15 (Control.Math_fround scale)) /\
      (at3 (Particles.randoms b) i = Some (fround3 attributes) /\
       between 0 100 (vx (fround3 attributes)) /\
       between 0.5 1.5 (vy (fround3 attributes)) /\
       between 0 100 (vz (fround3 attributes)))).
  apply (for_lt_inv P).
  - unfold P.
    cbn [Particles.dust_positions Particles.scales Particles.randoms].
    rewrite !new_Float32Array_length. repeat split; try lia.
  - intros j b k Hj (Hlp & Hlz & Hlr & -> & Hold). unfold P.
    unfold Particles.newDust, bind, ret, Math_random.
    cbn [fst snd Particles.dust_positions Particles.scales
         Particles.randoms].
    rewrite !set3_length, store_length.
    split; [exact Hlp|]. split; [exact Hlz|]. split; [exact Hlr|].
    split; [lia|].
    intros i Hi. destruct (Nat.eq_dec i j) as [->|Hne].
    + replace (m + 7 * j + 2)%nat with (S (S (m + 7 * j))) by lia.
      replace (m + 7 * j + 3)%nat with (S (S (S (m + 7 * j)))) by lia.
      replace (m + 7 * j + 4)%nat with (S (S (S (S (m + 7 * j))))) by lia.
      replace (m + 7 * j + 5)%nat
        with (S (S (S (S (S (m + 7 * j)))))) by lia.
      replace (m + 7 * j + 6)%nat
        with (S (S (S (S (S (S (m + 7 * j))))))) by lia.
      pose proof (Hrand (m + 7 * j)%nat) as H0.
      pose proof (Hrand (S (S (m + 7 * j)))) as H2.
      pose proof (Hrand (S (S (S (m + 7 * j))))) as H3.
      pose proof (Hrand (S (S (S (S (m + 7 * j)))))) as H4.
      pose proof (Hrand (S (S (S (S (S (m + 7 * j))))))) as H5.
      pose proof (Hrand (S (S (S (S (S (S (m + 7 * j)))))))) as H6.
      cbv zeta. split; [lra|]. split; [|split].
      * eexists. split; [apply at3_set3_same; lia|].
        unfold lit, Math_PI. cbn [mul add sub].
        match goal with
        | |- context [Math_cos (Fin ?t)] =>
            pose proof (disc_radial (entropy (m + 7 * j) * 12) t
                          (Fin ((entropy (S (S (m + 7 * j))) - 0.5) * 20))
                          Hcirc) as Hn;
            destruct (Hcirc t) as (st & ct & Hst & Hct & Hsc)
        end.
        split; [exact Hn|]. clear Hn.
        rewrite Hst, Hct.
        split; [reflexivity|].
        unfold fround3. cbn [vx vy vz fst snd].
        assert (Hs1 : st * st <= 1 /\ ct * ct <= 1)
          by (apply circle_squares; exact Hsc).
        assert (Hx : -12 <= entropy (m + 7 * j) * 12 * ct <= 12)
          by (split; nra).
        assert (Hz : -12 <= entropy (m + 7 * j) * 12 * st <= 12)
          by (split; nra).
        split; [|split].
        -- apply fround_between; [exact HF | half (-24)%Z | half 24%Z | exact Hx].
        -- apply fround_between; [exact HF | half (-20)%Z | half 20%Z | lra].
        -- apply fround_between; [exact HF | half (-24)%Z | half 24%Z | exact Hz].
      * split; [apply store_nth_same; lia|].
        unfold lit. cbn [mul add].
        apply fround_between; [exact HF | half 10%Z | half 30%Z | lra].
      * split; [apply at3_set3_same; lia|].
        unfold lit, fround3. cbn [mul add vx vy vz fst snd].
        split; [|split]; apply fround_between; try exact HF;
          try lra.
        -- half 0%Z.
        -- half 200%Z.
        -- half 1%Z.
        -- half 3%Z.
        -- half 0%Z.
        -- half 200%Z.
    + rewrite !at3_set3_other by congruence.
      rewrite store_nth_other by congruence.
      apply Hold. lia.
Qed.

Lemma golden_dust_witness :
  List.length
    (Particles.scales
       (fst (Particles.dust (E := sample_engine scenario)
               (F := sample_float32) 2 0%nat)))
  = 2%nat.
Proof.
  exact (proj1 (proj2 (golden_dust (sample_engine scenario) sample_float32
                         (sample_circular scenario) scenario_unit
                         sample_single_rounding 2 0%nat))).
Defined.

(* ====================================================================== *)
(** * The shaders of the ambient particles *)
(* ====================================================================== *)

Lemma sample_bounded_gpu : bounded_gpu sample_gpu.
Proof. intro q. split; simpl; lra. Qed.

(** [mod(x, 20.0)] of a finite [x]. *)
Lemma mod_20 (x : Q) :
  exists r,
    GLSL.mod_ (Fin x) (lit 20.0) = Fin r /\
    0 <= r < 20 /\
    r == x - 20 * inject_Z (Qfloor (x / 20.0)).
Proof.
  unfold GLSL.mod_, lit. cbn [div]. unfold is_zero.
  replace (Qeq_bool 20.0 0) with false by reflexivity.
  cbn [Math_floor mul sub].
  eexists. split; [reflexivity|].
  pose proof (Qfloor_le (x / 20.0)) as Hlo.
  pose proof (Qlt_floor (x / 20.0)) as Hhi.
  rewrite inject_Z_plus in Hhi.
  assert (Hx : x == (x / 20.0) * 20) by (field; discriminate).
  set (y := (x / 20.0)%Q) in *.
  set (f := inject_Z (Qfloor y)) in *.
  change (inject_Z 1) with 1 in Hhi.
  split; [split; lra | lra].
Qed.

Lemma floor_shift (x : Q) :
  Qfloor ((x + 20) / 20.0) = (Qfloor (x / 20.0) + 1)%Z.
Proof.
  apply floor_between; rewrite inject_Z_plus;
    pose proof (Qfloor_le (x / 20.0)) as Hlo;
    pose proof (Qlt_floor (x / 20.0)) as Hhi;
    rewrite inject_Z_plus in Hhi;
    assert (Hs : (x + 20) / 20.0 == x / 20.0 + 1) by (field; discriminate);
    rewrite Hs; set (y := (x / 20.0)%Q) in *;
    set (f := inject_Z (Qfloor y)) in *;
    change (inject_Z 1) with 1 in *; lra.
Qed.

(** The shaders of the ambient particles, on a GPU whose sine and cosine
    are between -1 and 1.  The twinkle of a star, its opacity, is in
    [[0, 1]].  A grain of dust sways by at most 0.5 along x and along z,
    and drifts along y within 10 below and 10 above its position; the
    drift loops: 20 more on [uTime * speed] gives the same height.  Its
    opacity is in [[0, 0.8]]. *)
Theorem ambient_shaders :
  forall G : GLSL.GPU,
    bounded_gpu G ->
    forall (uTime aSpeed x y z o s n : Q),
      between 0 1
        (Particles.star_twinkle (Fin uTime) (Fin aSpeed)
           (Fin x, Fin y, Fin z))
      /\
      (exists px py pz alpha,
          Particles.dust_vertex (Fin uTime) (Fin o, Fin s, Fin n)
            (Fin x, Fin y, Fin z)
          = ((Fin px, Fin py, Fin pz), Fin alpha) /\
          x - 0.5 <= px <= x + 0.5 /\
          y - 10 <= py < y + 10 /\
          z - 0.5 <= pz <= z + 0.5 /\
          0 <= alpha <= 0.8)
      /\
      (forall uTime', uTime' * (s * 0.5) == uTime * (s * 0.5) + 20 ->
          vy (fst (Particles.dust_vertex (Fin uTime') (Fin o, Fin s, Fin n)
                     (Fin x, Fin y, Fin z)))
          =~ vy (fst (Particles.dust_vertex (Fin uTime)
                        (Fin o, Fin s, Fin n) (Fin x, Fin y, Fin z)))).
Proof.
  intros G HG uTime aSpeed x y z o s n. split; [|split].
  - unfold Particles.star_twinkle, lit, vx. cbn [fst snd mul add].
    destruct (HG (uTime * aSpeed + x * 100.0)%Q) as [Hs _].
    destruct (GLSL.sin (Fin (uTime * aSpeed + x * 100.0))) as [| |w];
      try contradiction.
    simpl in *. lra.
  - unfold Particles.dust_vertex, lit, vx, vy, vz. cbn [fst snd mul add].
    destruct (mod_20 (uTime * (s * 0.5))) as (r & Hr & Hr01 & _).
    unfold lit in Hr. rewrite Hr.
    destruct (HG (uTime * 0.5 + o)%Q) as [Hs _].
    destruct (HG (uTime * 0.3 + n)%Q) as [_ Hc].
    destruct (HG (uTime * 2.0 + o)%Q) as [Ha _].
    destruct (GLSL.sin (Fin (uTime * 0.5 + o))) as [| |w1];
      try contradiction.
    destruct (GLSL.cos (Fin (uTime * 0.3 + n))) as [| |w2];
      try contradiction.
    destruct (GLSL.sin (Fin (uTime * 2.0 + o))) as [| |w3];
      try contradiction.
    simpl in Hs, Hc, Ha. cbn [mul add sub].
    do 4 eexists. split; [reflexivity|]. repeat split; lra.
  - intros uTime' Hshift.
    unfold Particles.dust_vertex, lit, vx, vy, vz. cbn [fst snd mul add].
    destruct (mod_20 (uTime * (s * 0.5))) as (r & Hr & _ & Hreq).
    destruct (mod_20 (uTime' * (s * 0.5))) as (r' & Hr' & _ & Hreq').
    unfold lit in Hr, Hr'. rewrite Hr, Hr'. cbn [add sub same].
    rewrite Hreq, Hreq'.
    rewrite (Qfloor_comp _ ((uTime * (s * 0.5) + 20) / 20.0))
      by (rewrite Hshift; reflexivity).
    rewrite floor_shift, inject_Z_plus, Hshift.
    change (inject_Z 1) with 1. ring.
Qed.

Lemma ambient_shaders_witness :
  between 0 1
    (Particles.star_twinkle (H := sample_gpu) (Fin 3) (Fin 2)
       (Fin 60, Fin 0, Fin 0)).
Proof.
  exact (proj1 (ambient_shaders sample_gpu sample_bounded_gpu
                  3 2 60 0 0 0 0 0)).
Defined.

(* ====================================================================== *)
(** * The shaders of the foliage *)
(* ====================================================================== *)

Lemma ease_at_one p : p == 1 -> ease p == 1.
Proof.
  intro H. unfold ease.
  destruct (Qle_bool 0.5 p) eqn:Hb.
  - rewrite H. reflexivity.
  - assert (~ 0.5 <= p) by (rewrite <- Qle_bool_iff; congruence). lra.
Qed.

Lemma easeInOutCubic_Fin t : Foliage.easeInOutCubic (Fin t) = Fin (ease t).
Proof. rewrite easeInOutCubic_easeT. apply easeT_Fin. Qed.

(** The vertex shader of the foliage, on a GPU whose sine and cosine are
    between -1 and 1, for a progress [p] of [[0, 1]] and the blend factor
    [e] that is its ease.  The position is the blend of the two positions
    of the point, plus the normal times a breath of at most 0.1, plus a
    float of at most [0.5 * (1 - e)] along each axis: when the progress is
    1 the float is gone and the point is at its tree position, up to the
    breath.  The opacity passed on is in [[0.6, 1]], and the gold mix is
    the random number of the point. *)
Theorem foliage_vertex :
  forall G : GLSL.GPU,
    bounded_gpu G ->
    forall (uTime p sx sy sz tx ty tz nx ny nz aRandom : Q),
      0 <= p <= 1 ->
      let e := ease p in
      let v := Foliage.vertex_main (Fin uTime) (Fin p)
                 (Fin sx, Fin sy, Fin sz) (Fin tx, Fin ty, Fin tz)
                 (Fin nx, Fin ny, Fin nz) (Fin aRandom) in
      exists breathe fx fy fz alpha,
        - (1 # 10) <= breathe <= 1 # 10 /\
        - (0.5 * (1 - e)) <= fx <= 0.5 * (1 - e) /\
        - (0.5 * (1 - e)) <= fy <= 0.5 * (1 - e) /\
        - (0.5 * (1 - e)) <= fz <= 0.5 * (1 - e) /\
        same3 (Foliage.pos v)
              (Fin (sx * (1 - e) + tx * e + nx * breathe + fx),
               Fin (sy * (1 - e) + ty * e + ny * breathe + fy),
               Fin (sz * (1 - e) + tz * e + nz * breathe + fz)) /\
        (p == 1 ->
         same3 (Foliage.pos v)
               (Fin (tx + nx * breathe), Fin (ty + ny * breathe),
                Fin (tz + nz * breathe))) /\
        Foliage.vAlpha v = Fin alpha /\ 0.6 <= alpha <= 1 /\
        Foliage.vGoldMix v = Fin aRandom.
Proof.
  intros G HG uTime p sx sy sz tx ty tz nx ny nz aRandom Hp e v.
  subst v. unfold Foliage.vertex_main.
  rewrite easeInOutCubic_Fin. fold e.
  pose proof (ease_range p Hp) as He. fold e in He.
  unfold Foliage.mix3, Foliage.mix, GLSL.scale3, GLSL.add3, lit,
    vx, vy, vz, same3.
  cbn [fst snd Foliage.pos Foliage.vAlpha Foliage.vGoldMix mul add sub].
  destruct (HG (uTime * 2.0 + aRandom * 10.0)%Q) as [Hb _].
  destruct (HG (uTime * 0.5 + aRandom * 5.0)%Q) as [H1 _].
  destruct (HG (uTime * 0.3 + aRandom * 3.0)%Q) as [_ H2].
  destruct (HG (uTime * 0.7 + aRandom * 2.0)%Q) as [H3 _].
  destruct (HG (uTime + aRandom * 10.0)%Q) as [Ha _].
  destruct (GLSL.sin (Fin (uTime * 2.0 + aRandom * 10.0))) as [| |b];
    try contradiction.
  destruct (GLSL.sin (Fin (uTime * 0.5 + aRandom * 5.0))) as [| |w1];
    try contradiction.
  destruct (GLSL.cos (Fin (uTime * 0.3 + aRandom * 3.0))) as [| |w2];
    try contradiction.
  destruct (GLSL.sin (Fin (uTime * 0.7 + aRandom * 2.0))) as [| |w3];
    try contradiction.
  destruct (GLSL.sin (Fin (uTime + aRandom * 10.0))) as [| |a];
    try contradiction.
  simpl in Hb, H1, H2, H3, Ha.
  cbn [fst snd mul add sub same].
  exists (b * 0.1)%Q, (w1 * (1.0 - e) * 0.5)%Q,
         (w2 * (1.0 - e) * 0.5)%Q, (w3 * (1.0 - e) * 0.5)%Q,
         (0.8 + 0.2 * a)%Q.
  split; [lra|]. split; [nra|]. split; [nra|]. split; [nra|].
  split; [repeat split; ring|].
  split.
  - intro H1p.
    assert (He1 : e == 1) by (apply ease_at_one; exact H1p).
    unfold vx, vy, vz. cbn [fst snd same].
    split; [|split]; rewrite He1; ring.
  - split; [reflexivity|]. split; [lra | reflexivity].
Qed.

Lemma foliage_vertex_witness :
  exists breathe fx fy fz alpha,
    - (1 # 10) <= breathe <= 1 # 10 /\
    - (0.5 * (1 - ease 1)) <= fx <= 0.5 * (1 - ease 1) /\
    - (0.5 * (1 - ease 1)) <= fy <= 0.5 * (1 - ease 1) /\
    - (0.5 * (1 - ease 1)) <= fz <= 0.5 * (1 - ease 1) /\
    same3 (Foliage.pos
             (Foliage.vertex_main (H := sample_gpu) (Fin 2) (Fin 1)
                (Fin 1, Fin 2, Fin 3) (Fin 0, Fin 4, Fin 0)
                (Fin 0, Fin 0, Fin 0) (Fin 0.5)))
          (Fin (1 * (1 - ease 1) + 0 * ease 1 + 0 * breathe + fx),
           Fin (2 * (1 - ease 1) + 4 * ease 1 + 0 * breathe + fy),
           Fin (3 * (1 - ease 1) + 0 * ease 1 + 0 * breathe + fz)) /\
    (1 == 1 ->
     same3 (Foliage.pos
              (Foliage.vertex_main (H := sample_gpu) (Fin 2) (Fin 1)
                 (Fin 1, Fin 2, Fin 3) (Fin 0, Fin 4, Fin 0)
                 (Fin 0, Fin 0, Fin 0) (Fin 0.5)))
           (Fin (0 + 0 * breathe), Fin (4 + 0 * breathe),
            Fin (0 + 0 * breathe))) /\
    Foliage.vAlpha
      (Foliage.vertex_main (H := sample_gpu) (Fin 2) (Fin 1)
         (Fin 1, Fin 2, Fin 3) (Fin 0, Fin 4, Fin 0)
         (Fin 0, Fin 0, Fin 0) (Fin 0.5)) = Fin alpha /\
    0.6 <= alpha <= 1 /\
    Foliage.vGoldMix
      (Foliage.vertex_main (H := sample_gpu) (Fin 2) (Fin 1)
         (Fin 1, Fin 2, Fin 3) (Fin 0, Fin 4, Fin 0)
         (Fin 0, Fin 0, Fin 0) (Fin 0.5)) = Fin 0.5.
Proof.
  apply (foliage_vertex sample_gpu sample_bounded_gpu
           2 1 1 2 3 0 4 0 0 0 0 0.5).
  lra.
Defined.

(** The fragment shader of the foliage, for a fragment at the distance
    [d] from the center of its point and the strength [s] that the power
    returns.  The fragment is discarded exactly when [d > 0.5].  Kept, its
    opacity is [s] times the opacity of the point, and its color is the
    base color for a gold mix under 0.95, and 2.5 times the high color
    from 0.95 on, plus (0.05, 0.1, 0.05) times [s] in both cases: the
    points whose random number is at least 0.95 are the gold ones. *)
Theorem foliage_fragment :
  forall (G : GLSL.GPU) (cr cg cb hr hg hb a g px py d s : Q),
    GLSL.length2 (Fin (px - 0.5)) (Fin (py - 0.5)) = Fin d ->
    GLSL.pow (Fin (1.0 - d * 2.0)) (lit 1.5) = Fin s ->
    let out :=
      Foliage.fragment_main (Fin cr, Fin cg, Fin cb) (Fin hr, Fin hg, Fin hb)
        (Fin a) (Fin g) (Fin px, Fin py) in
    (0.5 < d -> out = None) /\
    (d <= 0.5 ->
     exists col alpha,
       out = Some (col, Fin alpha) /\
       alpha == s * a /\
       (g < 0.95 ->
        same3 col (Fin (cr + 0.05 * s), Fin (cg + 0.1 * s),
                   Fin (cb + 0.05 * s))) /\
       (0.95 <= g ->
        same3 col (Fin (hr * 2.5 + 0.05 * s), Fin (hg * 2.5 + 0.1 * s),
                   Fin (hb * 2.5 + 0.05 * s)))).
Proof.
  intros G cr cg cb hr hg hb a g px py d s Hd Hs out. subst out.
  unfold Foliage.fragment_main, lit. cbn [fst snd sub]. rewrite Hd.
  split; intro Hcmp.
  - apply ltb_Fin in Hcmp. rewrite Hcmp. reflexivity.
  - apply ltb_Fin_false in Hcmp. rewrite Hcmp.
    cbn [mul sub]. unfold lit in Hs. rewrite Hs.
    unfold GLSL.step, Foliage.mix3, Foliage.mix, GLSL.scale3, GLSL.add3,
      lit, vx, vy, vz.
    cbn [fst snd mul].
    destruct (Fin g <? Fin 0.95) eqn:Hg;
      [apply ltb_Fin in Hg | apply ltb_Fin_false in Hg];
      cbn [fst snd mul add sub];
      (do 2 eexists; split; [reflexivity|]; split; [reflexivity|]);
      unfold same3, vx, vy, vz; cbn [fst snd same];
      (split; intro Hg'; [|]); try lra;
      (split; [|split]); ring.
Qed.

Lemma foliage_fragment_witness :
  Foliage.fragment_main (H := sample_gpu)
    (Fin 0, Fin 0.2, Fin 0.1) (Fin 1, Fin 0.8, Fin 0)
    (Fin 1) (Fin 0.97) (Fin 1.5, Fin 0.5) = None.
Proof.
  refine (proj1 (foliage_fragment sample_gpu 0 0.2 0.1 1 0.8 0 1 0.97
                   1.5 0.5 (1.5 - 0.5) (1.0 - (1.5 - 0.5) * 2.0) _ _) _);
    reflexivity.
Defined.

(* ====================================================================== *)
(** * The star on the top *)
(* ====================================================================== *)

Lemma corner_spec {E : Engine} i star m :
  circular E ->
  exists x y,
    Experience.corner i star m = (star ++ [star_op i x y], m) /\
    x * x + y * y == star_radius i * star_radius i.
Proof.
  intro Hcirc. unfold Experience.corner, ret, star_op, star_radius,
    Experience.points, Experience.outerRadius, Experience.innerRadius,
    of_nat, lit, Math_PI.
  cbn [div mul sub is_zero]. 
  replace (is_zero (inject_Z (Z.of_nat 5))) with false by reflexivity.
  replace (is_zero 2) with false by reflexivity.
  cbn [sub].
  match goal with
  | |- context [Math_cos (Fin ?q)] =>
      destruct (Hcirc q) as (s & c & -> & -> & Hsc)
  end.
  destruct (Nat.eqb (i mod 2) 0); cbn [mul];
    do 2 eexists; (split; [reflexivity|]).
  - transitivity ((0.9 * 0.9) * (s * s + c * c))%Q; [ring|].
    rewrite Hsc. ring.
  - transitivity ((0.45 * 0.45) * (s * s + c * c))%Q; [ring|].
    rewrite Hsc. ring.
Qed.

(** The shape of the star: ten corners and the closing of the path.  The
    first call moves to corner 0, the next nine draw lines to the corners
    1 to 9; the corners alternate between the circle of radius 0.9 (even
    ones) and the circle of radius 0.45 (odd ones) about the origin. *)
Theorem star_shape :
  forall E : Engine,
    circular E ->
    List.length Experience.shape = 11%nat /\
    nth_error Experience.shape 10 = Some Experience.closePath /\
    forall i, (i < 10)%nat ->
      exists x y,
        nth_error Experience.shape i = Some (star_op i x y) /\
        x * x + y * y == star_radius i * star_radius i.
Proof.
  intros E Hcirc. unfold Experience.shape.
  set (P := fun (j : nat) (star : list Experience.PathOp) (k : nat) =>
    List.length star = j /\
    forall i, (i < j)%nat ->
      exists x y,
        nth_error star i = Some (star_op i x y) /\
        x * x + y * y == star_radius i * star_radius i).
  assert (HP : P (Experience.points * 2)%nat
                 (fst (Control.for_lt (Experience.points * 2)
                         Experience.corner [] 0%nat))
                 (snd (Control.for_lt (Experience.points * 2)
                         Experience.corner [] 0%nat))).
  { apply (for_lt_inv P).
    - split; [reflexivity | intros i Hi; lia].
    - intros j star k Hj [Hlen Hold].
      destruct (corner_spec j star k Hcirc) as (x & y & -> & Hxy).
      cbn [fst snd]. split.
      + rewrite length_app. cbn [List.length]. lia.
      + intros i Hi. destruct (Nat.eq_dec i j) as [->|Hne].
        * exists x, y. split; [|exact Hxy].
          rewrite nth_error_app2 by lia.
          rewrite Hlen, Nat.sub_diag. reflexivity.
        * destruct (Hold i ltac:(lia)) as (x' & y' & Hn & Hr).
          exists x', y'. split; [|exact Hr].
          rewrite nth_error_app1 by lia. exact Hn. }
  destruct HP as [Hlen Hall].
  change (Experience.points * 2)%nat with 10%nat in *.
  split; [rewrite length_app, Hlen; reflexivity|]. split.
  - rewrite nth_error_app2 by lia. rewrite Hlen. reflexivity.
  - intros i Hi. destruct (Hall i Hi) as (x & y & Hn & Hr).
    exists x, y. split; [|exact Hr].
    rewrite nth_error_app1 by lia. exact Hn.
Qed.

Lemma star_shape_witness :
  List.length (Experience.shape (H := sample_engine scenario)) = 11%nat.
Proof.
  exact (proj1 (star_shape (sample_engine scenario)
                  (sample_circular scenario))).
Defined.

(* ====================================================================== *)
(** * The builders and the frames together *)
(* ====================================================================== *)

(** A frame of a group as it is mounted: the mesh has one instance per
    record, and after the frame instance [i] holds the matrix of record
    [i], the record with the id [i], for every [i] under [count]. *)
Theorem mounted_frame_covers_instances :
  forall (E : Engine) (type : OrnamentType) (count : nat)
         (scaleBase : number) (palette : option (list string)) (m : nat)
         (state : TreeMorphState) (time delta : number),
    let st := fst (Ornaments.mount type count scaleBase palette m) in
    let st' := Ornaments.useFrame type state time delta st in
    let e := Ornaments.easeT (next_progress type state delta st) in
    exists mesh',
      Ornaments.meshRef st' = Some mesh' /\
      List.length (THREE.instanceMatrix mesh') = count /\
      forall i, (i < count)%nat ->
        exists item,
          nth_error (Ornaments.data st') i = Some item /\
          id item = of_nat i /\
          nth_error (THREE.instanceMatrix mesh') i
          = Some (matrix_at e time st i item).
Proof.
  intros E type count scaleBase palette m state time delta st st' e.
  destruct (mount_progress type count scaleBase palette m) as [_ Hmesh].
  fold st in Hmesh.
  destruct (frame_writes_matrices_core E type state time delta st _ Hmesh)
    as (_ & mesh' & Hm' & _ & Hlen & Hin & _).
  fold st' in Hm'. exists mesh'. split; [exact Hm'|].
  cbn [THREE.new_InstancedMesh THREE.instanceMatrix] in Hlen, Hin.
  rewrite repeat_length in Hlen, Hin. split; [exact Hlen|].
  intros i Hi.
  destruct (buildData_layout_core E type count scaleBase palette m)
    as [_ Hlay].
  destruct (Hlay i Hi) as (item & Hnth & Hid & _).
  exists item.
  assert (Hd : Ornaments.data st' = Ornaments.data st)
    by apply ornament_data.
  rewrite Hd. unfold st at 1. rewrite mount_data.
  split; [exact Hnth|]. split; [exact Hid|].
  apply Hin; [|exact Hi]. unfold st. rewrite mount_data. exact Hnth.
Qed.

Lemma mounted_frame_covers_instances_witness :
  exists mesh',
    Ornaments.meshRef
      (Ornaments.useFrame (H := sample_engine scenario)
         SPHERE TREE_SHAPE (Fin 0) (Fin (1 # 60)) three_spheres)
    = Some mesh' /\
    List.length (THREE.instanceMatrix mesh') = 3%nat /\
    forall i, (i < 3)%nat ->
      exists item,
        nth_error
          (Ornaments.data
             (Ornaments.useFrame (H := sample_engine scenario)
                SPHERE TREE_SHAPE (Fin 0) (Fin (1 # 60)) three_spheres))
          i = Some item /\
        id item = of_nat i /\
        nth_error (THREE.instanceMatrix mesh') i
        = Some (matrix_at (H := sample_engine scenario)
                  (Ornaments.easeT
                     (next_progress SPHERE TREE_SHAPE (Fin (1 # 60))
                        three_spheres))
                  (Fin 0) three_spheres i item).
Proof.
  exact (mounted_frame_covers_instances (sample_engine scenario) SPHERE 3
           (lit 0.25) (Some Ornaments.spherePalette) 0%nat TREE_SHAPE
           (Fin 0) (Fin (1 # 60))).
Defined.

(** The cloud of the foliage, as the arrays hold it.  With sine and
    cosine on the unit circle, roots of [[0, 1)] in [[0, 1)], a finite arc
    cosine, [Math.random] in [[0, 1)] and a conversion to single precision
    that keeps the order and the numbers it has: the scatter position of
    every point is the rounding of a point of the ball of radius 18, with
    every coordinate between -18 and 18; its tree position is the
    rounding of a point of the cone (at the height [12 h - 5], at most
    [5.5 (1 - h)] away from the axis), with y between -5 and 7 and x and
    z between -5.5 and 5.5; its random number is between 0 and 1, the
    ends included. *)
Theorem foliage_cloud :
  forall (E : Engine) (F : Control.Float32),
    circular E -> unit_roots E -> finite_acos E -> unit_random E ->
    single_rounding F ->
    forall (count m i : nat),
      (i < count)%nat ->
      let b := fst (Foliage.buffers count m) in
      let h := entropy (m + 7 * i + 3) in
      (exists p, at3 (Foliage.scatterPositions b) i = Some (fround3 p) /\
                 between 0 (18 * 18) (norm2 p) /\
                 in_box 18 (fround3 p)) /\
      (exists p, at3 (Foliage.treePositions b) i = Some (fround3 p) /\
                 vy p = Fin (h * 12 + -5) /\
                 between 0 (((1 - h) * 5.5) * ((1 - h) * 5.5))
                   (radial2 p) /\
                 between (-5.5) 5.5 (vx (fround3 p)) /\
                 between (-5) 7 (vy (fround3 p)) /\
                 between (-5.5) 5.5 (vz (fround3 p))) /\
      (nth_error (Foliage.randoms b) i
       = Some (Control.Math_fround (Fin (entropy (m + 7 * i + 6)))) /\
       between 0 1 (Control.Math_fround (Fin (entropy (m + 7 * i + 6))))).
Proof.
  intros E F Hcirc Hroots Hacos Hrand HF count m i Hi b h.
  destruct (foliage_buffers_core E F count m) as (_ & _ & _ & _ & Hpts).
  destruct (Hpts i Hi) as (Hs & Ht & Hr). fold b in Hs, Ht, Hr.
  split; [|split].
  - eexists. split; [exact Hs|].
    destruct (getRandomSpherePoint_in_ball_core E Hcirc Hroots Hacos Hrand
                18 (m + 7 * i)%nat) as (c & _ & _ & Hb & _).
    split; [exact Hb|].
    destruct (norm2_finite _ _ _ Hb) as (x & y & z & Hp & Hsq).
    unfold MathUtils.SCATTER_RADIUS, lit. rewrite Hp.
    unfold in_box, fround3. cbn [vx vy vz fst snd].
    repeat split;
      (apply fround_between;
         [exact HF | half (-36)%Z | half 36%Z | split; nra]).
  - eexists. split; [exact Ht|].
    destruct (getTreePoint_in_cone_core E Hcirc Hroots Hrand
                12 5.5 (-5) (m + 7 * i + 3)%nat)
      as (Hh & Hy & Hrad & _).
    fold h in Hh, Hy, Hrad.
    split; [exact Hy|]. split; [exact Hrad|].
    destruct (radial2_finite _ _ _ Hrad) as (x & z & Hx & Hz & Hsq).
    unfold MathUtils.TREE_HEIGHT, MathUtils.TREE_RADIUS_BASE,
      MathUtils.yOffset_default, lit in Hy, Hx, Hz |- *.
    unfold fround3. cbn [vx vy vz fst snd]. rewrite Hx, Hy, Hz.
    assert (H1 : (1 - h) * (1 - h) <= 1) by nra.
    assert (H2 : x * x + z * z <= 5.5 * 5.5) by nra.
    split; [|split].
    + apply fround_between;
        [exact HF | half (-11)%Z | half 11%Z | split; nra].
    + apply fround_between; [exact HF | half (-10)%Z | half 14%Z | lra].
    + apply fround_between;
        [exact HF | half (-11)%Z | half 11%Z | split; nra].
  - split; [exact Hr|].
    pose proof (Hrand (m + 7 * i + 6)%nat) as Hu.
    apply fround_between; [exact HF | half 0%Z | half 2%Z | lra].
Qed.

Lemma foliage_cloud_witness :
  nth_error
    (Foliage.randoms
       (fst (Foliage.buffers (E := sample_engine scenario)
               (F := sample_float32) 2 0%nat))) 1
  = Some (@Control.Math_fround sample_float32
            (Fin (@entropy (sample_engine scenario) (0 + 7 * 1 + 6)%nat)))
  /\
  between 0 1
    (@Control.Math_fround sample_float32
       (Fin (@entropy (sample_engine scenario) (0 + 7 * 1 + 6)%nat))).
Proof.
  refine (proj2 (proj2
    (foliage_cloud (sample_engine scenario) sample_float32
       (sample_circular scenario) (sample_unit_roots scenario)
       (sample_finite_acos scenario) scenario_unit sample_single_rounding
       2 0%nat 1%nat _))).
  repeat constructor.
Defined.

(** The two positions of record [i] of a group of [count] ornaments, with
    sine and cosine on the unit circle, roots of [[0, 1)] in [[0, 1)], a
    finite arc cosine and [Math.random] in [[0, 1)].  The scatter position
    is in the ball of radius 18.  The tree position is point [i] of the
    spiral moved by a jitter of [[-0.25, 0.25)] along x and along z: with
    [c] and [s] the cosine and the sine of the angle [2.39996 i] and [r]
    the radius [(1 - i / count)] times the radius of the group (5.5 times
    0.8 for boxes, 0.9 otherwise), the point of the spiral is
    [(r c, 12 i / count - 5, r s)] and the tree position is
    [(r c + dx, 12 i / count - 5, r s + dz)]. *)
Theorem record_positions :
  forall E : Engine,
    circular E -> unit_roots E -> finite_acos E -> unit_random E ->
    forall (type : OrnamentType) (count : nat) (scaleBase : number)
           (palette : option (list string)) (m i : nat),
      (i < count)%nat ->
      let hRatio :=
        (inject_Z (Z.of_nat i) / inject_Z (Z.of_nat count))%Q in
      let r := ((1 - hRatio) * spiral_radius type)%Q in
      let angle := (inject_Z (Z.of_nat i) * 2.39996)%Q in
      exists item c s dx dz,
        nth_error
          (fst (Ornaments.buildData type count scaleBase palette m)) i
        = Some item /\
        between 0 (18 * 18) (norm2 (scatter item)) /\
        Math_cos (Fin angle) = Fin c /\
        Math_sin (Fin angle) = Fin s /\
        same3
          (MathUtils.getTreeSpiralPoint (of_nat i) (of_nat count)
             MathUtils.TREE_HEIGHT (Fin (spiral_radius type))
             MathUtils.yOffset_default)
          (Fin (r * c), Fin (hRatio * 12 + -5), Fin (r * s)) /\
        same3 (tree item)
          (Fin (r * c + dx), Fin (hRatio * 12 + -5), Fin (r * s + dz)) /\
        -0.25 <= dx < 0.25 /\ -0.25 <= dz < 0.25.
Proof.
  intros E Hcirc Hroots Hacos Hrand type count scaleBase palette m i Hi
         hRatio r angle.
  destruct (loop_nth type count scaleBase palette count 0 [] m)
    as (_ & _ & Hnew).
  destruct (Hnew i Hi) as [k Hk]. cbn [List.length plus] in Hk.
  destruct (newItem_fields type count scaleBase palette i k)
    as (_ & _ & Hsc & Htree & _).
  assert (Hc : ~ inject_Z (Z.of_nat count) == 0).
  { intro Hz. assert (Hlt : 0 < inject_Z (Z.of_nat count))
      by (rewrite <- (Zlt_Qlt 0); lia).
    rewrite Hz in Hlt. discriminate Hlt. }
  destruct (Hcirc angle) as (s & c & Hs & Hcs & _).
  assert (Hsp :
    MathUtils.getTreeSpiralPoint (of_nat i) (of_nat count)
      MathUtils.TREE_HEIGHT
      (MathUtils.TREE_RADIUS_BASE
       * match type with BOX => lit 0.8 | _ => lit 0.9 end)
      MathUtils.yOffset_default
    = (Fin ((1 - hRatio)
            * (5.5 * match type with BOX => 0.8 | _ => 0.9 end) * c),
       Fin (hRatio * 12 + -5),
       Fin ((1 - hRatio)
            * (5.5 * match type with BOX => 0.8 | _ => 0.9 end) * s))).
  { unfold MathUtils.getTreeSpiralPoint, of_nat, MathUtils.TREE_HEIGHT,
      MathUtils.TREE_RADIUS_BASE, MathUtils.yOffset_default, lit.
    cbn [div]. unfold is_zero.
    destruct (Qeq_bool (inject_Z (Z.of_nat count)) 0) eqn:Hz;
      [apply Qeq_bool_eq in Hz; contradiction|].
    assert (Hr : match type with BOX => Fin 0.8 | _ => Fin 0.9 end
                 = Fin (match type with BOX => 0.8 | _ => 0.9 end))
      by (destruct type; reflexivity).
    rewrite Hr. cbn [mul add sub]. fold hRatio. fold angle.
    rewrite Hs, Hcs. cbn [mul add sub]. reflexivity. }
  assert (Hrad : (5.5 * match type with BOX => 0.8 | _ => 0.9 end)%Q
                 == spiral_radius type)
    by (unfold spiral_radius; destruct type; reflexivity).
  rewrite Hsp in Htree. unfold lit, vx, vy, vz in Htree.
  cbn [fst snd mul add sub] in Htree.
  pose proof (Hrand (3 + k)%nat) as H3. pose proof (Hrand (4 + k)%nat) as H4.
  eexists. exists c, s. do 2 eexists.
  split; [exact Hk|]. split.
  - rewrite Hsc.
    destruct (getRandomSpherePoint_in_ball_core E Hcirc Hroots Hacos Hrand
                18 k) as (c' & _ & _ & Hb & _).
    exact Hb.
  - split; [exact Hcs|]. split; [exact Hs|]. split; [|split].
    + unfold MathUtils.getTreeSpiralPoint, of_nat, MathUtils.TREE_HEIGHT,
        MathUtils.yOffset_default, lit.
      cbn [div]. unfold is_zero.
      destruct (Qeq_bool (inject_Z (Z.of_nat count)) 0) eqn:Hz;
        [apply Qeq_bool_eq in Hz; contradiction|].
      cbn [mul add sub]. fold hRatio. fold angle.
      rewrite Hs, Hcs. cbn [mul add sub]. fold r.
      unfold same3. cbn [vx vy vz fst snd same].
      repeat split; reflexivity.
    + rewrite Htree. unfold same3. cbn [vx vy vz fst snd same]. subst r.
      split; [|split]; [rewrite <- Hrad; reflexivity | reflexivity
                       | rewrite <- Hrad; reflexivity].
    + split; lra.
Qed.

Lemma record_positions_witness :
  exists item c s dx dz,
    nth_error (Ornaments.data three_spheres) 1 = Some item /\
    between 0 (18 * 18) (norm2 (scatter item)) /\
    @Math_cos (sample_engine scenario)
      (Fin (inject_Z (Z.of_nat 1) * 2.39996)) = Fin c /\
    @Math_sin (sample_engine scenario)
      (Fin (inject_Z (Z.of_nat 1) * 2.39996)) = Fin s /\
    same3
      (MathUtils.getTreeSpiralPoint (H := sample_engine scenario)
         (of_nat 1) (of_nat 3) MathUtils.TREE_HEIGHT
         (Fin (spiral_radius SPHERE)) MathUtils.yOffset_default)
      (Fin ((1 - inject_Z (Z.of_nat 1) / inject_Z (Z.of_nat 3))
            * spiral_radius SPHERE * c),
       Fin (inject_Z (Z.of_nat 1) / inject_Z (Z.of_nat 3) * 12 + -5),
       Fin ((1 - inject_Z (Z.of_nat 1) / inject_Z (Z.of_nat 3))
            * spiral_radius SPHERE * s)) /\
    same3 (tree item)
      (Fin ((1 - inject_Z (Z.of_nat 1) / inject_Z (Z.of_nat 3))
            * spiral_radius SPHERE * c + dx),
       Fin (inject_Z (Z.of_nat 1) / inject_Z (Z.of_nat 3) * 12 + -5),
       Fin ((1 - inject_Z (Z.of_nat 1) / inject_Z (Z.of_nat 3))
            * spiral_radius SPHERE * s + dz)) /\
    -0.25 <= dx < 0.25 /\ -0.25 <= dz < 0.25.
Proof.
  refine (record_positions (sample_engine scenario)
            (sample_circular scenario) (sample_unit_roots scenario)
            (sample_finite_acos scenario) scenario_unit
            SPHERE 3 (lit 0.25) (Some Ornaments.spherePalette) 0%nat
            1%nat _).
  repeat constructor.
Defined.

(** The uniforms of the foliage.  With the material mounted, the frames
    add their deltas to [uTime], and after every frame the uniform
    [uProgress] is the progress of the component: the shader draws the
    progress of the frame, not the one before. *)
Theorem foliage_uniforms :
  forall (frames : list Frame) (st : Foliage.State) (u0 : Foliage.Uniforms)
         (t0 : Q),
    Foliage.materialRef st = Some u0 ->
    Foliage.uTime u0 = Fin t0 ->
    exists u,
      Foliage.materialRef (foliage_run frames st) = Some u /\
      Foliage.uTime u
      =~ Fin (t0 + fold_right Qplus 0 (map f_delta frames)) /\
      (frames <> [] ->
       Foliage.uProgress u = Foliage.progressRef (foliage_run frames st)).
Proof.
  induction frames as [|f frames IH]; intros st u0 t0 Hm Ht.
  - exists u0. split; [exact Hm|]. split; [|congruence].
    rewrite Ht. simpl. ring.
  - change (foliage_run (f :: frames) st)
      with (foliage_run frames (foliage_frame st f)).
    assert (Hstep : exists u1,
      Foliage.materialRef (foliage_frame st f) = Some u1 /\
      Foliage.uTime u1 = Fin (t0 + f_delta f) /\
      Foliage.uProgress u1 = Foliage.progressRef (foliage_frame st f)).
    { unfold foliage_frame, Foliage.useFrame. rewrite Hm.
      eexists. split; [reflexivity|].
      cbn [Foliage.uTime Foliage.uProgress Foliage.progressRef].
      rewrite Ht. split; reflexivity. }
    destruct Hstep as (u1 & Hm1 & Ht1 & Hp1).
    destruct (IH _ _ _ Hm1 Ht1) as (u & Hu & Htime & Hprog).
    exists u. split; [exact Hu|]. split.
    + eapply same_trans; [exact Htime|]. cbn [map fold_right same]. ring.
    + intros _. destruct frames as [|g frames'].
      * cbn [foliage_run fold_left] in Hu |- *.
        rewrite Hm1 in Hu. injection Hu as <-. exact Hp1.
      * apply Hprog. discriminate.
Qed.

Lemma foliage_uniforms_witness :
  exists u,
    Foliage.materialRef (foliage_run some_frames Foliage.mount) = Some u /\
    Foliage.uTime u
    =~ Fin (0 + fold_right Qplus 0 (map f_delta some_frames)) /\
    (some_frames <> [] ->
     Foliage.uProgress u
     = Foliage.progressRef (foliage_run some_frames Foliage.mount)).
Proof.
  apply (foliage_uniforms some_frames Foliage.mount
           Foliage.FoliageMaterial 0); reflexivity.
Defined.
